(** * ArduGUI hwdef scraper: the board-definition parser of
    [tools/scrape-hwdef.py], embedded and verified.

    Text is modelled as byte strings ([string]); on ASCII input the
    functions below coincide with Python's [str] methods.  Python integers
    are [Z]; dictionaries used as maps are [gmap], sets are [gset]. *)

From Stdlib Require Import ZArith Ascii String List Sorted Permutation Lia.
From stdpp Require Import gmap strings list sorting pretty.

Local Open Scope string_scope.
Local Open Scope Z_scope.
Local Open Scope list_scope.

(** ** Python string primitives *)

Module PyStr.

(** ASCII characters for which [str.isspace] holds. *)
Definition is_space (c : ascii) : bool :=
  let n := N_of_ascii c in
  ((9 <=? n)%N && (n <=? 13)%N) || ((28 <=? n)%N && (n <=? 32)%N).

(** ASCII decimal digits, the [\d] class. *)
Definition is_digit (c : ascii) : bool :=
  let n := N_of_ascii c in (48 <=? n)%N && (n <=? 57)%N.

Definition is_empty (s : string) : bool :=
  match s with "" => true | _ => false end.

(** [s.startswith(p)] *)
Definition startswith (p s : string) : bool := String.prefix p s.

(** [sub in s] *)
Fixpoint contains (sub s : string) : bool :=
  String.prefix sub s ||
  match s with
  | "" => false
  | String _ s' => contains sub s'
  end.

(** [s.lstrip(chars)] and [s.rstrip(chars)], with the character set given
    as a predicate. *)
Fixpoint lstrip_by (p : ascii → bool) (s : string) : string :=
  match s with
  | "" => ""
  | String c s' => if p c then lstrip_by p s' else s
  end.

Fixpoint rstrip_by (p : ascii → bool) (s : string) : string :=
  match s with
  | "" => ""
  | String c s' =>
      let r := rstrip_by p s' in
      if p c && is_empty r then "" else String c r
  end.

Definition strip_by (p : ascii → bool) (s : string) : string :=
  rstrip_by p (lstrip_by p s).

(** [s.strip()] *)
Definition strip : string → string := strip_by is_space.

(** [s.split()]: maximal runs of non-blank characters. *)
Fixpoint split_go (cur : string) (s : string) : list string :=
  match s with
  | "" => if is_empty cur then [] else [cur]
  | String c s' =>
      if is_space c
      then (if is_empty cur then split_go "" s' else cur :: split_go "" s')
      else split_go (cur +:+ String c "") s'
  end.

Definition split : string → list string := split_go "".

(** The first blank-delimited word of a string that starts with a
    non-blank character, and what follows it. *)
Fixpoint break_ws (s : string) : string * string :=
  match s with
  | "" => ("", "")
  | String c s' =>
      if is_space c then ("", s)
      else let '(a, b) := break_ws s' in (String c a, b)
  end.

(** [s.split(None, 1)] *)
Definition split_max1 (s : string) : list string :=
  let s1 := lstrip_by is_space s in
  if is_empty s1 then []
  else
    let '(tok, rest) := break_ws s1 in
    let rest' := lstrip_by is_space rest in
    if is_empty rest' then [tok] else [tok; rest'].

(** [s.split(sep)] for a one-character separator: never empty. *)
Fixpoint split_on (sep : ascii) (s : string) : list string :=
  match s with
  | "" => [""]
  | String c s' =>
      if Ascii.eqb c sep then "" :: split_on sep s'
      else match split_on sep s' with
           | [] => [String c ""]
           | x :: xs => String c x :: xs
           end
  end.

(** [s.rsplit(sep, 1)[0]]: everything before the last separator, or the
    whole string when there is none. *)
Fixpoint rsplit1_head (sep : ascii) (s : string) : string :=
  match s with
  | "" => ""
  | String c s' =>
      if Ascii.eqb c sep && negb (contains (String sep "") s') then ""
      else String c (rsplit1_head sep s')
  end.

(** [s[-1] == c], false on the empty string. *)
Fixpoint last_char_is (c : ascii) (s : string) : bool :=
  match s with
  | "" => false
  | String a "" => Ascii.eqb a c
  | String _ s' => last_char_is c s'
  end.

Definition lower_char (c : ascii) : ascii :=
  let n := N_of_ascii c in
  if (65 <=? n)%N && (n <=? 90)%N then ascii_of_N (n + 32) else c.

Definition upper_char (c : ascii) : ascii :=
  let n := N_of_ascii c in
  if (97 <=? n)%N && (n <=? 122)%N then ascii_of_N (n - 32) else c.

Fixpoint map_chars (f : ascii → ascii) (s : string) : string :=
  match s with
  | "" => ""
  | String c s' => String (f c) (map_chars f s')
  end.

Definition lower : string → string := map_chars lower_char.
Definition upper : string → string := map_chars upper_char.

(** [s.endswith(suf)] *)
Definition endswith (suf s : string) : bool :=
  String.prefix (String.rev suf) (String.rev s).

(** [sep.join(l)] *)
Definition join (sep : string) (l : list string) : string :=
  String.concat sep l.

(** The longest prefix of digits, and the remainder. *)
Fixpoint span_digits (s : string) : string * string :=
  match s with
  | "" => ("", "")
  | String c s' =>
      if is_digit c
      then let '(a, b) := span_digits s' in (String c a, b)
      else ("", s)
  end.

Definition drop_prefix (p s : string) : string :=
  String.substring (String.length p) (String.length s - String.length p) s.

(** Value of a string of decimal digits. *)
Fixpoint digits_val (acc : Z) (s : string) : Z :=
  match s with
  | "" => acc
  | String c s' => digits_val (10 * acc + (Z.of_N (N_of_ascii c) - 48)) s'
  end.

(** Well-formedness of the digit part of an integer literal: digits with
    single underscores between them. *)
Fixpoint int_body_ok (prev_digit : bool) (s : string) : bool :=
  match s with
  | "" => prev_digit
  | String c s' =>
      if is_digit c then int_body_ok true s'
      else if Ascii.eqb c "_" then prev_digit && int_body_ok false s'
      else false
  end.

Fixpoint remove_underscores (s : string) : string :=
  match s with
  | "" => ""
  | String c s' =>
      if Ascii.eqb c "_" then remove_underscores s'
      else String c (remove_underscores s')
  end.

(** [int(s)] in base ten; [None] stands for [ValueError]. *)
Definition int (s : string) : option Z :=
  let s := strip s in
  let '(neg, body) :=
    match s with
    | String "-" r => (true, r)
    | String "+" r => (false, r)
    | _ => (false, s)
    end in
  if int_body_ok false body
  then let v := digits_val 0 (remove_underscores body) in
       Some (if neg then - v else v)
  else None.

(** [re.search(p, s)]: the match of [m] at the leftmost position where it
    succeeds. *)
Fixpoint re_search {A} (m : string → option A) (s : string) : option A :=
  match m s with
  | Some r => Some r
  | None =>
      match s with
      | "" => None
      | String _ s' => re_search m s'
      end
  end.

(** Anchored match of [<pre>(\d+)]: the greedy digit run. *)
Definition match_num (pre : string) (s : string) : option string :=
  if String.prefix pre s then
    let '(ds, _) := span_digits (drop_prefix pre s) in
    if is_empty ds then None else Some ds
  else None.

(** Anchored match of [<pre>\((\d+)\)]: the digit run must be closed by a
    parenthesis, so only the greedy run can match. *)
Definition match_paren_num (pre : string) (s : string) : option string :=
  if String.prefix (pre +:+ "(") s then
    let '(ds, rest) := span_digits (drop_prefix (pre +:+ "(") s) in
    if negb (is_empty ds) && String.prefix ")" rest then Some ds else None
  else None.

(** Anchored match of [<pre>(\d)]: exactly one digit is captured. *)
Definition match_digit (pre : string) (s : string) : option string :=
  if String.prefix pre s then
    match drop_prefix pre s with
    | String c _ => if is_digit c then Some (String c "") else None
    | "" => None
    end
  else None.

End PyStr.

(** ** Data classes *)

(** A single PWM/motor/servo output pin. *)
Module OutputPin.
Record t := mk {
  number : Z;
  timer : string;
  timer_channel : string;
  gpio : option Z;
  complementary : bool;
  bidir : bool;
  pin : string
}.
End OutputPin.

(** Outputs sharing one timer. *)
Module OutputGroup.
Record t := mk {
  outputs : list Z;
  timer : string;
  capabilities : list string
}.
End OutputGroup.

(** A UART as it appears in SERIAL_ORDER. *)
Module UartDef.
Record t := mk {
  serial_index : Z;
  uart_name : string;
  has_tx : bool;
  has_rx : bool;
  rx_dma : bool;
  tx_dma : bool;
  is_usb : bool;
  is_empty : bool
}.
Definition set_serial_index (v : Z) (r : t) : t :=
  mk v (uart_name r) (has_tx r) (has_rx r) (rx_dma r) (tx_dma r) (is_usb r) (is_empty r).
Definition set_uart_name (v : string) (r : t) : t :=
  mk (serial_index r) v (has_tx r) (has_rx r) (rx_dma r) (tx_dma r) (is_usb r) (is_empty r).
Definition set_has_tx (v : bool) (r : t) : t :=
  mk (serial_index r) (uart_name r) v (has_rx r) (rx_dma r) (tx_dma r) (is_usb r) (is_empty r).
Definition set_has_rx (v : bool) (r : t) : t :=
  mk (serial_index r) (uart_name r) (has_tx r) v (rx_dma r) (tx_dma r) (is_usb r) (is_empty r).
Definition set_rx_dma (v : bool) (r : t) : t :=
  mk (serial_index r) (uart_name r) (has_tx r) (has_rx r) v (tx_dma r) (is_usb r) (is_empty r).
Definition set_tx_dma (v : bool) (r : t) : t :=
  mk (serial_index r) (uart_name r) (has_tx r) (has_rx r) (rx_dma r) v (is_usb r) (is_empty r).
Definition set_is_usb (v : bool) (r : t) : t :=
  mk (serial_index r) (uart_name r) (has_tx r) (has_rx r) (rx_dma r) (tx_dma r) v (is_empty r).
Definition set_is_empty (v : bool) (r : t) : t :=
  mk (serial_index r) (uart_name r) (has_tx r) (has_rx r) (rx_dma r) (tx_dma r) (is_usb r) v.
End UartDef.

(** Battery monitoring configuration.  The two floating-point fields hold the literal that [float] accepted. *)
Module BatteryMonitor.
Record t := mk {
  volt_pin : option Z;
  curr_pin : option Z;
  volt_mult : option string;
  amp_per_volt : option string
}.
Definition set_volt_pin (v : option Z) (r : t) : t :=
  mk v (curr_pin r) (volt_mult r) (amp_per_volt r).
Definition set_curr_pin (v : option Z) (r : t) : t :=
  mk (volt_pin r) v (volt_mult r) (amp_per_volt r).
Definition set_volt_mult (v : option string) (r : t) : t :=
  mk (volt_pin r) (curr_pin r) v (amp_per_volt r).
Definition set_amp_per_volt (v : option string) (r : t) : t :=
  mk (volt_pin r) (curr_pin r) (volt_mult r) v.
(** The dataclass defaults. *)
Definition default : t := mk None None None None.
End BatteryMonitor.

(** Sensors detected from SPIDEV lines and defines. *)
Module BuiltinSensors.
Record t := mk {
  imu : list string;
  barometer : list string;
  compass : list string;
  osd : option string;
  flash : option string;
  sdcard : bool
}.
Definition set_imu (v : list string) (r : t) : t :=
  mk v (barometer r) (compass r) (osd r) (flash r) (sdcard r).
Definition set_barometer (v : list string) (r : t) : t :=
  mk (imu r) v (compass r) (osd r) (flash r) (sdcard r).
Definition set_compass (v : list string) (r : t) : t :=
  mk (imu r) (barometer r) v (osd r) (flash r) (sdcard r).
Definition set_osd (v : option string) (r : t) : t :=
  mk (imu r) (barometer r) (compass r) v (flash r) (sdcard r).
Definition set_flash (v : option string) (r : t) : t :=
  mk (imu r) (barometer r) (compass r) (osd r) v (sdcard r).
Definition set_sdcard (v : bool) (r : t) : t :=
  mk (imu r) (barometer r) (compass r) (osd r) (flash r) v.
(** The dataclass defaults. *)
Definition default : t := mk [] [] [] None None false.
End BuiltinSensors.

(** Default RC input configuration. *)
Module RcInput.
Record t := mk {
  input_type : string;
  serial_index : option Z;
  pin : string;
  timer : string
}.
Definition set_input_type (v : string) (r : t) : t :=
  mk v (serial_index r) (pin r) (timer r).
Definition set_serial_index (v : option Z) (r : t) : t :=
  mk (input_type r) v (pin r) (timer r).
Definition set_pin (v : string) (r : t) : t :=
  mk (input_type r) (serial_index r) v (timer r).
Definition set_timer (v : string) (r : t) : t :=
  mk (input_type r) (serial_index r) (pin r) v.
(** The dataclass defaults. *)
Definition default : t := mk "" None "" "".
End RcInput.

(** One parsed SPIDEV line (a dict with these four keys in the source). *)
Module SpiDevice.
Record t := mk {
  name : string;
  bus : string;
  devid : string;
  cs : string
}.
End SpiDevice.

(** Complete parsed board definition. *)
Module BoardData.
Record t := mk {
  folder_name : string;
  board_name : string;
  apj_board_id : option Z;
  apj_board_id_name : string;
  mcu_class : string;
  mcu_type : string;
  flash_kb : Z;
  oscillator_hz : Z;
  serial_order : list string;
  uarts : list UartDef.t;
  i2c_order : list string;
  pwm_outputs : list OutputPin.t;
  output_groups : list OutputGroup.t;
  sensors : BuiltinSensors.t;
  spi_devices : list SpiDevice.t;
  battery : BatteryMonitor.t;
  rc_input : RcInput.t;
  has_buzzer : bool;
  buzzer_pin : string;
  has_led_strip : bool;
  led_pin : string;
  has_safety_switch : bool;
  can_interfaces : Z;
  dma_lines : list string;
  includes : list string;
  defines : gmap string string;
  header_comments : string;
  is_priority : bool;
  is_bootloader : bool;
  default_params : gmap string string
}.
Definition set_folder_name (v : string) (r : t) : t :=
  mk v (board_name r) (apj_board_id r) (apj_board_id_name r) (mcu_class r) (mcu_type r) (flash_kb r) (oscillator_hz r) (serial_order r) (uarts r) (i2c_order r) (pwm_outputs r) (output_groups r) (sensors r) (spi_devices r) (battery r) (rc_input r) (has_buzzer r) (buzzer_pin r) (has_led_strip r) (led_pin r) (has_safety_switch r) (can_interfaces r) (dma_lines r) (includes r) (defines r) (header_comments r) (is_priority r) (is_bootloader r) (default_params r).
Definition set_board_name (v : string) (r : t) : t :=
  mk (folder_name r) v (apj_board_id r) (apj_board_id_name r) (mcu_class r) (mcu_type r) (flash_kb r) (oscillator_hz r) (serial_order r) (uarts r) (i2c_order r) (pwm_outputs r) (output_groups r) (sensors r) (spi_devices r) (battery r) (rc_input r) (has_buzzer r) (buzzer_pin r) (has_led_strip r) (led_pin r) (has_safety_switch r) (can_interfaces r) (dma_lines r) (includes r) (defines r) (header_comments r) (is_priority r) (is_bootloader r) (default_params r).
Definition set_apj_board_id (v : option Z) (r : t) : t :=
  mk (folder_name r) (board_name r) v (apj_board_id_name r) (mcu_class r) (mcu_type r) (flash_kb r) (oscillator_hz r) (serial_order r) (uarts r) (i2c_order r) (pwm_outputs r) (output_groups r) (sensors r) (spi_devices r) (battery r) (rc_input r) (has_buzzer r) (buzzer_pin r) (has_led_strip r) (led_pin r) (has_safety_switch r) (can_interfaces r) (dma_lines r) (includes r) (defines r) (header_comments r) (is_priority r) (is_bootloader r) (default_params r).
Definition set_apj_board_id_name (v : string) (r : t) : t :=
  mk (folder_name r) (board_name r) (apj_board_id r) v (mcu_class r) (mcu_type r) (flash_kb r) (oscillator_hz r) (serial_order r) (uarts r) (i2c_order r) (pwm_outputs r) (output_groups r) (sensors r) (spi_devices r) (battery r) (rc_input r) (has_buzzer r) (buzzer_pin r) (has_led_strip r) (led_pin r) (has_safety_switch r) (can_interfaces r) (dma_lines r) (includes r) (defines r) (header_comments r) (is_priority r) (is_bootloader r) (default_params r).
Definition set_mcu_class (v : string) (r : t) : t :=
  mk (folder_name r) (board_name r) (apj_board_id r) (apj_board_id_name r) v (mcu_type r) (flash_kb r) (oscillator_hz r) (serial_order r) (uarts r) (i2c_order r) (pwm_outputs r) (output_groups r) (sensors r) (spi_devices r) (battery r) (rc_input r) (has_buzzer r) (buzzer_pin r) (has_led_strip r) (led_pin r) (has_safety_switch r) (can_interfaces r) (dma_lines r) (includes r) (defines r) (header_comments r) (is_priority r) (is_bootloader r) (default_params r).
Definition set_mcu_type (v : string) (r : t) : t :=
  mk (folder_name r) (board_name r) (apj_board_id r) (apj_board_id_name r) (mcu_class r) v (flash_kb r) (oscillator_hz r) (serial_order r) (uarts r) (i2c_order r) (pwm_outputs r) (output_groups r) (sensors r) (spi_devices r) (battery r) (rc_input r) (has_buzzer r) (buzzer_pin r) (has_led_strip r) (led_pin r) (has_safety_switch r) (can_interfaces r) (dma_lines r) (includes r) (defines r) (header_comments r) (is_priority r) (is_bootloader r) (default_params r).
Definition set_flash_kb (v : Z) (r : t) : t :=
  mk (folder_name r) (board_name r) (apj_board_id r) (apj_board_id_name r) (mcu_class r) (mcu_type r) v (oscillator_hz r) (serial_order r) (uarts r) (i2c_order r) (pwm_outputs r) (output_groups r) (sensors r) (spi_devices r) (battery r) (rc_input r) (has_buzzer r) (buzzer_pin r) (has_led_strip r) (led_pin r) (has_safety_switch r) (can_interfaces r) (dma_lines r) (includes r) (defines r) (header_comments r) (is_priority r) (is_bootloader r) (default_params r).
Definition set_oscillator_hz (v : Z) (r : t) : t :=
  mk (folder_name r) (board_name r) (apj_board_id r) (apj_board_id_name r) (mcu_class r) (mcu_type r) (flash_kb r) v (serial_order r) (uarts r) (i2c_order r) (pwm_outputs r) (output_groups r) (sensors r) (spi_devices r) (battery r) (rc_input r) (has_buzzer r) (buzzer_pin r) (has_led_strip r) (led_pin r) (has_safety_switch r) (can_interfaces r) (dma_lines r) (includes r) (defines r) (header_comments r) (is_priority r) (is_bootloader r) (default_params r).
Definition set_serial_order (v : list string) (r : t) : t :=
  mk (folder_name r) (board_name r) (apj_board_id r) (apj_board_id_name r) (mcu_class r) (mcu_type r) (flash_kb r) (oscillator_hz r) v (uarts r) (i2c_order r) (pwm_outputs r) (output_groups r) (sensors r) (spi_devices r) (battery r) (rc_input r) (has_buzzer r) (buzzer_pin r) (has_led_strip r) (led_pin r) (has_safety_switch r) (can_interfaces r) (dma_lines r) (includes r) (defines r) (header_comments r) (is_priority r) (is_bootloader r) (default_params r).
Definition set_uarts (v : list UartDef.t) (r : t) : t :=
  mk (folder_name r) (board_name r) (apj_board_id r) (apj_board_id_name r) (mcu_class r) (mcu_type r) (flash_kb r) (oscillator_hz r) (serial_order r) v (i2c_order r) (pwm_outputs r) (output_groups r) (sensors r) (spi_devices r) (battery r) (rc_input r) (has_buzzer r) (buzzer_pin r) (has_led_strip r) (led_pin r) (has_safety_switch r) (can_interfaces r) (dma_lines r) (includes r) (defines r) (header_comments r) (is_priority r) (is_bootloader r) (default_params r).
Definition set_i2c_order (v : list string) (r : t) : t :=
  mk (folder_name r) (board_name r) (apj_board_id r) (apj_board_id_name r) (mcu_class r) (mcu_type r) (flash_kb r) (oscillator_hz r) (serial_order r) (uarts r) v (pwm_outputs r) (output_groups r) (sensors r) (spi_devices r) (battery r) (rc_input r) (has_buzzer r) (buzzer_pin r) (has_led_strip r) (led_pin r) (has_safety_switch r) (can_interfaces r) (dma_lines r) (includes r) (defines r) (header_comments r) (is_priority r) (is_bootloader r) (default_params r).
Definition set_pwm_outputs (v : list OutputPin.t) (r : t) : t :=
  mk (folder_name r) (board_name r) (apj_board_id r) (apj_board_id_name r) (mcu_class r) (mcu_type r) (flash_kb r) (oscillator_hz r) (serial_order r) (uarts r) (i2c_order r) v (output_groups r) (sensors r) (spi_devices r) (battery r) (rc_input r) (has_buzzer r) (buzzer_pin r) (has_led_strip r) (led_pin r) (has_safety_switch r) (can_interfaces r) (dma_lines r) (includes r) (defines r) (header_comments r) (is_priority r) (is_bootloader r) (default_params r).
Definition set_output_groups (v : list OutputGroup.t) (r : t) : t :=
  mk (folder_name r) (board_name r) (apj_board_id r) (apj_board_id_name r) (mcu_class r) (mcu_type r) (flash_kb r) (oscillator_hz r) (serial_order r) (uarts r) (i2c_order r) (pwm_outputs r) v (sensors r) (spi_devices r) (battery r) (rc_input r) (has_buzzer r) (buzzer_pin r) (has_led_strip r) (led_pin r) (has_safety_switch r) (can_interfaces r) (dma_lines r) (includes r) (defines r) (header_comments r) (is_priority r) (is_bootloader r) (default_params r).
Definition set_sensors (v : BuiltinSensors.t) (r : t) : t :=
  mk (folder_name r) (board_name r) (apj_board_id r) (apj_board_id_name r) (mcu_class r) (mcu_type r) (flash_kb r) (oscillator_hz r) (serial_order r) (uarts r) (i2c_order r) (pwm_outputs r) (output_groups r) v (spi_devices r) (battery r) (rc_input r) (has_buzzer r) (buzzer_pin r) (has_led_strip r) (led_pin r) (has_safety_switch r) (can_interfaces r) (dma_lines r) (includes r) (defines r) (header_comments r) (is_priority r) (is_bootloader r) (default_params r).
Definition set_spi_devices (v : list SpiDevice.t) (r : t) : t :=
  mk (folder_name r) (board_name r) (apj_board_id r) (apj_board_id_name r) (mcu_class r) (mcu_type r) (flash_kb r) (oscillator_hz r) (serial_order r) (uarts r) (i2c_order r) (pwm_outputs r) (output_groups r) (sensors r) v (battery r) (rc_input r) (has_buzzer r) (buzzer_pin r) (has_led_strip r) (led_pin r) (has_safety_switch r) (can_interfaces r) (dma_lines r) (includes r) (defines r) (header_comments r) (is_priority r) (is_bootloader r) (default_params r).
Definition set_battery (v : BatteryMonitor.t) (r : t) : t :=
  mk (folder_name r) (board_name r) (apj_board_id r) (apj_board_id_name r) (mcu_class r) (mcu_type r) (flash_kb r) (oscillator_hz r) (serial_order r) (uarts r) (i2c_order r) (pwm_outputs r) (output_groups r) (sensors r) (spi_devices r) v (rc_input r) (has_buzzer r) (buzzer_pin r) (has_led_strip r) (led_pin r) (has_safety_switch r) (can_interfaces r) (dma_lines r) (includes r) (defines r) (header_comments r) (is_priority r) (is_bootloader r) (default_params r).
Definition set_rc_input (v : RcInput.t) (r : t) : t :=
  mk (folder_name r) (board_name r) (apj_board_id r) (apj_board_id_name r) (mcu_class r) (mcu_type r) (flash_kb r) (oscillator_hz r) (serial_order r) (uarts r) (i2c_order r) (pwm_outputs r) (output_groups r) (sensors r) (spi_devices r) (battery r) v (has_buzzer r) (buzzer_pin r) (has_led_strip r) (led_pin r) (has_safety_switch r) (can_interfaces r) (dma_lines r) (includes r) (defines r) (header_comments r) (is_priority r) (is_bootloader r) (default_params r).
Definition set_has_buzzer (v : bool) (r : t) : t :=
  mk (folder_name r) (board_name r) (apj_board_id r) (apj_board_id_name r) (mcu_class r) (mcu_type r) (flash_kb r) (oscillator_hz r) (serial_order r) (uarts r) (i2c_order r) (pwm_outputs r) (output_groups r) (sensors r) (spi_devices r) (battery r) (rc_input r) v (buzzer_pin r) (has_led_strip r) (led_pin r) (has_safety_switch r) (can_interfaces r) (dma_lines r) (includes r) (defines r) (header_comments r) (is_priority r) (is_bootloader r) (default_params r).
Definition set_buzzer_pin (v : string) (r : t) : t :=
  mk (folder_name r) (board_name r) (apj_board_id r) (apj_board_id_name r) (mcu_class r) (mcu_type r) (flash_kb r) (oscillator_hz r) (serial_order r) (uarts r) (i2c_order r) (pwm_outputs r) (output_groups r) (sensors r) (spi_devices r) (battery r) (rc_input r) (has_buzzer r) v (has_led_strip r) (led_pin r) (has_safety_switch r) (can_interfaces r) (dma_lines r) (includes r) (defines r) (header_comments r) (is_priority r) (is_bootloader r) (default_params r).
Definition set_has_led_strip (v : bool) (r : t) : t :=
  mk (folder_name r) (board_name r) (apj_board_id r) (apj_board_id_name r) (mcu_class r) (mcu_type r) (flash_kb r) (oscillator_hz r) (serial_order r) (uarts r) (i2c_order r) (pwm_outputs r) (output_groups r) (sensors r) (spi_devices r) (battery r) (rc_input r) (has_buzzer r) (buzzer_pin r) v (led_pin r) (has_safety_switch r) (can_interfaces r) (dma_lines r) (includes r) (defines r) (header_comments r) (is_priority r) (is_bootloader r) (default_params r).
Definition set_led_pin (v : string) (r : t) : t :=
  mk (folder_name r) (board_name r) (apj_board_id r) (apj_board_id_name r) (mcu_class r) (mcu_type r) (flash_kb r) (oscillator_hz r) (serial_order r) (uarts r) (i2c_order r) (pwm_outputs r) (output_groups r) (sensors r) (spi_devices r) (battery r) (rc_input r) (has_buzzer r) (buzzer_pin r) (has_led_strip r) v (has_safety_switch r) (can_interfaces r) (dma_lines r) (includes r) (defines r) (header_comments r) (is_priority r) (is_bootloader r) (default_params r).
Definition set_has_safety_switch (v : bool) (r : t) : t :=
  mk (folder_name r) (board_name r) (apj_board_id r) (apj_board_id_name r) (mcu_class r) (mcu_type r) (flash_kb r) (oscillator_hz r) (serial_order r) (uarts r) (i2c_order r) (pwm_outputs r) (output_groups r) (sensors r) (spi_devices r) (battery r) (rc_input r) (has_buzzer r) (buzzer_pin r) (has_led_strip r) (led_pin r) v (can_interfaces r) (dma_lines r) (includes r) (defines r) (header_comments r) (is_priority r) (is_bootloader r) (default_params r).
Definition set_can_interfaces (v : Z) (r : t) : t :=
  mk (folder_name r) (board_name r) (apj_board_id r) (apj_board_id_name r) (mcu_class r) (mcu_type r) (flash_kb r) (oscillator_hz r) (serial_order r) (uarts r) (i2c_order r) (pwm_outputs r) (output_groups r) (sensors r) (spi_devices r) (battery r) (rc_input r) (has_buzzer r) (buzzer_pin r) (has_led_strip r) (led_pin r) (has_safety_switch r) v (dma_lines r) (includes r) (defines r) (header_comments r) (is_priority r) (is_bootloader r) (default_params r).
Definition set_dma_lines (v : list string) (r : t) : t :=
  mk (folder_name r) (board_name r) (apj_board_id r) (apj_board_id_name r) (mcu_class r) (mcu_type r) (flash_kb r) (oscillator_hz r) (serial_order r) (uarts r) (i2c_order r) (pwm_outputs r) (output_groups r) (sensors r) (spi_devices r) (battery r) (rc_input r) (has_buzzer r) (buzzer_pin r) (has_led_strip r) (led_pin r) (has_safety_switch r) (can_interfaces r) v (includes r) (defines r) (header_comments r) (is_priority r) (is_bootloader r) (default_params r).
Definition set_includes (v : list string) (r : t) : t :=
  mk (folder_name r) (board_name r) (apj_board_id r) (apj_board_id_name r) (mcu_class r) (mcu_type r) (flash_kb r) (oscillator_hz r) (serial_order r) (uarts r) (i2c_order r) (pwm_outputs r) (output_groups r) (sensors r) (spi_devices r) (battery r) (rc_input r) (has_buzzer r) (buzzer_pin r) (has_led_strip r) (led_pin r) (has_safety_switch r) (can_interfaces r) (dma_lines r) v (defines r) (header_comments r) (is_priority r) (is_bootloader r) (default_params r).
Definition set_defines (v : gmap string string) (r : t) : t :=
  mk (folder_name r) (board_name r) (apj_board_id r) (apj_board_id_name r) (mcu_class r) (mcu_type r) (flash_kb r) (oscillator_hz r) (serial_order r) (uarts r) (i2c_order r) (pwm_outputs r) (output_groups r) (sensors r) (spi_devices r) (battery r) (rc_input r) (has_buzzer r) (buzzer_pin r) (has_led_strip r) (led_pin r) (has_safety_switch r) (can_interfaces r) (dma_lines r) (includes r) v (header_comments r) (is_priority r) (is_bootloader r) (default_params r).
Definition set_header_comments (v : string) (r : t) : t :=
  mk (folder_name r) (board_name r) (apj_board_id r) (apj_board_id_name r) (mcu_class r) (mcu_type r) (flash_kb r) (oscillator_hz r) (serial_order r) (uarts r) (i2c_order r) (pwm_outputs r) (output_groups r) (sensors r) (spi_devices r) (battery r) (rc_input r) (has_buzzer r) (buzzer_pin r) (has_led_strip r) (led_pin r) (has_safety_switch r) (can_interfaces r) (dma_lines r) (includes r) (defines r) v (is_priority r) (is_bootloader r) (default_params r).
Definition set_is_priority (v : bool) (r : t) : t :=
  mk (folder_name r) (board_name r) (apj_board_id r) (apj_board_id_name r) (mcu_class r) (mcu_type r) (flash_kb r) (oscillator_hz r) (serial_order r) (uarts r) (i2c_order r) (pwm_outputs r) (output_groups r) (sensors r) (spi_devices r) (battery r) (rc_input r) (has_buzzer r) (buzzer_pin r) (has_led_strip r) (led_pin r) (has_safety_switch r) (can_interfaces r) (dma_lines r) (includes r) (defines r) (header_comments r) v (is_bootloader r) (default_params r).
Definition set_is_bootloader (v : bool) (r : t) : t :=
  mk (folder_name r) (board_name r) (apj_board_id r) (apj_board_id_name r) (mcu_class r) (mcu_type r) (flash_kb r) (oscillator_hz r) (serial_order r) (uarts r) (i2c_order r) (pwm_outputs r) (output_groups r) (sensors r) (spi_devices r) (battery r) (rc_input r) (has_buzzer r) (buzzer_pin r) (has_led_strip r) (led_pin r) (has_safety_switch r) (can_interfaces r) (dma_lines r) (includes r) (defines r) (header_comments r) (is_priority r) v (default_params r).
Definition set_default_params (v : gmap string string) (r : t) : t :=
  mk (folder_name r) (board_name r) (apj_board_id r) (apj_board_id_name r) (mcu_class r) (mcu_type r) (flash_kb r) (oscillator_hz r) (serial_order r) (uarts r) (i2c_order r) (pwm_outputs r) (output_groups r) (sensors r) (spi_devices r) (battery r) (rc_input r) (has_buzzer r) (buzzer_pin r) (has_led_strip r) (led_pin r) (has_safety_switch r) (can_interfaces r) (dma_lines r) (includes r) (defines r) (header_comments r) (is_priority r) (is_bootloader r) v.
(** The dataclass defaults. *)
Definition default : t :=
  mk "" "" None "" "" "" 0 0 [] [] [] [] [] BuiltinSensors.default []
     BatteryMonitor.default RcInput.default false "" false "" false 0 [] [] ∅ ""
     false false ∅.
End BoardData.

(** ** Configuration tables *)

Definition PRIORITY_BOARDS : list string :=
  [ "fmuv3"; "fmuv5"; "fmuv6x"; "fmuv6c";
    "CubeBlack"; "CubeOrange"; "CubeOrangePlus";
    "Pixhawk1"; "Pixhawk6X"; "Pixhawk6C";
    "MatekF405-Wing"; "MatekH743"; "MatekF405-TE";
    "MatekH743-Mini"; "MatekH743-Slim"; "MatekF405-STD"; "MatekF765-Wing";
    "KakuteF4"; "KakuteF7"; "KakuteH7"; "KakuteH7Mini"; "KakuteH7-Wing";
    "SpeedyBeeF405v3"; "SpeedyBeeF405v4"; "SpeedyBeeF405Wing"; "SpeedyBeeF405Mini";
    "JHEMCU-GSF405A"; "JHEMCU-GF16-F405";
    "FoxeerF745V2"; "FoxeerReaperF745AIO";
    "mRoControlZeroH7";
    "BlitzF745AIO";
    "omnibusf4pro";
    "MambaF405v2"; "MambaH743v4";
    "FlywooF745"; "FlywooF405S-AIO";
    "BetaFPV-F405"; "BetaFPV-F745";
    "NxtPX4v2";
    "Pixhawk4";
    "mRoPixracerPro" ].

(** The known chip names.  In the source these are Python sets: the lists
    below give their elements; the order in which a [for] loop visits them
    is fixed by the interpreter and is a parameter of the sensor detector. *)
Definition KNOWN_IMU_CHIPS : list string :=
  [ "mpu6000"; "mpu6500"; "mpu9250";
    "icm20602"; "icm20608"; "icm20689"; "icm20948";
    "icm40609"; "icm42605"; "icm42670"; "icm42688";
    "icm45686";
    "bmi055"; "bmi088"; "bmi270";
    "lsm9ds1"; "lsm6dsl"; "lsm6dsrx";
    "adis16470"; "adis16507";
    "iam20680";
    "iim42652";
    "qmc5883l" ].

Definition KNOWN_BARO_CHIPS : list string :=
  [ "bmp280"; "bmp388"; "bmp390"; "bmp581";
    "dps310";
    "ms5611"; "ms5607";
    "spl06";
    "icp101xx"; "icp201xx";
    "lps22h"; "lps25h";
    "2smpb" ].

Definition KNOWN_COMPASS_CHIPS : list string :=
  [ "ist8310"; "ist8308";
    "hmc5843"; "hmc5883"; "hmc5883l";
    "qmc5883l"; "qmc5883";
    "lis3mdl";
    "ak8963"; "ak09916";
    "rm3100";
    "mmc3416"; "mmc5603"; "mmc5983";
    "bmm150"; "bmm350" ].

Definition KNOWN_OSD_CHIPS : list string :=
  [ "max7456"; "at7456e"; "at7456" ].

Definition KNOWN_FLASH_CHIPS : list string :=
  [ "w25q128"; "w25q256"; "w25q64"; "w25q32"; "w25q16";
    "w25n01g"; "w25n02g"; "w25n512g";
    "m25p16";
    "gd25q16"; "gd25q32"; "gd25q64";
    "at25sf161";
    "is25lp016d" ].

(** Iteration orders of the five chip sets. *)
Record ChipOrders := {
  imu_order : list string;
  baro_order : list string;
  compass_order : list string;
  osd_order : list string;
  flash_order : list string
}.

(** An iteration order visits exactly the elements of its set. *)
Definition orders_ok (o : ChipOrders) : Prop :=
  imu_order o ≡ₚ KNOWN_IMU_CHIPS ∧
  baro_order o ≡ₚ KNOWN_BARO_CHIPS ∧
  compass_order o ≡ₚ KNOWN_COMPASS_CHIPS ∧
  osd_order o ≡ₚ KNOWN_OSD_CHIPS ∧
  flash_order o ≡ₚ KNOWN_FLASH_CHIPS.

Definition source_orders : ChipOrders :=
  {| imu_order := KNOWN_IMU_CHIPS; baro_order := KNOWN_BARO_CHIPS;
     compass_order := KNOWN_COMPASS_CHIPS; osd_order := KNOWN_OSD_CHIPS;
     flash_order := KNOWN_FLASH_CHIPS |}.

(** ** The parser *)

(** [parts[i]], read only where the source has checked the length. *)
Definition token (parts : list string) (i : nat) : string := nth i parts "".

Definition newline : string := String "010" "".

Section HwdefParser.

(** [self.board_ids]: symbolic board name to numeric id. *)
Variable board_ids : gmap string Z.
(** Whether [float(s)] succeeds on [s]. *)
Variable float_ok : string → bool.
Variable orders : ChipOrders.

(** One entry of SERIAL_ORDER. *)
Definition make_uart (i : nat) (uart_name : string) : UartDef.t :=
  UartDef.mk (Z.of_nat i) uart_name true true false false
    (PyStr.startswith "OTG" uart_name || String.eqb uart_name "USB")
    (String.eqb uart_name "EMPTY").

(** The complementary-output test on the last [_]-separated part of the
    timer channel. *)
Definition is_complementary (timer_ch : string) : bool :=
  let seg := List.last (PyStr.split_on "_" timer_ch) "" in
  PyStr.contains "N" seg && PyStr.last_char_is "N" seg.

(** The typed side effects of the [define] branch, one definition per
    statement of the source, in its order. *)
Definition define_buzzer (define_name : string) (board : BoardData.t) : BoardData.t :=
  if String.eqb define_name "HAL_BUZZER_PIN"
  then BoardData.set_has_buzzer true board else board.

Definition define_battery (define_name define_val : string) (board : BoardData.t)
    : BoardData.t :=
  if String.eqb define_name "HAL_BATT_VOLT_PIN" then
    match PyStr.int define_val with
    | Some n =>
        BoardData.set_battery
          (BatteryMonitor.set_volt_pin (Some n) (BoardData.battery board)) board
    | None => board
    end
  else if String.eqb define_name "HAL_BATT_CURR_PIN" then
    match PyStr.int define_val with
    | Some n =>
        BoardData.set_battery
          (BatteryMonitor.set_curr_pin (Some n) (BoardData.battery board)) board
    | None => board
    end
  else if String.eqb define_name "HAL_BATT_VOLT_SCALE" then
    if float_ok define_val
    then BoardData.set_battery
           (BatteryMonitor.set_volt_mult (Some define_val) (BoardData.battery board)) board
    else board
  else if String.eqb define_name "HAL_BATT_CURR_SCALE" then
    if float_ok define_val
    then BoardData.set_battery
           (BatteryMonitor.set_amp_per_volt (Some define_val) (BoardData.battery board)) board
    else board
  else board.

Definition define_safety (define_name define_val : string) (board : BoardData.t)
    : BoardData.t :=
  if String.eqb define_name "HAL_HAVE_SAFETY_SWITCH"
     && String.eqb (PyStr.strip define_val) "1"
  then BoardData.set_has_safety_switch true board else board.

Definition define_can (define_name define_val : string) (board : BoardData.t)
    : BoardData.t :=
  if String.eqb define_name "HAL_NUM_CAN_IFACES" then
    match PyStr.int define_val with
    | Some n => BoardData.set_can_interfaces n board
    | None => board
    end
  else board.

Definition define_board_name (define_name define_val : string) (board : BoardData.t)
    : BoardData.t :=
  if String.eqb define_name "CHIBIOS_SHORT_BOARD_NAME"
  then BoardData.set_board_name (PyStr.strip_by (Ascii.eqb "034") define_val) board
  else board.

Definition define_led_strip (define_name : string) (board : BoardData.t) : BoardData.t :=
  if String.eqb define_name "HAL_LED_STRIP_PIN"
     || String.eqb define_name "AP_NOTIFY_NEOPIXEL_PIN"
  then BoardData.set_has_led_strip true board else board.

Definition define_osd (define_name define_val : string) (board : BoardData.t)
    : BoardData.t :=
  if String.eqb define_name "HAL_OSD_TYPE_DEFAULT"
     && String.eqb (PyStr.strip define_val) "1"
  then BoardData.set_sensors
         (BuiltinSensors.set_osd (Some "MAX7456") (BoardData.sensors board)) board
  else board.

Definition define_sdcard (define_name define_val : string) (board : BoardData.t)
    : BoardData.t :=
  if String.eqb define_name "HAL_OS_FATFS_IO"
     && String.eqb (PyStr.strip define_val) "1"
  then BoardData.set_sensors
         (BuiltinSensors.set_sdcard true (BoardData.sensors board)) board
  else board.

(** The body of the [define] branch. *)
Definition process_define (board : BoardData.t) (parts : list string) : BoardData.t :=
  let define_name := token parts 1 in
  let define_val := PyStr.join " " (drop 2 parts) in
  let board :=
    BoardData.set_defines (<[define_name := define_val]> (BoardData.defines board)) board in
  let board := define_buzzer define_name board in
  let board := define_battery define_name define_val board in
  let board := define_safety define_name define_val board in
  let board := define_can define_name define_val board in
  let board := define_board_name define_name define_val board in
  let board := define_led_strip define_name board in
  let board := define_osd define_name define_val board in
  define_sdcard define_name define_val board.

(** The condition of the CAN branch, with Python's precedence:
    [(startswith('CAN') and '_RX' in keyword) or '_TX' in keyword]. *)
Definition is_can_keyword (keyword : string) : bool :=
  (PyStr.startswith "CAN" keyword && PyStr.contains "_RX" keyword)
  || PyStr.contains "_TX" keyword.

(** [_process_line]: one directive.  [parts] is [line.split()] and is not
    empty. *)
Definition process_line (board : BoardData.t) (parts : list string)
    (line : string) (undefs : gset string) : BoardData.t :=
  let keyword := token parts 0 in
  if String.eqb keyword "MCU" && (3 <=? length parts)%nat then
    BoardData.set_mcu_type (token parts 2) (BoardData.set_mcu_class (token parts 1) board)
  else if String.eqb keyword "APJ_BOARD_ID" then
    if (2 <=? length parts)%nat then
      let board := BoardData.set_apj_board_id_name (token parts 1) board in
      match PyStr.int (token parts 1) with
      | Some n => BoardData.set_apj_board_id (Some n) board
      | None =>
          match board_ids !! token parts 1 with
          | Some n => BoardData.set_apj_board_id (Some n) board
          | None => board
          end
      end
    else board
  else if String.eqb keyword "FLASH_SIZE_KB" && (2 <=? length parts)%nat then
    match PyStr.int (token parts 1) with
    | Some n => BoardData.set_flash_kb n board
    | None => board
    end
  else if String.eqb keyword "OSCILLATOR_HZ" && (2 <=? length parts)%nat then
    match PyStr.int (token parts 1) with
    | Some n => BoardData.set_oscillator_hz n board
    | None => board
    end
  else if String.eqb keyword "SERIAL_ORDER" then
    BoardData.set_uarts (imap make_uart (drop 1 parts))
      (BoardData.set_serial_order (drop 1 parts) board)
  else if String.eqb keyword "I2C_ORDER" then
    BoardData.set_i2c_order (drop 1 parts) board
  else if (4 <=? length parts)%nat && PyStr.contains "PWM(" line then
    match PyStr.re_search (PyStr.match_paren_num "PWM") line with
    | Some ds =>
        let gpio_match := PyStr.re_search (PyStr.match_paren_num "GPIO") line in
        let out :=
          OutputPin.mk (PyStr.digits_val 0 ds) (token parts 2) (token parts 1)
            (PyStr.digits_val 0 <$> gpio_match)
            (is_complementary (token parts 1))
            (PyStr.contains "BIDIR" line)
            (token parts 0) in
        BoardData.set_pwm_outputs (BoardData.pwm_outputs board ++ [out]) board
    | None => board
    end
  else if String.eqb keyword "SPIDEV" && (4 <=? length parts)%nat then
    let dev :=
      SpiDevice.mk (PyStr.lower (token parts 1)) (token parts 2)
        (token parts 3) (token parts 4) in
    BoardData.set_spi_devices (BoardData.spi_devices board ++ [dev]) board
  else if PyStr.contains "BUZZER" keyword && PyStr.contains "OUTPUT" line then
    BoardData.set_buzzer_pin (token parts 0) (BoardData.set_has_buzzer true board)
  else if String.eqb keyword "define" && (3 <=? length parts)%nat then
    process_define board parts
  else if String.eqb keyword "SDIO" || String.eqb keyword "SDMMC" then
    BoardData.set_sensors (BuiltinSensors.set_sdcard true (BoardData.sensors board)) board
  else if is_can_keyword keyword then
    if bool_decide (keyword ∈ undefs) then board
    else
      match PyStr.re_search (PyStr.match_digit "CAN") keyword with
      | Some d =>
          BoardData.set_can_interfaces
            (Z.max (BoardData.can_interfaces board) (PyStr.digits_val 0 d)) board
      | None => board
      end
  else if String.eqb keyword "DMA_PRIORITY" || String.eqb keyword "DMA_NOSHARE" then
    BoardData.set_dma_lines (BoardData.dma_lines board ++ [line]) board
  else if PyStr.contains "LED" keyword && PyStr.contains "TIM" line
          && negb (PyStr.contains "PWM" line) then
    if PyStr.contains "NEOPIXEL" line || PyStr.contains "LED_STRIP" line
    then BoardData.set_led_pin (token parts 0) (BoardData.set_has_led_strip true board)
    else board
  else if String.eqb keyword "include" then
    BoardData.set_includes
      (BoardData.includes board ++ [if (1 <? length parts)%nat then token parts 1 else ""])
      board
  else if PyStr.contains "BAT_VOLT" line || PyStr.contains "BATT_VOLTAGE" line then
    board
  else if PyStr.contains "BAT_CURR" line || PyStr.contains "BATT_CURRENT" line then
    board
  else if (2 <=? length parts)%nat
          && (PyStr.contains "NEOPIXEL" (token parts 0)
              || PyStr.contains "neopixel" (PyStr.lower line)) then
    BoardData.set_led_pin (token parts 0) (BoardData.set_has_led_strip true board)
  else board.

(** Lines the passes skip: empty or comment. *)
Definition is_skipped (line : string) : bool :=
  PyStr.is_empty line || PyStr.startswith "#" line.

(** [line.split(None, 1)[1].strip()]; [None] stands for the [IndexError]
    raised when nothing follows the first word. *)
Definition undef_name (line : string) : option string :=
  PyStr.strip <$> (PyStr.split_max1 line !! 1%nat).

(** One iteration of the directive loop of [parse_board], on the board and
    the set of undefs. *)
Definition process_step (st : BoardData.t * gset string) (line : string)
    : option (BoardData.t * gset string) :=
  if is_skipped line then Some st
  else if PyStr.startswith "undef " line then
    name ← undef_name line; Some (st.1, {[name]} ∪ st.2)
  else
    let parts := PyStr.split line in
    match parts with
    | [] => Some st
    | _ => Some (process_line st.1 parts line st.2, st.2)
    end.

Fixpoint process_lines (st : BoardData.t * gset string) (lines : list string)
    : option (BoardData.t * gset string) :=
  match lines with
  | [] => Some st
  | line :: rest => st' ← process_step st line; process_lines st' rest
  end.

(** The leading comment block. *)
Fixpoint header_lines (lines : list string) : list string :=
  match lines with
  | [] => []
  | line :: rest =>
      if PyStr.startswith "#" line
      then PyStr.strip (PyStr.lstrip_by (Ascii.eqb "#") line) :: header_lines rest
      else if negb (PyStr.is_empty line) then []
      else header_lines rest
  end.

Definition header_of (lines : list string) : string :=
  PyStr.join newline (take 10 (header_lines lines)).

(** *** Output groups *)

(** [timer_groups.setdefault(k, []).append(v)] on a dictionary kept in
    insertion order. *)
Fixpoint setdefault_append (k : string) (v : OutputPin.t)
    (d : list (string * list OutputPin.t)) : list (string * list OutputPin.t) :=
  match d with
  | [] => [(k, [v])]
  | (k', vs) :: d' =>
      if String.eqb k k' then (k', (vs ++ [v])%list) :: d'
      else (k', vs) :: setdefault_append k v d'
  end.

Definition timer_groups (outs : list OutputPin.t) : list (string * list OutputPin.t) :=
  fold_left (λ d out, setdefault_append (OutputPin.timer out) out d) outs [].

(** Order of [outputs.sort(key=lambda o: o.number)]. *)
Definition number_le (a b : OutputPin.t) : Prop :=
  OutputPin.number a ≤ OutputPin.number b.

(** Order of [sorted(timer_groups.items())]; the keys are distinct, so the
    comparison of the tuples is decided by the timer names. *)
Definition timer_key_le (a b : string * list OutputPin.t) : Prop :=
  String.le a.1 b.1.

#[global] Instance number_le_dec : RelDecision number_le.
Proof. intros a b. unfold number_le. apply _. Defined.

#[global] Instance timer_key_le_dec : RelDecision timer_key_le.
Proof. intros a b. unfold timer_key_le. apply _. Defined.

(** The number captured by [re.search(r'TIM(\d+)', timer)]. *)
Definition timer_num (timer : string) : option Z :=
  PyStr.digits_val 0 <$> PyStr.re_search (PyStr.match_num "TIM") timer.

Definition timer_caps (timer : string) (outputs : list OutputPin.t) : list string :=
  ["PWM"] ++
  match timer_num timer with
  | Some n =>
      if n <=? 8
      then ["DShot"] ++ (if existsb OutputPin.bidir outputs then ["BDShot"] else [])
      else []
  | None => []
  end.

Definition make_group (item : string * list OutputPin.t) : OutputGroup.t :=
  let outputs := merge_sort number_le item.2 in
  OutputGroup.mk (OutputPin.number <$> outputs) item.1 (timer_caps item.1 outputs).

Definition output_groups_of (outs : list OutputPin.t) : list OutputGroup.t :=
  make_group <$> merge_sort timer_key_le (timer_groups outs).

(** [_compute_output_groups] *)
Definition compute_output_groups (board : BoardData.t) : BoardData.t :=
  BoardData.set_output_groups
    (BoardData.output_groups board ++ output_groups_of (BoardData.pwm_outputs board))
    board.

(** *** Sensors *)

(** [for chip in CHIPS: if chip in name: ...; break]: the chip the loop
    stops at. *)
Definition first_chip (order : list string) (name : string) : option string :=
  List.find (λ chip, PyStr.contains chip name) order.

(** A category list takes the upper-cased chip unless it has it already. *)
Definition absorb (lst : list string) (m : option string) : list string :=
  match m with
  | Some chip =>
      let pretty := PyStr.upper chip in
      if bool_decide (pretty ∈ lst) then lst else lst ++ [pretty]
  | None => lst
  end.

Definition overwrite (cur : option string) (m : option string) : option string :=
  match m with
  | Some chip => Some (PyStr.upper chip)
  | None => cur
  end.

Definition detect_device (s : BuiltinSensors.t) (dev : SpiDevice.t) : BuiltinSensors.t :=
  let name := PyStr.lower (SpiDevice.name dev) in
  let s := BuiltinSensors.set_imu
             (absorb (BuiltinSensors.imu s) (first_chip (imu_order orders) name)) s in
  let s := BuiltinSensors.set_barometer
             (absorb (BuiltinSensors.barometer s) (first_chip (baro_order orders) name)) s in
  let s := BuiltinSensors.set_compass
             (absorb (BuiltinSensors.compass s) (first_chip (compass_order orders) name)) s in
  let s := BuiltinSensors.set_osd
             (overwrite (BuiltinSensors.osd s) (first_chip (osd_order orders) name)) s in
  let s := BuiltinSensors.set_flash
             (overwrite (BuiltinSensors.flash s) (first_chip (flash_order orders) name)) s in
  if PyStr.contains "sdcard" name || PyStr.contains "sd_card" name
  then BuiltinSensors.set_sdcard true s else s.

(** [_detect_sensors] *)
Definition detect_sensors (board : BoardData.t) : BoardData.t :=
  BoardData.set_sensors
    (fold_left detect_device (BoardData.spi_devices board) (BoardData.sensors board))
    board.

(** *** RC input *)

(** The loop of [_detect_rc_input]: the configuration built at the first
    line that reaches a [break]. *)
Fixpoint rc_scan (lines : list string) : option RcInput.t :=
  match lines with
  | [] => None
  | line :: rest =>
      if is_skipped line then rc_scan rest
      else
        let parts := PyStr.split line in
        if PyStr.contains "RCIN" line && PyStr.contains "TIM" line
           && (3 <=? length parts)%nat
        then Some (RcInput.mk "timer" None (token parts 0) (token parts 2))
        else if PyStr.contains "RCIN" line
                && (PyStr.contains "USART" line || PyStr.contains "UART" line)
        then Some (RcInput.mk "uart" None (token parts 0) "")
        else rc_scan rest
  end.

(** [board.defines.get('HAL_SERIAL_INPUT_ENABLED', '') == '1'] *)
Definition serial_input_enabled (board : BoardData.t) : bool :=
  String.eqb (default "" (BoardData.defines board !! "HAL_SERIAL_INPUT_ENABLED")) "1".

(** [_detect_rc_input] *)
Definition detect_rc_input (board : BoardData.t) (lines : list string) : BoardData.t :=
  let board :=
    match rc_scan lines with
    | Some rc => BoardData.set_rc_input rc board
    | None => board
    end in
  if serial_input_enabled board
  then BoardData.set_rc_input (RcInput.set_input_type "uart" (BoardData.rc_input board)) board
  else board.

(** *** UART details *)

(** The function token of a UART pin line: it starts with one of the three
    prefixes and contains [_TX] or [_RX]. *)
Definition is_uart_func (func : string) : bool :=
  match List.find (λ uart_prefix,
           PyStr.startswith uart_prefix func
           && (PyStr.contains "_TX" func || PyStr.contains "_RX" func))
         ["USART"; "UART"; "LPUART"] with
  | Some _ => true
  | None => false
  end.

(** First loop of [_parse_uart_details], one line: [uart_pins] maps a UART
    name to its TX and RX pin labels (the two DMA entries of the source
    dictionaries are never read). *)
Definition uart_pin_step (uart_pins : gmap string (string * string)) (line : string)
    : gmap string (string * string) :=
  if is_skipped line then uart_pins
  else
    let parts := PyStr.split line in
    if (length parts <? 2)%nat then uart_pins
    else
      let pin := token parts 0 in
      let func := token parts 1 in
      if is_uart_func func then
        let uart_name := PyStr.rsplit1_head "_" func in
        let cur := default ("", "") (uart_pins !! uart_name) in
        let cur :=
          if PyStr.contains "_TX" func then (pin, cur.2)
          else if PyStr.contains "_RX" func then (cur.1, pin)
          else cur in
        <[uart_name := cur]> uart_pins
      else uart_pins.

Definition uart_pins_of (lines : list string) : gmap string (string * string) :=
  fold_left uart_pin_step lines ∅.

(** Second loop, one line: tokens of NODMA lines that start with USART or
    UART. *)
Definition nodma_step (nodma_uarts : gset string) (line : string) : gset string :=
  if is_skipped line then nodma_uarts
  else if PyStr.contains "NODMA" line then
    fold_left (λ acc p,
        fold_left (λ acc uart_prefix,
            if PyStr.startswith uart_prefix p then {[p]} ∪ acc else acc)
          ["USART"; "UART"] acc)
      (PyStr.split line) nodma_uarts
  else nodma_uarts.

Definition nodma_uarts_of (lines : list string) : gset string :=
  fold_left nodma_step lines ∅.

(** Third loop, one channel. *)
Definition update_uart (uart_pins : gmap string (string * string))
    (nodma_uarts : gset string) (uart : UartDef.t) : UartDef.t :=
  let name := UartDef.uart_name uart in
  let uart :=
    match uart_pins !! name with
    | Some (tx, rx) =>
        UartDef.set_has_rx (negb (PyStr.is_empty rx))
          (UartDef.set_has_tx (negb (PyStr.is_empty tx)) uart)
    | None => uart
    end in
  if negb (UartDef.is_usb uart) && negb (UartDef.is_empty uart)
  then UartDef.set_rx_dma (bool_decide (name ∉ nodma_uarts)) (UartDef.set_tx_dma true uart)
  else uart.

(** [_parse_uart_details] *)
Definition parse_uart_details (board : BoardData.t) (lines : list string) : BoardData.t :=
  BoardData.set_uarts
    (update_uart (uart_pins_of lines) (nodma_uarts_of lines) <$> BoardData.uarts board)
    board.

(** *** Board id *)

(** [_resolve_board_id] *)
Definition resolve_board_id (board : BoardData.t) : BoardData.t :=
  match BoardData.apj_board_id board with
  | None =>
      if negb (PyStr.is_empty (BoardData.apj_board_id_name board)) then
        match board_ids !! BoardData.apj_board_id_name board with
        | Some n => BoardData.set_apj_board_id (Some n) board
        | None =>
            match PyStr.int (BoardData.apj_board_id_name board) with
            | Some n => BoardData.set_apj_board_id (Some n) board
            | None => board
            end
        end
      else board
  | Some _ => board
  end.

(** *** A whole board *)

(** The record [parse_board] starts from. *)
Definition initial_board (folder_name : string) (lines : list string) : BoardData.t :=
  let board := BoardData.set_board_name folder_name
                 (BoardData.set_folder_name folder_name BoardData.default) in
  let board := BoardData.set_is_bootloader (PyStr.endswith "-bl" folder_name) board in
  let board := BoardData.set_is_priority
                 (bool_decide (folder_name ∈ PRIORITY_BOARDS)) board in
  BoardData.set_header_comments (header_of lines) board.

(** The five passes run after the directive loop. *)
Definition post_process (board : BoardData.t) (lines : list string) : BoardData.t :=
  let board := compute_output_groups board in
  let board := detect_sensors board in
  let board := detect_rc_input board lines in
  let board := parse_uart_details board lines in
  resolve_board_id board.

(** The record after the directive loop. *)
Definition directive_pass (folder_name : string) (lines : list string)
    : option BoardData.t :=
  fst <$> process_lines (initial_board folder_name lines, ∅) lines.

(** [parse_board] from the flattened lines of [hwdef.dat] on: header, the
    directive loop and the post-processing passes.  [None] stands for an
    exception escaping the directive loop.  The parameter file
    [defaults.parm], read afterwards into [default_params], is left out. *)
Definition parse_board (folder_name : string) (lines : list string)
    : option BoardData.t :=
  board ← directive_pass folder_name lines;
  Some (post_process board lines).

End HwdefParser.

(** ** Include resolution *)

(** What the file system answers for a path: no such file, a file that
    cannot be read, or the lines of its text ([read_text().splitlines()]). *)
Inductive FileState :=
| Missing
| Unreadable
| Content (raw_lines : list string).

Section IncludeResolver.

Variable fs : string → FileState.
(** [(filepath.parent / inc_path).resolve()], as a string. *)
Variable resolve_path : string → string → string.

(** The loop over the raw lines of one file; [recurse] is the call
    [self.resolve_lines(resolved, depth + 1)], threading the cache. *)
Fixpoint resolve_body
    (recurse : gmap string (list string) → string → option (gmap string (list string) * list string))
    (filepath : string) (cache : gmap string (list string))
    (raw_lines : list string) (lines : list string)
    : option (gmap string (list string) * list string) :=
  match raw_lines with
  | [] => Some (cache, lines)
  | raw_line :: rest =>
      let stripped := PyStr.strip raw_line in
      if PyStr.is_empty stripped || PyStr.startswith "#" stripped then
        resolve_body recurse filepath cache rest (lines ++ [stripped])
      else if PyStr.startswith "include" stripped then
        match PyStr.split_max1 stripped with
        | [_; arg] =>
            let inc_path := PyStr.strip arg in
            r ← recurse cache (resolve_path filepath inc_path);
            resolve_body recurse filepath r.1 rest (lines ++ r.2)
        | _ => resolve_body recurse filepath cache rest lines
        end
      else resolve_body recurse filepath cache rest (lines ++ [stripped])
  end.

(** [resolve_lines], with the include cache passed through.  The recursion
    of the source is on [depth]; [fuel] bounds it here and [None] means the
    fuel ran out (the source has no such outcome). *)
Fixpoint resolve_lines_fuel (fuel : nat) (cache : gmap string (list string))
    (filepath : string) (depth : nat)
    : option (gmap string (list string) * list string) :=
  match fuel with
  | O => None
  | S fuel' =>
      if (10 <? depth)%nat then Some (cache, [])
      else
        match cache !! filepath with
        | Some lines => Some (cache, lines)
        | None =>
            match fs filepath with
            | Missing => Some (cache, [])
            | Unreadable => Some (cache, [])
            | Content raw_lines =>
                r ← resolve_body
                       (λ c p, resolve_lines_fuel fuel' c p (S depth))
                       filepath cache raw_lines [];
                Some (<[filepath := r.2]> r.1, r.2)
            end
        end
  end.

(** Twelve levels ([depth] 0 to 11) are all the source can nest. *)
Definition resolve_lines (cache : gmap string (list string)) (filepath : string)
    (depth : nat) : option (gmap string (list string) * list string) :=
  resolve_lines_fuel (S (11 - depth)) cache filepath depth.

End IncludeResolver.

(** Include arguments taken as paths as they are. *)
Definition flat_paths (_ inc_path : string) : string := inc_path.

(** A board file that includes [sub.dat], which includes itself. *)
Definition cycle_fs (path : string) : FileState :=
  if String.eqb path "hwdef.dat" then Content ["MCU STM32F4xx STM32F405xx"; "include sub.dat"]
  else if String.eqb path "sub.dat" then Content ["define DEPTH 1"; "include sub.dat"]
  else Missing.

(** Twelve files [f0] to [f11], each including the next. *)
Definition chain_fs (path : string) : FileState :=
  if String.eqb path "f0" then Content ["L0"; "include f1"]
  else if String.eqb path "f1" then Content ["L1"; "include f2"]
  else if String.eqb path "f2" then Content ["L2"; "include f3"]
  else if String.eqb path "f3" then Content ["L3"; "include f4"]
  else if String.eqb path "f4" then Content ["L4"; "include f5"]
  else if String.eqb path "f5" then Content ["L5"; "include f6"]
  else if String.eqb path "f6" then Content ["L6"; "include f7"]
  else if String.eqb path "f7" then Content ["L7"; "include f8"]
  else if String.eqb path "f8" then Content ["L8"; "include f9"]
  else if String.eqb path "f9" then Content ["L9"; "include f10"]
  else if String.eqb path "f10" then Content ["L10"; "include f11"; "T10"]
  else if String.eqb path "f11" then Content ["L11"]
  else Missing.

Definition no_float (_ : string) : bool := false.

(** A word: not empty and without blanks. *)
Fixpoint no_space (s : string) : bool :=
  match s with
  | "" => true
  | String c s' => negb (PyStr.is_space c) && no_space s'
  end.

Definition is_word (t : string) : Prop := t ≠ "" ∧ no_space t = true.

(** The serial channels are the ones built from the serial order. *)
Definition in_step (b : BoardData.t) : Prop :=
  BoardData.uarts b = imap make_uart (BoardData.serial_order b).

(** A word of a NODMA line that the scan for such lines keeps. *)
Definition nodma_word (lines : list string) (p : string) : Prop :=
  ∃ l, l ∈ lines ∧ is_skipped l = false ∧ PyStr.contains "NODMA" l = true ∧
       p ∈ PyStr.split l ∧
       (PyStr.startswith "USART" p = true ∨ PyStr.startswith "UART" p = true).

(** The token of a line that takes the APJ_BOARD_ID branch with a value. *)
Definition apj_of (line : string) : option string :=
  if is_skipped line then None
  else if PyStr.startswith "undef " line then None
  else
    let parts := PyStr.split line in
    if String.eqb (token parts 0) "APJ_BOARD_ID" && (2 <=? length parts)%nat
    then Some (token parts 1)
    else None.

(** What an APJ_BOARD_ID token makes of the numeric id: the integer it
    reads as, else its entry in the board-id table, else the id as it was. *)
Definition apj_update (board_ids : gmap string Z) (old : option Z) (tok : string)
    : option Z :=
  match PyStr.int tok with
  | Some n => Some n
  | None =>
      match board_ids !! tok with
      | Some n => Some n
      | None => old
      end
  end.

(** ** The board-id table and the parameter defaults *)

(** One line of [board_types.txt]: the body of the loop of
    [parse_board_types]. *)
Definition board_types_step (result : gmap string Z) (raw_line : string)
    : gmap string Z :=
  let line := PyStr.strip raw_line in
  if is_skipped line then result
  else
    let parts := PyStr.split line in
    if (2 <=? length parts)%nat then
      match PyStr.int (token parts 1) with
      | Some value => <[token parts 0 := value]> result
      | None => result
      end
    else result.

(** [parse_board_types]: a missing file gives the empty table; [None]
    stands for the exception of a file that cannot be read. *)
Definition parse_board_types (file : FileState) : option (gmap string Z) :=
  match file with
  | Missing => Some ∅
  | Unreadable => None
  | Content raw_lines => Some (fold_left board_types_step raw_lines ∅)
  end.

(** The characters of the class [[\s,]]. *)
Definition is_sep (c : ascii) : bool := PyStr.is_space c || Ascii.eqb c ",".

(** The characters before the first one that satisfies [p], and the rest
    from that character on. *)
Fixpoint break_by (p : ascii → bool) (s : string) : string * string :=
  match s with
  | "" => ("", "")
  | String c s' =>
      if p c then ("", s)
      else let '(a, b) := break_by p s' in (String c a, b)
  end.

(** [re.split(r'[\s,]+', line, maxsplit=1)] *)
Definition re_split_sep1 (line : string) : list string :=
  let '(before, rest) := break_by is_sep line in
  if PyStr.is_empty rest then [line]
  else [before; PyStr.lstrip_by is_sep rest].

(** One line of [defaults.parm]: the body of the loop of
    [_parse_defaults]. *)
Definition defaults_step (params : gmap string string) (raw_line : string)
    : gmap string string :=
  let line := PyStr.strip raw_line in
  if is_skipped line then params
  else
    match re_split_sep1 line with
    | [k; v] => <[k := v]> params
    | _ => params
    end.

(** [_parse_defaults]: any failure to read the file gives no parameters. *)
Definition parse_defaults (file : FileState) : gmap string string :=
  match file with
  | Content raw_lines => fold_left defaults_step raw_lines ∅
  | _ => ∅
  end.

(** The entry a line of [board_types.txt] contributes. *)
Definition board_type_of (raw_line : string) : option (string * Z) :=
  let line := PyStr.strip raw_line in
  if is_skipped line then None
  else
    let parts := PyStr.split line in
    if (2 <=? length parts)%nat
    then (λ value, (token parts 0, value)) <$> PyStr.int (token parts 1)
    else None.

(** Every character of a string passes a test. *)
Fixpoint all_chars (p : ascii → bool) (s : string) : bool :=
  match s with
  | "" => true
  | String c s' => p c && all_chars p s'
  end.

(** ** TypeScript names and literals ([tools/generate-board-defs.py]) *)

(** [s.replace(c, by)] for a one-character [c]. *)
Fixpoint replace_char (c : ascii) (by_ : string) (s : string) : string :=
  match s with
  | "" => ""
  | String a s' =>
      if Ascii.eqb a c then by_ +:+ replace_char c by_ s'
      else String a (replace_char c by_ s')
  end.

Definition is_upper (c : ascii) : bool :=
  let n := N_of_ascii c in (65 <=? n)%N && (n <=? 90)%N.

Definition is_lower (c : ascii) : bool :=
  let n := N_of_ascii c in (97 <=? n)%N && (n <=? 122)%N.

(** The class [[a-zA-Z0-9]]. *)
Definition is_alnum (c : ascii) : bool :=
  is_lower c || is_upper c || PyStr.is_digit c.

(** The class [[-_]]. *)
Definition is_dash (c : ascii) : bool := Ascii.eqb c "-" || Ascii.eqb c "_".

(** [re.sub(r'[^...]', '', s)]: the characters of the class are kept. *)
Fixpoint keep_chars (p : ascii → bool) (s : string) : string :=
  match s with
  | "" => ""
  | String c s' => if p c then String c (keep_chars p s') else keep_chars p s'
  end.

(** [re.split] on a class of single characters: never empty. *)
Fixpoint split_by (p : ascii → bool) (s : string) : list string :=
  match s with
  | "" => [""]
  | String c s' =>
      if p c then "" :: split_by p s'
      else match split_by p s' with
           | [] => [String c ""]
           | x :: xs => String c x :: xs
           end
  end.

(** [s.capitalize()] *)
Definition capitalize (s : string) : string :=
  match s with
  | "" => ""
  | String c s' => String (PyStr.upper_char c) (PyStr.lower s')
  end.

(** [s[0].isdigit()] on a string that is not empty. *)
Definition starts_with_digit (s : string) : bool :=
  match s with
  | "" => false
  | String c _ => PyStr.is_digit c
  end.

(** [to_ts_id] *)
Definition to_ts_id (folder_name : string) : string :=
  let cleaned := replace_char "+" "Plus" folder_name in
  let cleaned := keep_chars (λ c, is_alnum c || is_dash c) cleaned in
  let parts := split_by is_dash cleaned in
  let parts := List.filter (λ p, negb (PyStr.is_empty p)) parts in
  match parts with
  | [] => "boardUnknown"
  | first :: others =>
      let result := PyStr.lower first +:+ String.concat "" (capitalize <$> others) in
      if starts_with_digit result then "board" +:+ result else result
  end.

(** [escape_ts_string] *)
Definition escape_ts_string (s : string) : string :=
  replace_char "'" "\'" (replace_char "\" "\\" s).

(** Line terminators, which a string literal cannot hold unescaped. *)
Definition is_line_break (c : ascii) : bool :=
  Ascii.eqb c "010" || Ascii.eqb c "013".

(** A recogniser of bodies of single-quoted literals, on the safe side:
    it accepts a sequence of plain characters (anything but a quote, a
    backslash or a line terminator) and of the two escapes backslash-
    backslash and backslash-quote, and nothing else.  [escaped] tells
    that the character before was an unescaped backslash. *)
Fixpoint literal_body_ok (escaped : bool) (s : string) : bool :=
  match s with
  | "" => negb escaped
  | String c s' =>
      if escaped then (Ascii.eqb c "\" || Ascii.eqb c "'") && literal_body_ok false s'
      else if Ascii.eqb c "\" then literal_body_ok true s'
      else if Ascii.eqb c "'" || is_line_break c then false
      else literal_body_ok false s'
  end.

(** The text a literal body stands for: a backslash makes the character
    after it stand for itself. *)
Fixpoint ts_unescape (escaped : bool) (s : string) : string :=
  match s with
  | "" => ""
  | String c s' =>
      if escaped then String c (ts_unescape false s')
      else if Ascii.eqb c "\" then ts_unescape true s'
      else String c (ts_unescape false s')
  end.

(** ** The batch of [main] *)

(** What [parse_board] makes of one folder: no [hwdef.dat], an exception,
    or a board. *)
Inductive Outcome :=
| NoBoard
| Raised
| Parsed (board : BoardData.t).

(** The tests of the loop of [main]: bootloader definitions and boards
    without a serial order are skipped. *)
Definition accepted (board : BoardData.t) : bool :=
  negb (BoardData.is_bootloader board)
  && negb (bool_decide (BoardData.serial_order board = [])).

(** The loop of [main] over the outcomes, in folder order. *)
Fixpoint collect_results (outcomes : list Outcome) : list BoardData.t :=
  match outcomes with
  | [] => []
  | Parsed board :: rest =>
      if accepted board then board :: collect_results rest
      else collect_results rest
  | _ :: rest => collect_results rest
  end.

(** The sort key [(not b.is_priority, b.folder_name.lower())]. *)
Definition result_key (board : BoardData.t) : bool * string :=
  (negb (BoardData.is_priority board), PyStr.lower (BoardData.folder_name board)).

(** Order of the key tuples: [False] before [True], then the names. *)
Definition key_leb (k1 k2 : bool * string) : bool :=
  if Bool.eqb k1.1 k2.1 then String.leb k1.2 k2.2 else negb k1.1.

Definition result_le (a b : BoardData.t) : Prop :=
  key_leb (result_key a) (result_key b) = true.

(** A stable sort, as [list.sort] is: an element goes in front of the
    first one that is not smaller, so elements with equal keys keep their
    order. *)
Fixpoint insert_sorted {A} (leb : A → A → bool) (x : A) (l : list A) : list A :=
  match l with
  | [] => [x]
  | y :: l' => if leb x y then x :: l else y :: insert_sorted leb x l'
  end.

Definition stable_sort {A} (leb : A → A → bool) (l : list A) : list A :=
  foldr (insert_sorted leb) [] l.

(** The sorted results of [main]. *)
Definition main_results (outcomes : list Outcome) : list BoardData.t :=
  stable_sort (λ a b, key_leb (result_key a) (result_key b)) (collect_results outcomes).

(** Four outcomes of a batch: two priority boards, a folder without
    [hwdef.dat] and a board without serial order. *)
Definition demo_outcomes : list Outcome :=
  [Parsed (BoardData.set_serial_order ["OTG1"]
             (BoardData.set_is_priority true
                (BoardData.set_folder_name "Pixhawk1" BoardData.default)));
   NoBoard;
   Parsed (BoardData.set_folder_name "no-serial" BoardData.default);
   Parsed (BoardData.set_serial_order ["OTG1"]
             (BoardData.set_is_priority true
                (BoardData.set_folder_name "fmuv3" BoardData.default)))].

(** The identity of a board: the fields [parse_board] fills from the
    folder name before the directive loop. *)
Definition same_identity (b b' : BoardData.t) : Prop :=
  BoardData.folder_name b' = BoardData.folder_name b ∧
  BoardData.is_bootloader b' = BoardData.is_bootloader b ∧
  BoardData.is_priority b' = BoardData.is_priority b.

(** A line as include resolution emits it: stripped, and empty, a comment,
    or not starting with [include]. *)
Definition emitted (line : string) : Prop :=
  PyStr.strip line = line ∧
  (is_skipped line || negb (PyStr.startswith "include" line)) = true.

(** Every cached file holds such lines. *)
Definition cache_emitted (cache : gmap string (list string)) : Prop :=
  ∀ k ls, cache !! k = Some ls → Forall emitted ls.

(** A line that declares the PWM output [o]: at least four words, and the
    first [PWM(<digits>)] of the line gives the output number. *)
Definition declares_output (line : string) (o : OutputPin.t) : Prop :=
  let parts := PyStr.split line in
  is_skipped line = false ∧ (4 ≤ length parts)%nat ∧
  (∃ ds, PyStr.re_search (PyStr.match_paren_num "PWM") line = Some ds ∧
         OutputPin.number o = PyStr.digits_val 0 ds) ∧
  OutputPin.gpio o
    = (PyStr.digits_val 0 <$> PyStr.re_search (PyStr.match_paren_num "GPIO") line) ∧
  OutputPin.pin o = token parts 0 ∧
  OutputPin.timer_channel o = token parts 1 ∧
  OutputPin.timer o = token parts 2 ∧
  OutputPin.bidir o = PyStr.contains "BIDIR" line.

(** ** Vocabulary of the properties *)

(** Fields that the [define] branch leaves alone. *)
Definition define_frame (b b' : BoardData.t) : Prop :=
  BoardData.uarts b' = BoardData.uarts b ∧
  BoardData.serial_order b' = BoardData.serial_order b ∧
  BoardData.pwm_outputs b' = BoardData.pwm_outputs b ∧
  BoardData.output_groups b' = BoardData.output_groups b ∧
  BoardData.spi_devices b' = BoardData.spi_devices b ∧
  BoardData.rc_input b' = BoardData.rc_input b ∧
  BoardData.defines b' = BoardData.defines b ∧
  BoardData.header_comments b' = BoardData.header_comments b ∧
  BuiltinSensors.imu (BoardData.sensors b') = BuiltinSensors.imu (BoardData.sensors b) ∧
  BuiltinSensors.barometer (BoardData.sensors b') = BuiltinSensors.barometer (BoardData.sensors b) ∧
  BuiltinSensors.compass (BoardData.sensors b') = BuiltinSensors.compass (BoardData.sensors b).

(** A line takes the [define] branch when its keyword is [define], it has
    a value, and the PWM-output branch before it does not capture it. *)
Definition is_define_directive (parts : list string) (line : string) : bool :=
  String.eqb (token parts 0) "define" && (3 <=? length parts)%nat
  && negb ((4 <=? length parts)%nat && PyStr.contains "PWM(" line).

(** A line takes the SPIDEV branch. *)
Definition is_spidev_directive (parts : list string) (line : string) : bool :=
  String.eqb (token parts 0) "SPIDEV" && (4 <=? length parts)%nat
  && negb (PyStr.contains "PWM(" line).

(** Fields no directive writes: they are filled by the later passes. *)
Definition directive_frame (b b' : BoardData.t) : Prop :=
  BoardData.output_groups b' = BoardData.output_groups b ∧
  BoardData.rc_input b' = BoardData.rc_input b ∧
  BoardData.header_comments b' = BoardData.header_comments b ∧
  BuiltinSensors.imu (BoardData.sensors b') = BuiltinSensors.imu (BoardData.sensors b) ∧
  BuiltinSensors.barometer (BoardData.sensors b') = BuiltinSensors.barometer (BoardData.sensors b) ∧
  BuiltinSensors.compass (BoardData.sensors b') = BuiltinSensors.compass (BoardData.sensors b).

(** The table entry a line contributes, if it takes the [define] branch. *)
Definition define_of (line : string) : option (string * string) :=
  if is_skipped line then None
  else if PyStr.startswith "undef " line then None
  else
    let parts := PyStr.split line in
    if is_define_directive parts line
    then Some (token parts 1, PyStr.join " " (drop 2 parts))
    else None.

(** The device a line contributes, if it takes the SPIDEV branch. *)
Definition spidev_of (line : string) : option SpiDevice.t :=
  if is_skipped line then None
  else if PyStr.startswith "undef " line then None
  else
    let parts := PyStr.split line in
    if is_spidev_directive parts line
    then Some (SpiDevice.mk (PyStr.lower (token parts 1)) (token parts 2)
                 (token parts 3) (token parts 4))
    else None.

Definition insert_entry (m : gmap string string) (kv : string * string)
    : gmap string string := <[kv.1 := kv.2]> m.

(** A channel as SERIAL_ORDER creates it. *)
Definition fresh_uart (u : UartDef.t) : Prop :=
  UartDef.has_tx u = true ∧ UartDef.has_rx u = true ∧
  UartDef.rx_dma u = false ∧ UartDef.tx_dma u = false.

(** The pins on one timer, in the order of the pin list. *)
Definition pins_of (k : string) (outs : list OutputPin.t) : list OutputPin.t :=
  filter (λ o, OutputPin.timer o = k) outs.

(** What one line makes of the RC input, if it is a heuristic line: the
    body of the loop of [_detect_rc_input]. *)
Definition rc_classify (line : string) : option RcInput.t :=
  if is_skipped line then None
  else
    let parts := PyStr.split line in
    if PyStr.contains "RCIN" line && PyStr.contains "TIM" line
       && (3 <=? length parts)%nat
    then Some (RcInput.mk "timer" None (token parts 0) (token parts 2))
    else if PyStr.contains "RCIN" line
            && (PyStr.contains "USART" line || PyStr.contains "UART" line)
    then Some (RcInput.mk "uart" None (token parts 0) "")
    else None.

(** The UART a line names in its function word, when the line is a UART
    pin line [<pin> <family><index>_TX] or [..._RX]. *)
Definition uart_pin_line (line : string) : option string :=
  if is_skipped line then None
  else
    let parts := PyStr.split line in
    if (length parts <? 2)%nat then None
    else if is_uart_func (token parts 1)
         then Some (PyStr.rsplit1_head "_" (token parts 1))
         else None.

(** The line records the TX pin, respectively the RX pin, of its UART. *)
Definition records_tx (line : string) : bool :=
  PyStr.contains "_TX" (token (PyStr.split line) 1).

Definition records_rx (line : string) : bool :=
  negb (PyStr.contains "_TX" (token (PyStr.split line) 1))
  && PyStr.contains "_RX" (token (PyStr.split line) 1).

(** What the pin table knows about one UART after some lines. *)
Definition uart_pins_inv (lines : list string) (name : string)
    (entry : option (string * string)) : Prop :=
  match entry with
  | None => ∀ l, l ∈ lines → uart_pin_line l ≠ Some name
  | Some (tx, rx) =>
      (∃ l, l ∈ lines ∧ uart_pin_line l = Some name) ∧
      (tx = "" → ∀ l, l ∈ lines → uart_pin_line l = Some name → records_tx l = false) ∧
      (rx = "" → ∀ l, l ∈ lines → uart_pin_line l = Some name → records_rx l = false)
  end.

Definition sensors_NoDup (s : BuiltinSensors.t) : Prop :=
  NoDup (BuiltinSensors.imu s) ∧ NoDup (BuiltinSensors.barometer s)
  ∧ NoDup (BuiltinSensors.compass s).

(** A raw line that the loop copies to the output: anything but an
    [include] directive. *)
Definition is_kept (raw_line : string) : bool :=
  let stripped := PyStr.strip raw_line in
  PyStr.is_empty stripped || PyStr.startswith "#" stripped
  || negb (PyStr.startswith "include" stripped).

(** A line as include resolution emits it: no blank at either end. *)
Definition stripped (line : string) : Prop := PyStr.strip line = line.

(** Every cached file holds such lines. *)
Definition cache_stripped (cache : gmap string (list string)) : Prop :=
  ∀ k ls, cache !! k = Some ls → Forall stripped ls.

(** A decimal digit, [0] to [9]. *)
Definition decimal_digit (c : ascii) : Prop := (48 ≤ N_of_ascii c ≤ 57)%N.

(** The timer name carries the number [n]: its first [TIM] that a digit
    follows is followed by the decimal numeral of [n], after leading zeros
    if any, and then by no further digit. *)
Definition numbered_timer (name : string) (n : N) : Prop :=
  ∃ pre zeros rest,
    name = pre +:+ "TIM" +:+ zeros +:+ pretty n +:+ rest ∧
    (∀ a d b, pre = a +:+ "TIM" +:+ String d b → ¬ decimal_digit d) ∧
    all_chars (Ascii.eqb "0") zeros = true ∧
    (∀ d b, rest = String d b → ¬ decimal_digit d).

(** The timer name carries no number: no [TIM] in it has a digit after
    it. *)
Definition unnumbered_timer (name : string) : Prop :=
  ∀ a d b, name = a +:+ "TIM" +:+ String d b → ¬ decimal_digit d.

(** Two characters that are the same, or the same ASCII letter in upper
    and in lower case. *)
Definition same_letter (x y : ascii) : Prop :=
  let a := N_of_ascii x in
  let b := N_of_ascii y in
  (a = b ∨ (65 ≤ a ≤ 90 ∧ b = a + 32) ∨ (65 ≤ b ≤ 90 ∧ a = b + 32))%N.

(** Two strings that differ in the case of ASCII letters only. *)
Definition caseless (u v : string) : Prop :=
  Forall2 same_letter (list_ascii_of_string u) (list_ascii_of_string v).

(** [chip] is a substring of [name], whatever the case of the letters of
    [name]. *)
Definition occurs_in (chip name : string) : Prop :=
  ∃ a v b, name = a +:+ v +:+ b ∧ caseless chip v.

(** [chip] is the first identifier of [order] that occurs in [name]: the
    one a loop over [order] that stops at the first match stops at. *)
Definition first_match (order : list string) (name chip : string) : Prop :=
  ∃ pre post, order = pre ++ chip :: post ∧ occurs_in chip name ∧
              ∀ c, c ∈ pre → ¬ occurs_in c name.

(** [line] is a SPIDEV directive for a device called [name]: its first
    word is [SPIDEV], at least three words follow, and the PWM-output rule,
    which comes first, does not capture it. *)
Definition spidev_line (line name : string) : Prop :=
  ∃ bus devid rest,
    PyStr.split line = "SPIDEV" :: name :: bus :: devid :: rest ∧
    PyStr.contains "PWM(" line = false.

(** [x] is the upper-cased name of a chip detected on a SPIDEV line:
    the first identifier of [order] that occurs in the device name. *)
Definition detected (order : list string) (lines : list string) (x : string) : Prop :=
  ∃ l name chip,
    l ∈ lines ∧ spidev_line l name ∧ first_match order name chip ∧
    x = PyStr.upper chip.

(** * Properties *)

#[local] Arguments Nat.leb : simpl never.
#[local] Arguments Nat.ltb : simpl never.

Example split_ex : PyStr.split "  PA0 TIM2_CH1N   TIM2 PWM(1) " = ["PA0"; "TIM2_CH1N"; "TIM2"; "PWM(1)"].
Proof. reflexivity. Qed.

Example split_max1_ex : PyStr.split_max1 "undef  HAL_X  y " = ["undef"; "HAL_X  y "].
Proof. reflexivity. Qed.

Example rsplit_ex : PyStr.rsplit1_head "_" "USART1_TX" = "USART1" ∧ PyStr.rsplit1_head "_" "A_B_C" = "A_B" ∧ PyStr.rsplit1_head "_" "ABC" = "ABC".
Proof. repeat split. Qed.

Example int_ex : PyStr.int "-1_000" = Some (-1000) ∧ PyStr.int "12a" = None ∧ PyStr.int "" = None ∧ PyStr.int "_1" = None.
Proof. repeat split. Qed.

Example re_ex : PyStr.re_search (PyStr.match_paren_num "PWM") "PA0 TIM2_CH1 TIM2 PWM(12) GPIO(50)" = Some "12"
  ∧ PyStr.re_search (PyStr.match_num "TIM") "XTIMTIM12" = Some "12"
  ∧ PyStr.re_search (PyStr.match_digit "CAN") "CAN12_RX" = Some "1".
Proof. repeat split. Qed.

Example strip_ex : PyStr.strip "  a b  " = "a b" ∧ PyStr.strip_by (Ascii.eqb "034") (String "034" "x") = "x" ∧ PyStr.upper "icm42688" = "ICM42688".
Proof. repeat split. Qed.

Example process_pwm_ex :
  BoardData.pwm_outputs (process_line ∅ no_float BoardData.default
     (PyStr.split "PA0 TIM2_CH1N TIM2 PWM(1) BIDIR") "PA0 TIM2_CH1N TIM2 PWM(1) BIDIR" ∅)
  = [OutputPin.mk 1 "TIM2" "TIM2_CH1N" None true true "PA0"].
Proof. reflexivity. Qed.

Example scenario_B :
  BoardData.output_groups <$>
    parse_board ∅ no_float source_orders "X" ["PA0 TIM2_CH1N TIM2 PWM(1) BIDIR"]
  = Some [OutputGroup.mk [1] "TIM2" ["PWM"; "DShot"; "BDShot"]].
Proof. vm_compute. reflexivity. Qed.

Example cycle_ex :
  snd <$> resolve_lines cycle_fs flat_paths ∅ "hwdef.dat" 0
  = Some ("MCU STM32F4xx STM32F405xx" :: replicate 10 "define DEPTH 1").
Proof. vm_compute. reflexivity. Qed.

Example chain_ex :
  snd <$> resolve_lines chain_fs flat_paths ∅ "f0" 0
  = Some ["L0"; "L1"; "L2"; "L3"; "L4"; "L5"; "L6"; "L7"; "L8"; "L9"; "L10"; "T10"].
Proof. vm_compute. reflexivity. Qed.

(** ** The directive processor, field by field *)

(** Case analysis on the tests of an [if] chain and on optional values. *)
Ltac branch_cases :=
  repeat match goal with
  | |- context [if ?c then _ else _] => destruct c eqn:?
  | |- context [match ?o with Some _ => _ | None => _ end] => destruct o eqn:?
  end.

Ltac frame_cases :=
  branch_cases; repeat split; reflexivity.

Section ProcessLineFacts.

Variable board_ids : gmap string Z.
Variable float_ok : string → bool.

Lemma define_frame_refl b : define_frame b b.
Proof. repeat split. Qed.

Lemma define_frame_trans b1 b2 b3 :
  define_frame b1 b2 → define_frame b2 b3 → define_frame b1 b3.
Proof.
  unfold define_frame. intros H1 H2.
  destruct_and!. repeat split; congruence.
Qed.

#[local] Arguments Nat.leb : simpl never.
#[local] Arguments Nat.ltb : simpl never.

Lemma define_buzzer_frame n b : define_frame b (define_buzzer n b).
Proof. unfold define_buzzer. frame_cases. Qed.
Lemma define_battery_frame n v b : define_frame b (define_battery float_ok n v b).
Proof. unfold define_battery. frame_cases. Qed.
Lemma define_safety_frame n v b : define_frame b (define_safety n v b).
Proof. unfold define_safety. frame_cases. Qed.
Lemma define_can_frame n v b : define_frame b (define_can n v b).
Proof. unfold define_can. frame_cases. Qed.
Lemma define_board_name_frame n v b : define_frame b (define_board_name n v b).
Proof. unfold define_board_name. frame_cases. Qed.
Lemma define_led_strip_frame n b : define_frame b (define_led_strip n b).
Proof. unfold define_led_strip. frame_cases. Qed.
Lemma define_osd_frame n v b : define_frame b (define_osd n v b).
Proof. unfold define_osd. frame_cases. Qed.
Lemma define_sdcard_frame n v b : define_frame b (define_sdcard n v b).
Proof. unfold define_sdcard. frame_cases. Qed.

(** After the table update, the side effects of a [define] touch none of
    the framed fields. *)
Lemma define_effects_frame n v b :
  define_frame b
    (define_sdcard n v (define_osd n v (define_led_strip n
      (define_board_name n v (define_can n v (define_safety n v
        (define_battery float_ok n v (define_buzzer n b)))))))).
Proof.
  repeat (eapply define_frame_trans;
          [| first [ apply define_sdcard_frame | apply define_osd_frame
                   | apply define_led_strip_frame | apply define_board_name_frame
                   | apply define_can_frame | apply define_safety_frame
                   | apply define_battery_frame ] ]).
  apply define_buzzer_frame.
Qed.

Lemma process_define_defines b parts :
  BoardData.defines (process_define float_ok b parts)
  = <[token parts 1 := PyStr.join " " (drop 2 parts)]> (BoardData.defines b).
Proof.
  unfold process_define. cbv zeta.
  pose proof (define_effects_frame (token parts 1) (PyStr.join " " (drop 2 parts))
    (BoardData.set_defines
       (<[token parts 1 := PyStr.join " " (drop 2 parts)]> (BoardData.defines b)) b)) as H.
  unfold define_frame in H. destruct_and!. etrans; [eassumption|]. reflexivity.
Qed.

Lemma process_line_defines b parts line undefs :
  BoardData.defines (process_line board_ids float_ok b parts line undefs)
  = if is_define_directive parts line
    then <[token parts 1 := PyStr.join " " (drop 2 parts)]> (BoardData.defines b)
    else BoardData.defines b.
Proof.
  unfold process_line, is_define_directive.
  destruct (String.eqb (token parts 0) "define") eqn:Hkw.
  - apply String.eqb_eq in Hkw. rewrite Hkw. simpl.
    destruct ((4 <=? length parts)%nat && PyStr.contains "PWM(" line) eqn:Hpwm;
      destruct (3 <=? length parts)%nat eqn:Hlen; simpl.
    + branch_cases; reflexivity.
    + branch_cases; reflexivity.
    + apply process_define_defines.
    + branch_cases; reflexivity.
  - simpl. branch_cases; try reflexivity; simpl in *; congruence.
Qed.

Lemma process_line_spi_devices b parts line undefs :
  BoardData.spi_devices (process_line board_ids float_ok b parts line undefs)
  = if is_spidev_directive parts line
    then BoardData.spi_devices b ++
         [SpiDevice.mk (PyStr.lower (token parts 1)) (token parts 2)
            (token parts 3) (token parts 4)]
    else BoardData.spi_devices b.
Proof.
  unfold process_line, is_spidev_directive.
  destruct (String.eqb (token parts 0) "SPIDEV") eqn:Hkw.
  - apply String.eqb_eq in Hkw. rewrite Hkw. simpl.
    destruct (4 <=? length parts)%nat eqn:Hlen; simpl.
    + destruct (PyStr.contains "PWM(" line) eqn:Hpwm; simpl.
      * branch_cases; reflexivity.
      * reflexivity.
    + branch_cases; reflexivity.
  - simpl. branch_cases; try reflexivity; simpl in *; try congruence.
    all: pose proof (define_effects_frame (token parts 1) (PyStr.join " " (drop 2 parts))
           (BoardData.set_defines
             (<[token parts 1 := PyStr.join " " (drop 2 parts)]> (BoardData.defines b)) b)) as H;
         unfold define_frame in H; destruct_and!; assumption.
Qed.

Lemma process_line_frame b parts line undefs :
  directive_frame b (process_line board_ids float_ok b parts line undefs).
Proof.
  unfold process_line.
  branch_cases; try (repeat split; reflexivity).
  unfold process_define. cbv zeta.
  pose proof (define_effects_frame (token parts 1) (PyStr.join " " (drop 2 parts))
           (BoardData.set_defines
             (<[token parts 1 := PyStr.join " " (drop 2 parts)]> (BoardData.defines b)) b)) as H.
  unfold define_frame in H. destruct_and!. repeat split; assumption.
Qed.

(** The channel list is either kept or rebuilt from a SERIAL_ORDER line. *)
Lemma process_line_uarts b parts line undefs :
  BoardData.uarts (process_line board_ids float_ok b parts line undefs) = BoardData.uarts b
  ∨ BoardData.uarts (process_line board_ids float_ok b parts line undefs)
    = imap make_uart (drop 1 parts).
Proof.
  unfold process_line.
  branch_cases; try (left; reflexivity); try (right; reflexivity).
  left. unfold process_define. cbv zeta.
  pose proof (define_effects_frame (token parts 1) (PyStr.join " " (drop 2 parts))
           (BoardData.set_defines
             (<[token parts 1 := PyStr.join " " (drop 2 parts)]> (BoardData.defines b)) b)) as H.
  unfold define_frame in H. destruct_and!. assumption.
Qed.

(** The undef set matters only to a CAN keyword that is in it. *)
Lemma process_line_undefs b parts line undefs name :
  is_can_keyword (token parts 0) = false ∨ token parts 0 ≠ name →
  process_line board_ids float_ok b parts line ({[name]} ∪ undefs)
  = process_line board_ids float_ok b parts line undefs.
Proof.
  intros Hname. unfold process_line.
  branch_cases; try reflexivity.
  all: repeat match goal with
       | H : bool_decide _ = true |- _ => apply bool_decide_eq_true in H
       | H : bool_decide _ = false |- _ => apply bool_decide_eq_false in H
       end.
  all: destruct Hname as [Hname|Hname]; try congruence.
  all: exfalso;
       repeat match goal with
       | H : _ ∈ _ ∪ _ |- _ =>
           apply elem_of_union in H; destruct H as [H|H];
           [apply elem_of_singleton in H|]
       | H : _ ∉ _ ∪ _ |- _ => apply not_elem_of_union in H; destruct H
       end;
       first [congruence | contradiction].
Qed.

End ProcessLineFacts.

(** ** Words of a line *)

Lemma prefix_app p s : String.prefix p s = true → ∃ r, s = p +:+ r.
Proof.
  revert s. induction p as [|a p IH]; intros s H.
  - exists s. reflexivity.
  - destruct s as [|c s]; simpl in H; [discriminate|].
    destruct (ascii_dec a c) as [->|]; [|discriminate].
    destruct (IH _ H) as [r ->]. exists r. reflexivity.
Qed.

Lemma prefix_cons a p c s :
  String.prefix (String a p) (String c s)
  = if Ascii.eqb a c then String.prefix p s else false.
Proof.
  change (String.prefix (String a p) (String c s))
    with (match ascii_dec a c with left _ => String.prefix p s | right _ => false end).
  destruct (ascii_dec a c) as [->|Hne].
  - rewrite Ascii.eqb_refl. reflexivity.
  - apply Ascii.eqb_neq in Hne. rewrite Hne. reflexivity.
Qed.

Lemma is_empty_true s : PyStr.is_empty s = true ↔ s = "".
Proof. destruct s; simpl; split; intros H; first [reflexivity | discriminate | congruence]. Qed.

Lemma is_empty_false s : PyStr.is_empty s = false ↔ s ≠ "".
Proof. destruct s; simpl; split; intros H; first [reflexivity | discriminate | congruence]. Qed.

Lemma app_cons c s t : String c s +:+ t = String c (s +:+ t).
Proof. reflexivity. Qed.

Lemma app_empty_r s : s +:+ "" = s.
Proof. induction s as [|c s IH]; [reflexivity|]. rewrite app_cons, IH. reflexivity. Qed.

Lemma app_snoc_cons s c t : (s +:+ String c "") +:+ t = s +:+ String c t.
Proof. induction s as [|a s IH]; [reflexivity|]. rewrite !app_cons, IH. reflexivity. Qed.

Lemma app_prefix p r : String.prefix p (p +:+ r) = true.
Proof.
  induction p as [|a p IH].
  - destruct r; reflexivity.
  - rewrite app_cons. simpl. destruct (ascii_dec a a); [assumption|congruence].
Qed.

Lemma app_not_empty s c : s +:+ String c "" ≠ "".
Proof. destruct s; discriminate. Qed.

Lemma all_chars_app p a b :
  all_chars p (a +:+ b) = all_chars p a && all_chars p b.
Proof.
  induction a as [|c a IH]; [reflexivity|].
  rewrite app_cons. simpl. rewrite IH. by rewrite andb_assoc.
Qed.

Lemma str_app_assoc a b c : (a +:+ b) +:+ c = a +:+ (b +:+ c).
Proof.
  induction a as [|x a IH]; [reflexivity|]. rewrite !app_cons. by rewrite IH.
Qed.

Lemma substring_full s : String.substring 0 (String.length s) s = s.
Proof. induction s as [|c s IH]; [reflexivity|]. simpl. by rewrite IH. Qed.

Lemma drop_prefix_app p r : PyStr.drop_prefix p (p +:+ r) = r.
Proof.
  unfold PyStr.drop_prefix. induction p as [|c p IH].
  - change ("" +:+ r) with r. simpl. rewrite Nat.sub_0_r. apply substring_full.
  - rewrite app_cons. simpl. exact IH.
Qed.

(** ** Decimal numerals *)

Lemma is_digit_range c :
  PyStr.is_digit c = true ↔ (48 ≤ N_of_ascii c ≤ 57)%N.
Proof.
  unfold PyStr.is_digit. cbv zeta. rewrite andb_true_iff, !N.leb_le. tauto.
Qed.

Lemma span_digits_app ds rest :
  all_chars PyStr.is_digit ds = true →
  (∀ d r, rest = String d r → PyStr.is_digit d = false) →
  PyStr.span_digits (ds +:+ rest) = (ds, rest).
Proof.
  intros Hds Hrest. induction ds as [|c ds IH].
  - change ("" +:+ rest) with rest. destruct rest as [|d r]; [reflexivity|].
    simpl. by rewrite (Hrest d r eq_refl).
  - simpl in Hds. apply andb_true_iff in Hds. destruct Hds as [Hc Hds].
    rewrite app_cons. simpl. rewrite Hc, (IH Hds). reflexivity.
Qed.

Lemma digits_val_app a b : ∀ acc,
  PyStr.digits_val acc (a +:+ b) = PyStr.digits_val (PyStr.digits_val acc a) b.
Proof.
  induction a as [|c a IH]; intros acc; [reflexivity|].
  rewrite app_cons. cbn [PyStr.digits_val]. apply IH.
Qed.

Lemma digits_val_zeros z :
  all_chars (Ascii.eqb "0") z = true → PyStr.digits_val 0 z = 0.
Proof.
  induction z as [|c z IH]; intros Hz; [reflexivity|].
  cbn [all_chars] in Hz. apply andb_true_iff in Hz. destruct Hz as [Hc Hz].
  apply Ascii.eqb_eq in Hc. subst c. cbn [PyStr.digits_val]. exact (IH Hz).
Qed.

Lemma zeros_digits z :
  all_chars (Ascii.eqb "0") z = true → all_chars PyStr.is_digit z = true.
Proof.
  induction z as [|c z IH]; intros Hz; [reflexivity|].
  cbn [all_chars] in *. apply andb_true_iff in Hz. destruct Hz as [Hc Hz].
  apply Ascii.eqb_eq in Hc. subst c. by rewrite IH.
Qed.

Lemma pretty_N_char_digit j :
  (j < 10)%N →
  PyStr.is_digit (pretty_N_char j) = true ∧
  Z.of_N (N_of_ascii (pretty_N_char j)) - 48 = Z.of_N j.
Proof.
  intros Hj.
  assert (Hcases : (j = 0 ∨ j = 1 ∨ j = 2 ∨ j = 3 ∨ j = 4 ∨ j = 5 ∨ j = 6 ∨ j = 7
                    ∨ j = 8 ∨ j = 9)%N) by lia.
  destruct_or!; subst j; split; reflexivity.
Qed.

Lemma pretty_N_go_app x : ∀ s, pretty_N_go x s = pretty_N_go x "" +:+ s.
Proof.
  induction (N.lt_wf_0 x) as [x _ IH]; intros s.
  destruct (decide (0 < x)%N) as [Hx|Hx].
  - rewrite !(pretty_N_go_step x) by exact Hx.
    assert (Hlt : (x `div` 10 < x)%N) by (apply N.div_lt; lia).
    rewrite (IH _ Hlt (String _ s)), (IH _ Hlt (String _ "")).
    by rewrite app_snoc_cons.
  - assert (x = 0%N) as -> by lia. by rewrite !pretty_N_go_0.
Qed.

Lemma pretty_N_go_digits x :
  all_chars PyStr.is_digit (pretty_N_go x "") = true ∧
  PyStr.digits_val 0 (pretty_N_go x "") = Z.of_N x.
Proof.
  induction (N.lt_wf_0 x) as [x _ IH].
  destruct (decide (0 < x)%N) as [Hx|Hx].
  - rewrite (pretty_N_go_step x) by exact Hx. rewrite pretty_N_go_app.
    assert (Hlt : (x `div` 10 < x)%N) by (apply N.div_lt; lia).
    destruct (IH _ Hlt) as [Hd Hv].
    destruct (pretty_N_char_digit (x `mod` 10)) as [Hc Hcv];
      [apply N.mod_lt; lia|].
    split.
    + rewrite all_chars_app, Hd. simpl. by rewrite Hc.
    + rewrite digits_val_app, Hv. cbn [PyStr.digits_val]. rewrite Hcv.
      rewrite (N.div_mod x 10) at 3 by lia. lia.
  - assert (x = 0%N) as -> by lia. rewrite pretty_N_go_0. by split.
Qed.

(** The decimal numeral of a number is a non-empty string of digits that
    [int] reads back as the number. *)
Lemma pretty_N_digits (n : N) :
  pretty n ≠ "" ∧ all_chars PyStr.is_digit (pretty n) = true ∧
  PyStr.digits_val 0 (pretty n) = Z.of_N n.
Proof.
  unfold pretty, pretty_N. destruct (decide (n = 0%N)) as [->|Hn].
  - repeat split. discriminate.
  - destruct (pretty_N_go_digits n) as [Hd Hv]. split; [|by split].
    intros He. rewrite He in Hv. simpl in Hv. lia.
Qed.

(** The first word produced from a pending word [cur] extends it. *)
Lemma split_go_head s : ∀ cur tok toks,
  cur ≠ "" → PyStr.split_go cur s = tok :: toks → ∃ t, tok = cur +:+ t.
Proof.
  induction s as [|c s IH]; intros cur tok toks Hcur H; simpl in H.
  - apply is_empty_false in Hcur. rewrite Hcur in H.
    injection H as <- _. exists "". symmetry. apply app_empty_r.
  - destruct (PyStr.is_space c).
    + apply is_empty_false in Hcur. rewrite Hcur in H.
      injection H as <- _. exists "". symmetry. apply app_empty_r.
    + apply IH in H; [|apply app_not_empty].
      destruct H as [t ->]. exists (String c t). apply app_snoc_cons.
Qed.

(** Words are never empty. *)
Lemma split_go_nonempty s : ∀ cur, Forall (λ t, t ≠ "") (PyStr.split_go cur s).
Proof.
  induction s as [|c s IH]; intros cur; simpl.
  - destruct (PyStr.is_empty cur) eqn:E; constructor; [|constructor].
    apply is_empty_false. assumption.
  - destruct (PyStr.is_space c).
    + destruct (PyStr.is_empty cur) eqn:E; [apply IH|].
      constructor; [apply is_empty_false; assumption | apply IH].
    + apply IH.
Qed.

Lemma split_nonempty line : Forall (λ t, t ≠ "") (PyStr.split line).
Proof. apply split_go_nonempty. Qed.

Lemma split_first_char c r tok toks :
  PyStr.is_space c = false → PyStr.split (String c r) = tok :: toks →
  ∃ t, tok = String c t.
Proof.
  intros Hc H. unfold PyStr.split in H. simpl in H. rewrite Hc in H.
  apply split_go_head in H; [|discriminate]. destruct H as [t ->].
  exists t. reflexivity.
Qed.

(** A line whose first word is a plain keyword is neither a comment nor an
    [undef] line. *)
Lemma keyword_line line kw rest :
  PyStr.split line = kw :: rest →
  PyStr.startswith "#" kw = false → kw ≠ "undef" →
  is_skipped line = false ∧ PyStr.startswith "undef " line = false.
Proof.
  intros Hsplit Hhash Hundef.
  destruct line as [|c r]; [discriminate|].
  unfold is_skipped, PyStr.startswith in *.
  change (PyStr.is_empty (String c r)) with false. rewrite !prefix_cons.
  destruct (PyStr.is_space c) eqn:Hc.
  - destruct (Ascii.eqb "#" c) eqn:E1; [apply Ascii.eqb_eq in E1; subst c; discriminate|].
    destruct (Ascii.eqb "u" c) eqn:E2; [apply Ascii.eqb_eq in E2; subst c; discriminate|].
    split; reflexivity.
  - destruct (split_first_char _ _ _ _ Hc Hsplit) as [t ->]. split.
    + rewrite prefix_cons in Hhash.
      destruct (Ascii.eqb "#" c); [|reflexivity].
      destruct t; discriminate.
    + rewrite <- prefix_cons.
      destruct (String.prefix "undef " (String c r)) eqn:Hp; [|reflexivity].
      apply prefix_app in Hp. destruct Hp as [r' Hr']. rewrite Hr' in Hsplit.
      vm_compute in Hsplit. fold (PyStr.split_go "" r') in Hsplit. congruence.
Qed.

(** ** The directive loop *)

Section DirectiveLoop.

Variable board_ids : gmap string Z.
Variable float_ok : string → bool.

Lemma imap_make_uart_fresh toks : Forall fresh_uart (imap make_uart toks).
Proof.
  apply Forall_forall. intros u Hu.
  apply elem_of_lookup_imap in Hu. destruct Hu as (i & tok & -> & _).
  repeat split.
Qed.

Lemma process_step_defines st line st' :
  process_step board_ids float_ok st line = Some st' →
  BoardData.defines st'.1
  = match define_of line with
    | Some kv => insert_entry (BoardData.defines st.1) kv
    | None => BoardData.defines st.1
    end.
Proof.
  unfold process_step, define_of. intros H.
  destruct (is_skipped line); [by simplify_eq|].
  destruct (PyStr.startswith "undef " line).
  - destruct (undef_name line); simplify_eq/=. reflexivity.
  - destruct (PyStr.split line) as [|kw rest] eqn:Hs; simplify_eq/=; [reflexivity|].
    rewrite process_line_defines.
    destruct (is_define_directive (kw :: rest) line); reflexivity.
Qed.

Lemma process_step_spi_devices st line st' :
  process_step board_ids float_ok st line = Some st' →
  BoardData.spi_devices st'.1
  = BoardData.spi_devices st.1 ++ option_list (spidev_of line).
Proof.
  unfold process_step, spidev_of. intros H.
  destruct (is_skipped line); [simplify_eq; by rewrite app_nil_r|].
  destruct (PyStr.startswith "undef " line).
  - destruct (undef_name line); simplify_eq/=. by rewrite app_nil_r.
  - destruct (PyStr.split line) as [|kw rest] eqn:Hs; simplify_eq/=;
      [by rewrite app_nil_r|].
    rewrite process_line_spi_devices.
    destruct (is_spidev_directive (kw :: rest) line); simpl;
      [reflexivity | by rewrite app_nil_r].
Qed.

Lemma directive_frame_refl b : directive_frame b b.
Proof. repeat split. Qed.

Lemma directive_frame_trans b1 b2 b3 :
  directive_frame b1 b2 → directive_frame b2 b3 → directive_frame b1 b3.
Proof.
  unfold directive_frame. intros H1 H2. destruct_and!. repeat split; congruence.
Qed.

Lemma process_step_frame st line st' :
  process_step board_ids float_ok st line = Some st' →
  directive_frame st.1 st'.1.
Proof.
  unfold process_step. intros H.
  destruct (is_skipped line); [simplify_eq; apply directive_frame_refl|].
  destruct (PyStr.startswith "undef " line).
  - destruct (undef_name line); simplify_eq/=. apply directive_frame_refl.
  - destruct (PyStr.split line) as [|kw rest] eqn:Hs; simplify_eq/=;
      [apply directive_frame_refl|].
    apply process_line_frame.
Qed.

Lemma process_step_fresh st line st' :
  process_step board_ids float_ok st line = Some st' →
  Forall fresh_uart (BoardData.uarts st.1) →
  Forall fresh_uart (BoardData.uarts st'.1).
Proof.
  unfold process_step. intros H Hf.
  destruct (is_skipped line); [by simplify_eq|].
  destruct (PyStr.startswith "undef " line).
  - destruct (undef_name line); by simplify_eq/=.
  - destruct (PyStr.split line) as [|kw rest] eqn:Hs; simplify_eq/=; [done|].
    destruct (process_line_uarts board_ids float_ok st.1 (kw :: rest) line st.2)
      as [-> | ->]; [done | apply imap_make_uart_fresh].
Qed.

Lemma process_lines_defines lines : ∀ st st',
  process_lines board_ids float_ok st lines = Some st' →
  BoardData.defines st'.1
  = fold_left insert_entry (omap define_of lines) (BoardData.defines st.1).
Proof.
  induction lines as [|line rest IH]; intros st st' H; simpl in H.
  - by simplify_eq.
  - destruct (process_step board_ids float_ok st line) as [st1|] eqn:Hstep;
      [|discriminate]. simpl in H.
    rewrite (IH _ _ H). rewrite (process_step_defines _ _ _ Hstep). simpl.
    destruct (define_of line); reflexivity.
Qed.

Lemma process_lines_spi_devices lines : ∀ st st',
  process_lines board_ids float_ok st lines = Some st' →
  BoardData.spi_devices st'.1 = BoardData.spi_devices st.1 ++ omap spidev_of lines.
Proof.
  induction lines as [|line rest IH]; intros st st' H; simpl in H.
  - simplify_eq. by rewrite app_nil_r.
  - destruct (process_step board_ids float_ok st line) as [st1|] eqn:Hstep;
      [|discriminate]. simpl in H.
    rewrite (IH _ _ H). rewrite (process_step_spi_devices _ _ _ Hstep). simpl.
    rewrite <- app_assoc. destruct (spidev_of line); reflexivity.
Qed.

Lemma process_lines_frame lines : ∀ st st',
  process_lines board_ids float_ok st lines = Some st' →
  directive_frame st.1 st'.1.
Proof.
  induction lines as [|line rest IH]; intros st st' H; simpl in H.
  - simplify_eq. apply directive_frame_refl.
  - destruct (process_step board_ids float_ok st line) as [st1|] eqn:Hstep;
      [|discriminate]. simpl in H.
    eapply directive_frame_trans; [eapply process_step_frame, Hstep | eapply IH, H].
Qed.

Lemma process_lines_fresh lines : ∀ st st',
  process_lines board_ids float_ok st lines = Some st' →
  Forall fresh_uart (BoardData.uarts st.1) →
  Forall fresh_uart (BoardData.uarts st'.1).
Proof.
  induction lines as [|line rest IH]; intros st st' H Hf; simpl in H.
  - by simplify_eq.
  - destruct (process_step board_ids float_ok st line) as [st1|] eqn:Hstep;
      [|discriminate]. simpl in H.
    eapply IH; [exact H|]. eapply process_step_fresh; eauto.
Qed.

Lemma process_lines_app l1 : ∀ l2 st,
  process_lines board_ids float_ok st (l1 ++ l2)
  = st' ← process_lines board_ids float_ok st l1;
    process_lines board_ids float_ok st' l2.
Proof.
  induction l1 as [|line rest IH]; intros l2 st; simpl; [reflexivity|].
  destruct (process_step board_ids float_ok st line); simpl; [apply IH | reflexivity].
Qed.

End DirectiveLoop.

(** ** The passes after the loop *)

Section PostProcess.

Variable board_ids : gmap string Z.
Variable float_ok : string → bool.
Variable orders : ChipOrders.

#[local] Arguments Nat.leb : simpl never.
#[local] Arguments Nat.ltb : simpl never.

Lemma resolve_board_id_frame b :
  BoardData.defines (resolve_board_id board_ids b) = BoardData.defines b ∧
  BoardData.uarts (resolve_board_id board_ids b) = BoardData.uarts b ∧
  BoardData.pwm_outputs (resolve_board_id board_ids b) = BoardData.pwm_outputs b ∧
  BoardData.output_groups (resolve_board_id board_ids b) = BoardData.output_groups b ∧
  BoardData.sensors (resolve_board_id board_ids b) = BoardData.sensors b ∧
  BoardData.spi_devices (resolve_board_id board_ids b) = BoardData.spi_devices b ∧
  BoardData.rc_input (resolve_board_id board_ids b) = BoardData.rc_input b ∧
  BoardData.header_comments (resolve_board_id board_ids b) = BoardData.header_comments b.
Proof. unfold resolve_board_id. branch_cases; repeat split; reflexivity. Qed.

Lemma detect_rc_input_frame b lines :
  BoardData.defines (detect_rc_input b lines) = BoardData.defines b ∧
  BoardData.uarts (detect_rc_input b lines) = BoardData.uarts b ∧
  BoardData.pwm_outputs (detect_rc_input b lines) = BoardData.pwm_outputs b ∧
  BoardData.output_groups (detect_rc_input b lines) = BoardData.output_groups b ∧
  BoardData.sensors (detect_rc_input b lines) = BoardData.sensors b ∧
  BoardData.spi_devices (detect_rc_input b lines) = BoardData.spi_devices b.
Proof. unfold detect_rc_input. branch_cases; repeat split; reflexivity. Qed.

Lemma post_process_defines b lines :
  BoardData.defines (post_process board_ids orders b lines) = BoardData.defines b.
Proof.
  unfold post_process. cbv zeta.
  destruct (resolve_board_id_frame
    (parse_uart_details (detect_rc_input (detect_sensors orders (compute_output_groups b)) lines) lines))
    as (-> & _).
  simpl. destruct (detect_rc_input_frame (detect_sensors orders (compute_output_groups b)) lines)
    as (-> & _). reflexivity.
Qed.

Lemma post_process_uarts b lines :
  BoardData.uarts (post_process board_ids orders b lines)
  = update_uart (uart_pins_of lines) (nodma_uarts_of lines) <$> BoardData.uarts b.
Proof.
  unfold post_process. cbv zeta.
  destruct (resolve_board_id_frame
    (parse_uart_details (detect_rc_input (detect_sensors orders (compute_output_groups b)) lines) lines))
    as (_ & -> & _).
  simpl. destruct (detect_rc_input_frame (detect_sensors orders (compute_output_groups b)) lines)
    as (_ & -> & _). reflexivity.
Qed.

Lemma post_process_pwm_outputs b lines :
  BoardData.pwm_outputs (post_process board_ids orders b lines) = BoardData.pwm_outputs b.
Proof.
  unfold post_process. cbv zeta.
  destruct (resolve_board_id_frame
    (parse_uart_details (detect_rc_input (detect_sensors orders (compute_output_groups b)) lines) lines))
    as (_ & _ & -> & _).
  simpl. destruct (detect_rc_input_frame (detect_sensors orders (compute_output_groups b)) lines)
    as (_ & _ & -> & _). reflexivity.
Qed.

Lemma post_process_output_groups b lines :
  BoardData.output_groups (post_process board_ids orders b lines)
  = BoardData.output_groups b ++ output_groups_of (BoardData.pwm_outputs b).
Proof.
  unfold post_process. cbv zeta.
  destruct (resolve_board_id_frame
    (parse_uart_details (detect_rc_input (detect_sensors orders (compute_output_groups b)) lines) lines))
    as (_ & _ & _ & -> & _).
  simpl. destruct (detect_rc_input_frame (detect_sensors orders (compute_output_groups b)) lines)
    as (_ & _ & _ & -> & _). reflexivity.
Qed.

Lemma post_process_sensors b lines :
  BoardData.sensors (post_process board_ids orders b lines)
  = fold_left (detect_device orders) (BoardData.spi_devices b) (BoardData.sensors b).
Proof.
  unfold post_process. cbv zeta.
  destruct (resolve_board_id_frame
    (parse_uart_details (detect_rc_input (detect_sensors orders (compute_output_groups b)) lines) lines))
    as (_ & _ & _ & _ & -> & _).
  simpl. destruct (detect_rc_input_frame (detect_sensors orders (compute_output_groups b)) lines)
    as (_ & _ & _ & _ & -> & _). reflexivity.
Qed.

Lemma post_process_rc_input b lines :
  BoardData.rc_input (post_process board_ids orders b lines)
  = BoardData.rc_input (detect_rc_input b lines).
Proof.
  unfold post_process. cbv zeta.
  destruct (resolve_board_id_frame
    (parse_uart_details (detect_rc_input (detect_sensors orders (compute_output_groups b)) lines) lines))
    as (_ & _ & _ & _ & _ & _ & -> & _).
  simpl. unfold detect_rc_input, serial_input_enabled.
  destruct (rc_scan lines); simpl;
    destruct (String.eqb (default "" (BoardData.defines b !! "HAL_SERIAL_INPUT_ENABLED")) "1");
    reflexivity.
Qed.

(** A parsed board is the record of the directive loop, post-processed. *)
Lemma parse_board_inv folder lines board :
  parse_board board_ids float_ok orders folder lines = Some board →
  ∃ b0 undefs,
    process_lines board_ids float_ok (initial_board folder lines, ∅) lines = Some (b0, undefs)
    ∧ board = post_process board_ids orders b0 lines.
Proof.
  unfold parse_board, directive_pass. intros H.
  destruct (process_lines board_ids float_ok (initial_board folder lines, ∅) lines)
    as [[b0 undefs]|]; simplify_eq/=. eauto.
Qed.

End PostProcess.

(** ** SERIAL_ORDER *)

(** C3: a [SERIAL_ORDER] directive creates one channel per token, at the
    token's index; the channel is empty exactly for the token [EMPTY] and
    USB exactly for a token that starts with [OTG] or is [USB].  The board
    made of the single line [SERIAL_ORDER OTG1 USART1 EMPTY] has three
    channels, at indices 0, 1, 2, the first one USB and the last one
    empty. *)
Theorem serial_order_channels board_ids float_ok orders board toks line undefs :
  let board' := process_line board_ids float_ok board ("SERIAL_ORDER" :: toks) line undefs in
  BoardData.serial_order board' = toks ∧
  length (BoardData.uarts board') = length toks ∧
  (∀ i tok, toks !! i = Some tok →
     ∃ u, BoardData.uarts board' !! i = Some u ∧
          UartDef.serial_index u = Z.of_nat i ∧
          UartDef.uart_name u = tok ∧
          (UartDef.is_empty u = true ↔ tok = "EMPTY") ∧
          (UartDef.is_usb u = true ↔ PyStr.startswith "OTG" tok = true ∨ tok = "USB")) ∧
  (λ b, (λ u, (UartDef.serial_index u, UartDef.is_usb u, UartDef.is_empty u))
          <$> BoardData.uarts b)
    <$> parse_board board_ids float_ok orders "board" ["SERIAL_ORDER OTG1 USART1 EMPTY"]
  = Some [(0, true, false); (1, false, false); (2, false, true)].
Proof.
  cbv zeta.
  assert (Hu : BoardData.uarts
            (process_line board_ids float_ok board ("SERIAL_ORDER" :: toks) line undefs)
          = imap make_uart toks) by reflexivity.
  rewrite Hu. split; [reflexivity|]. split; [apply length_imap|]. split.
  - intros i tok Htok. exists (make_uart i tok). split.
    + rewrite list_lookup_imap, Htok. reflexivity.
    + simpl. repeat split; try apply String.eqb_eq.
      * intros H. apply orb_true_iff in H. destruct H as [H|H]; [left; exact H|].
        right. apply String.eqb_eq. exact H.
      * intros [H|H]; apply orb_true_iff; [left; exact H|].
        right. apply String.eqb_eq. exact H.
  - vm_compute. reflexivity.
Qed.

Lemma serial_order_channels_witness :
  ["OTG1"; "USART1"; "EMPTY"] !! 2%nat = Some "EMPTY" ∧
  ∃ u, BoardData.uarts
         (process_line ∅ no_float BoardData.default
            ["SERIAL_ORDER"; "OTG1"; "USART1"; "EMPTY"]
            "SERIAL_ORDER OTG1 USART1 EMPTY" ∅) !! 2%nat = Some u ∧
       UartDef.serial_index u = 2 ∧ UartDef.is_empty u = true.
Proof.
  split; [reflexivity|].
  destruct (serial_order_channels ∅ no_float source_orders BoardData.default
              ["OTG1"; "USART1"; "EMPTY"] "SERIAL_ORDER OTG1 USART1 EMPTY" ∅)
    as (_ & _ & H & _).
  destruct (H 2%nat "EMPTY" eq_refl) as (u & Hu & Hi & _ & He & _).
  exists u. split; [exact Hu|]. split; [exact Hi|]. apply He. reflexivity.
Defined.

(** ** The raw-directive table *)

Lemma fold_insert_entry_other kvs : ∀ (m : gmap string string) name,
  (∀ kv, kv ∈ kvs → kv.1 ≠ name) →
  fold_left insert_entry kvs m !! name = m !! name.
Proof.
  induction kvs as [|kv kvs IH]; intros m name H; simpl; [reflexivity|].
  rewrite IH.
  - unfold insert_entry. apply lookup_insert_ne. apply H. left.
  - intros kv' Hin. apply H. right. exact Hin.
Qed.

Lemma fold_insert_entry_some kvs : ∀ (m : gmap string string) name,
  is_Some (m !! name) → is_Some (fold_left insert_entry kvs m !! name).
Proof.
  induction kvs as [|kv kvs IH]; intros m name H; simpl; [exact H|].
  apply IH. unfold insert_entry.
  destruct (decide (kv.1 = name)) as [->|Hne].
  - rewrite lookup_insert_eq. eauto.
  - rewrite lookup_insert_ne; assumption.
Qed.

(** The words of a [define] directive give its table entry. *)
Lemma define_of_directive line name v vs :
  PyStr.split line = "define" :: name :: v :: vs →
  (4 <=? length (PyStr.split line))%nat && PyStr.contains "PWM(" line = false →
  define_of line = Some (name, PyStr.join " " (v :: vs)).
Proof.
  intros Hsplit Hpwm. unfold define_of.
  destruct (keyword_line line "define" (name :: v :: vs) Hsplit) as [-> ->];
    [reflexivity | discriminate |].
  unfold is_define_directive. rewrite Hpwm. rewrite Hsplit. reflexivity.
Qed.

(** C4, as the code has it: for every line of the flattened sequence whose
    words are [define NAME v1 ... vn] (n at least 1) and that the PWM-output
    rule does not capture, the raw-directive table of the parsed board has
    an entry for [NAME]; when no later line defines [NAME] again, the entry
    is the words [v1 ... vn] joined by single blanks. *)
Theorem define_table_entry board_ids float_ok orders folder lines board
    pre line post name v vs :
  parse_board board_ids float_ok orders folder lines = Some board →
  lines = pre ++ line :: post →
  PyStr.split line = "define" :: name :: v :: vs →
  (4 <=? length (PyStr.split line))%nat && PyStr.contains "PWM(" line = false →
  is_Some (BoardData.defines board !! name) ∧
  ((∀ l val, l ∈ post → define_of l ≠ Some (name, val)) →
   BoardData.defines board !! name = Some (PyStr.join " " (v :: vs))).
Proof.
  intros Hparse -> Hsplit Hpwm.
  apply parse_board_inv in Hparse. destruct Hparse as (b0 & undefs & Hloop & ->).
  rewrite post_process_defines.
  apply process_lines_defines in Hloop. simpl in Hloop. rewrite Hloop.
  rewrite omap_app. simpl.
  rewrite (define_of_directive _ _ _ _ Hsplit Hpwm).
  rewrite fold_left_app. simpl.
  set (m := fold_left insert_entry (omap define_of pre)
              (BoardData.defines (initial_board folder (pre ++ line :: post)))).
  split.
  - apply fold_insert_entry_some. unfold insert_entry. simpl.
    rewrite lookup_insert_eq. eauto.
  - intros Hlast. rewrite fold_insert_entry_other;
      [unfold insert_entry; simpl; apply lookup_insert_eq|].
    intros [k val] Hin Hk. simpl in Hk. subst k.
    apply list_elem_of_omap in Hin. destruct Hin as (l & Hl & Hdef).
    exact (Hlast l val Hl Hdef).
Qed.

Lemma define_table_entry_witness :
  (λ b, BoardData.defines b !! "HAL_STORAGE_SIZE")
    <$> parse_board ∅ no_float source_orders "board"
      ["MCU STM32H7xx STM32H743xx"; "define HAL_STORAGE_SIZE 16384"; "SERIAL_ORDER OTG1"]
  = Some (Some "16384").
Proof.
  destruct (parse_board ∅ no_float source_orders "board"
      ["MCU STM32H7xx STM32H743xx"; "define HAL_STORAGE_SIZE 16384"; "SERIAL_ORDER OTG1"])
    as [board|] eqn:Hp; [|vm_compute in Hp; discriminate].
  simpl. f_equal.
  refine (proj2 (define_table_entry ∅ no_float source_orders "board" _ board
            ["MCU STM32H7xx STM32H743xx"] "define HAL_STORAGE_SIZE 16384"
            ["SERIAL_ORDER OTG1"] "HAL_STORAGE_SIZE" "16384" [] Hp eq_refl eq_refl eq_refl) _).
  intros l val Hl Hdef.
  apply list_elem_of_singleton in Hl. subst l. vm_compute in Hdef. discriminate.
Defined.

(** The value of a [define] is not kept verbatim: a run of blanks inside
    it is stored as one blank, and a later [define] of the same name
    replaces the earlier value. *)
Lemma define_not_verbatim :
  (λ b, BoardData.defines b !! "BOARD_LABEL")
    <$> parse_board ∅ no_float source_orders "board" ["define BOARD_LABEL Matek  H743"]
    = Some (Some "Matek H743")
  ∧ (λ b, BoardData.defines b !! "BOARD_LABEL")
    <$> parse_board ∅ no_float source_orders "board" ["define BOARD_LABEL Matek  H743"]
    ≠ Some (Some "Matek  H743")
  ∧ (λ b, BoardData.defines b !! "HAL_X")
    <$> parse_board ∅ no_float source_orders "board" ["define HAL_X 1"; "define HAL_X 2"]
    = Some (Some "2").
Proof.
  split; [|split].
  - vm_compute. reflexivity.
  - vm_compute. discriminate.
  - vm_compute. reflexivity.
Qed.

(** ** Output groups *)

Lemma string_eqb_decide (a b : string) : String.eqb a b = bool_decide (a = b).
Proof.
  destruct (String.eqb a b) eqn:E.
  - apply String.eqb_eq in E. symmetry. by apply bool_decide_eq_true.
  - apply String.eqb_neq in E. symmetry. by apply bool_decide_eq_false.
Qed.

Lemma setdefault_append_keys k v d :
  (setdefault_append k v d).*1 = if bool_decide (k ∈ d.*1) then d.*1 else d.*1 ++ [k].
Proof.
  induction d as [|[k' vs] d IH]; csimpl; [reflexivity|].
  rewrite string_eqb_decide. destruct (decide (k = k')) as [->|Hne].
  - rewrite bool_decide_eq_true_2 by reflexivity. csimpl.
    rewrite bool_decide_eq_true_2; [reflexivity | left].
  - rewrite bool_decide_eq_false_2 by assumption. csimpl. rewrite IH.
    destruct (decide (k ∈ d.*1)) as [Hin|Hin].
    + rewrite !bool_decide_eq_true_2; [reflexivity | by right | assumption].
    + rewrite !bool_decide_eq_false_2; [reflexivity | | assumption].
      intros Hc. apply elem_of_cons in Hc. tauto.
Qed.

Lemma setdefault_append_NoDup k v d :
  NoDup d.*1 → NoDup (setdefault_append k v d).*1.
Proof.
  intros Hd. rewrite setdefault_append_keys. case_bool_decide; [assumption|].
  apply NoDup_app. split; [assumption|]. split; [|apply NoDup_singleton].
  intros x Hx Hx'. apply list_elem_of_singleton in Hx'. by subst.
Qed.

Lemma setdefault_append_map k v (d : list (string * list OutputPin.t)) :
  (list_to_map (setdefault_append k v d) : gmap string (list OutputPin.t))
  = <[k := default [] ((list_to_map d : gmap string (list OutputPin.t)) !! k) ++ [v]]>
      (list_to_map d).
Proof.
  induction d as [|[k' vs] d IH]; csimpl; [reflexivity|].
  rewrite string_eqb_decide. destruct (decide (k = k')) as [->|Hne].
  - rewrite bool_decide_eq_true_2 by reflexivity. csimpl.
    rewrite lookup_insert_eq. csimpl. by rewrite insert_insert_eq.
  - rewrite bool_decide_eq_false_2 by assumption. csimpl. rewrite IH.
    rewrite lookup_insert_ne by congruence. apply insert_insert_ne. congruence.
Qed.

Lemma setdefault_append_concat k v d :
  concat (setdefault_append k v d).*2 ≡ₚ concat d.*2 ++ [v].
Proof.
  induction d as [|[k' vs] d IH]; csimpl; [reflexivity|].
  destruct (String.eqb k k'); csimpl.
  - rewrite <- !app_assoc. apply Permutation_app_head. apply Permutation_app_comm.
  - rewrite IH. by rewrite app_assoc.
Qed.

Lemma timer_groups_snoc outs o :
  timer_groups (outs ++ [o]) = setdefault_append (OutputPin.timer o) o (timer_groups outs).
Proof. unfold timer_groups. by rewrite fold_left_app. Qed.

Lemma timer_groups_NoDup outs : NoDup (timer_groups outs).*1.
Proof.
  induction outs as [|o outs IH] using rev_ind; [constructor|].
  rewrite timer_groups_snoc. by apply setdefault_append_NoDup.
Qed.

Lemma timer_groups_concat outs : concat (timer_groups outs).*2 ≡ₚ outs.
Proof.
  induction outs as [|o outs IH] using rev_ind; [reflexivity|].
  rewrite timer_groups_snoc, setdefault_append_concat. by rewrite IH.
Qed.

(** The dictionary maps each timer that occurs to its pins, in order. *)
Lemma timer_groups_lookup outs k :
  (list_to_map (timer_groups outs) : gmap string (list OutputPin.t)) !! k
  = match pins_of k outs with [] => None | vs => Some vs end.
Proof.
  induction outs as [|o outs IH] using rev_ind; [reflexivity|].
  rewrite timer_groups_snoc, setdefault_append_map.
  unfold pins_of in *. rewrite filter_app.
  destruct (decide (OutputPin.timer o = k)) as [<-|Hne].
  - rewrite lookup_insert_eq, IH.
    rewrite (filter_cons_True _ o []) by reflexivity. simpl.
    destruct (filter (λ o0, OutputPin.timer o0 = OutputPin.timer o) outs); reflexivity.
  - rewrite lookup_insert_ne by assumption. rewrite IH.
    rewrite (filter_cons_False _ o []) by assumption. simpl.
    by rewrite app_nil_r.
Qed.

Lemma timer_groups_elem outs k vs :
  (k, vs) ∈ timer_groups outs ↔ vs = pins_of k outs ∧ vs ≠ [].
Proof.
  rewrite (elem_of_list_to_map (M := gmap string)) by apply timer_groups_NoDup.
  rewrite timer_groups_lookup.
  destruct (pins_of k outs) eqn:E; split.
  - discriminate.
  - intros [-> H]. done.
  - intros H. simplify_eq. done.
  - intros [-> _]. reflexivity.
Qed.

#[global] Instance timer_key_le_trans : Transitive timer_key_le.
Proof. intros a b c. unfold timer_key_le. apply transitivity. Qed.

#[global] Instance timer_key_le_total : Total timer_key_le.
Proof. intros a b. unfold timer_key_le. apply total. apply _. Qed.

#[global] Instance number_le_total : Total number_le.
Proof. intros a b. unfold number_le. lia. Qed.

Lemma output_groups_of_elem outs g :
  g ∈ output_groups_of outs ↔
  ∃ k, pins_of k outs ≠ [] ∧ g = make_group (k, pins_of k outs).
Proof.
  unfold output_groups_of. rewrite list_elem_of_fmap. split.
  - intros ([k vs] & -> & Hin). rewrite merge_sort_Permutation in Hin.
    apply timer_groups_elem in Hin. destruct Hin as [-> Hne]. eauto.
  - intros (k & Hne & ->). exists (k, pins_of k outs). split; [reflexivity|].
    rewrite merge_sort_Permutation. by apply timer_groups_elem.
Qed.

Lemma existsb_bidir_sorted vs :
  existsb OutputPin.bidir (merge_sort number_le vs) = true ↔
  ∃ o, o ∈ vs ∧ OutputPin.bidir o = true.
Proof.
  rewrite existsb_exists. split; intros (o & Ho & Hb); exists o; split; try assumption.
  - apply list_elem_of_In in Ho. by rewrite merge_sort_Permutation in Ho.
  - apply list_elem_of_In. by rewrite merge_sort_Permutation.
Qed.

Lemma initial_board_frame folder lines :
  BoardData.output_groups (initial_board folder lines) = [] ∧
  BoardData.rc_input (initial_board folder lines) = RcInput.default ∧
  BoardData.sensors (initial_board folder lines) = BuiltinSensors.default ∧
  BoardData.spi_devices (initial_board folder lines) = [] ∧
  BoardData.uarts (initial_board folder lines) = [] ∧
  BoardData.defines (initial_board folder lines) = ∅.
Proof. repeat split. Qed.

(** The groups of a parsed board are those of its own pin list. *)
Lemma parse_board_output_groups board_ids float_ok orders folder lines board :
  parse_board board_ids float_ok orders folder lines = Some board →
  BoardData.output_groups board = output_groups_of (BoardData.pwm_outputs board).
Proof.
  intros Hparse. apply parse_board_inv in Hparse.
  destruct Hparse as (b0 & undefs & Hloop & ->).
  rewrite post_process_output_groups, post_process_pwm_outputs.
  apply process_lines_frame in Hloop. destruct Hloop as (Hg & _). simpl in Hg.
  rewrite Hg. reflexivity.
Qed.

Lemma timer_caps_spec k vs :
  "PWM" ∈ timer_caps k vs ∧
  ("DShot" ∈ timer_caps k vs ↔ ∃ n, timer_num k = Some n ∧ n ≤ 8) ∧
  ("BDShot" ∈ timer_caps k vs ↔
     "DShot" ∈ timer_caps k vs ∧ existsb OutputPin.bidir vs = true).
Proof.
  unfold timer_caps. split; [left|].
  destruct (timer_num k) as [n|]; [destruct (Z.leb_spec n 8) as [Hle|Hgt]|];
    [destruct (existsb OutputPin.bidir vs)|..]; simpl;
    rewrite ?elem_of_cons, ?elem_of_nil.
  - split; split.
    + intros _. eauto.
    + intros _. right. left. reflexivity.
    + intros _. split; [right; left|]; reflexivity.
    + intros _. do 2 right. left. reflexivity.
  - split; split.
    + intros _. eauto.
    + intros _. right. left. reflexivity.
    + intros [H|[H|H]]; [discriminate..|destruct H].
    + intros [_ H]. discriminate.
  - split; split.
    + intros [H|H]; [discriminate|destruct H].
    + intros (m & Hm & Hle). simplify_eq. lia.
    + intros [H|H]; [discriminate|destruct H].
    + intros [[H|H] _]; [discriminate|destruct H].
  - split; split.
    + intros [H|H]; [discriminate|destruct H].
    + intros (m & Hm & Hle). discriminate.
    + intros [H|H]; [discriminate|destruct H].
    + intros [[H|H] _]; [discriminate|destruct H].
Qed.

(** *** The number of a timer *)

Lemma not_decimal_digit d : ¬ decimal_digit d → PyStr.is_digit d = false.
Proof.
  intros H. destruct (PyStr.is_digit d) eqn:E; [|reflexivity].
  apply is_digit_range in E. contradiction.
Qed.

Lemma re_search_hit {A} (m : string → option A) s r :
  m s = Some r → PyStr.re_search m s = Some r.
Proof. intros H. destruct s; cbn [PyStr.re_search]; by rewrite H. Qed.

Lemma re_search_miss {A} (m : string → option A) c s :
  m (String c s) = None → PyStr.re_search m (String c s) = PyStr.re_search m s.
Proof. intros H. cbn [PyStr.re_search]. by rewrite H. Qed.

(** [TIM(\d+)] does not match at the start of a string that does not
    start with [TIM] and a digit. *)
Lemma match_num_none x :
  (∀ d b, x = "TIM" +:+ String d b → PyStr.is_digit d = false) →
  PyStr.match_num "TIM" x = None.
Proof.
  intros H. unfold PyStr.match_num.
  destruct (String.prefix "TIM" x) eqn:E; [|reflexivity].
  apply prefix_app in E. destruct E as [r ->]. rewrite drop_prefix_app.
  destruct r as [|d b]; [reflexivity|].
  simpl. by rewrite (H d b eq_refl).
Qed.

(** [TIM(\d+)] at the start of [TIM<digits><rest>] captures the digits. *)
Lemma match_num_digits ds rest :
  ds ≠ "" → all_chars PyStr.is_digit ds = true →
  (∀ d r, rest = String d r → PyStr.is_digit d = false) →
  PyStr.match_num "TIM" ("TIM" +:+ ds +:+ rest) = Some ds.
Proof.
  intros Hne Hds Hrest. unfold PyStr.match_num.
  rewrite app_prefix, drop_prefix_app, (span_digits_app _ _ Hds Hrest).
  apply is_empty_false in Hne. by rewrite Hne.
Qed.

Lemma re_search_unnumbered k :
  (∀ a d b, k = a +:+ "TIM" +:+ String d b → PyStr.is_digit d = false) →
  PyStr.re_search (PyStr.match_num "TIM") k = None.
Proof.
  induction k as [|c k IH]; intros H; [reflexivity|].
  rewrite re_search_miss.
  - apply IH. intros a d b ->. apply (H (String c a) d b). by rewrite app_cons.
  - apply match_num_none. intros d b E. exact (H "" d b E).
Qed.

(** The search passes over a prefix in which no [TIM] has a digit after
    it: no match starts there, not even one that runs into the [TIM] that
    follows. *)
Lemma re_search_skip pre s :
  (∀ a d b, pre = a +:+ "TIM" +:+ String d b → PyStr.is_digit d = false) →
  PyStr.re_search (PyStr.match_num "TIM") (pre +:+ "TIM" +:+ s)
  = PyStr.re_search (PyStr.match_num "TIM") ("TIM" +:+ s).
Proof.
  induction pre as [|c p IH]; intros H; [reflexivity|].
  rewrite app_cons, re_search_miss.
  - apply IH. intros a d b ->. apply (H (String c a) d b). by rewrite app_cons.
  - apply match_num_none. intros d b E.
    change ("TIM" +:+ String d b)
      with (String "T" (String "I" (String "M" (String d b)))) in E.
    change ("TIM" +:+ s) with (String "T" (String "I" (String "M" s))) in E.
    destruct p as [|c1 [|c2 [|c3 p3]]].
    + change ("" +:+ ?x) with x in E. simplify_eq.
    + rewrite app_cons in E. change ("" +:+ ?x) with x in E. simplify_eq.
    + rewrite !app_cons in E. change ("" +:+ ?x) with x in E. by simplify_eq.
    + rewrite !app_cons in E. simplify_eq. exact (H "" _ _ eq_refl).
Qed.

Lemma timer_num_numbered name n :
  numbered_timer name n → timer_num name = Some (Z.of_N n).
Proof.
  intros (pre & zeros & rest & -> & Hpre & Hz & Hrest).
  destruct (pretty_N_digits n) as (Hne & Hd & Hv).
  unfold timer_num. rewrite re_search_skip, <- (str_app_assoc zeros).
  - rewrite (re_search_hit _ _ (zeros +:+ pretty n)).
    + simpl. by rewrite digits_val_app, digits_val_zeros, Hv.
    + apply match_num_digits.
      * destruct zeros; [exact Hne|discriminate].
      * by rewrite all_chars_app, zeros_digits, Hd.
      * intros d r E. apply not_decimal_digit. by eapply Hrest.
  - intros a d b E. apply not_decimal_digit. by eapply Hpre.
Qed.

Lemma timer_num_unnumbered name :
  unnumbered_timer name → timer_num name = None.
Proof.
  intros H. unfold timer_num. rewrite re_search_unnumbered; [reflexivity|].
  intros a d b E. apply not_decimal_digit. by eapply H.
Qed.

(** C1: every output group of a board has the capability [PWM].  A group
    whose timer name carries a number (the decimal numeral that follows
    the first [TIM] with a digit after it) has [DShot] exactly when that
    number is at most 8; a group whose timer name carries no number has
    [PWM] only.  [BDShot] is in the capability list exactly when [DShot] is
    and some pin of the group is bidirectional. *)
Theorem group_capabilities board_ids float_ok orders folder lines board g :
  parse_board board_ids float_ok orders folder lines = Some board →
  g ∈ BoardData.output_groups board →
  "PWM" ∈ OutputGroup.capabilities g ∧
  (∀ n, numbered_timer (OutputGroup.timer g) n →
        ("DShot" ∈ OutputGroup.capabilities g ↔ (n ≤ 8)%N)) ∧
  (unnumbered_timer (OutputGroup.timer g) → OutputGroup.capabilities g = ["PWM"]) ∧
  ("BDShot" ∈ OutputGroup.capabilities g ↔
     "DShot" ∈ OutputGroup.capabilities g ∧
     ∃ o, o ∈ BoardData.pwm_outputs board ∧
          OutputPin.timer o = OutputGroup.timer g ∧ OutputPin.bidir o = true).
Proof.
  intros Hparse Hg.
  rewrite (parse_board_output_groups _ _ _ _ _ _ Hparse) in Hg.
  apply output_groups_of_elem in Hg. destruct Hg as (k & Hne & ->).
  unfold make_group. simpl.
  destruct (timer_caps_spec k (merge_sort number_le (pins_of k (BoardData.pwm_outputs board))))
    as (Hpwm & Hds & Hbd).
  split; [exact Hpwm|]. split; [|split].
  - intros n Hn. apply timer_num_numbered in Hn. rewrite Hds, Hn. split.
    + intros (m & Hm & Hle). simplify_eq. lia.
    + intros Hle. exists (Z.of_N n). split; [reflexivity|lia].
  - intros Hun. unfold timer_caps. by rewrite (timer_num_unnumbered _ Hun).
  - rewrite Hbd, existsb_bidir_sorted. split; intros [Hd (o & Ho & Hb)];
      (split; [exact Hd|]); exists o.
    + unfold pins_of in Ho. apply list_elem_of_filter in Ho. tauto.
    + destruct Hb as [Ht Hb]. split; [|exact Hb].
      unfold pins_of. apply list_elem_of_filter. tauto.
Qed.

Lemma group_capabilities_witness :
  ∃ board,
    parse_board ∅ no_float source_orders "board"
      ["PA0 TIM2_CH1 TIM2 PWM(1) GPIO(50) BIDIR"; "PA1 TIM2_CH2 TIM2 PWM(2) GPIO(51)";
       "PE5 TIM12_CH1 TIM12 PWM(3) GPIO(52) BIDIR"] = Some board ∧
    OutputGroup.mk [3] "TIM12" ["PWM"] ∈ BoardData.output_groups board ∧
    numbered_timer "TIM12" 12 ∧
    ("DShot" ∈ ["PWM"] ↔ (12 ≤ 8)%N).
Proof.
  destruct (parse_board ∅ no_float source_orders "board"
      ["PA0 TIM2_CH1 TIM2 PWM(1) GPIO(50) BIDIR"; "PA1 TIM2_CH2 TIM2 PWM(2) GPIO(51)";
       "PE5 TIM12_CH1 TIM12 PWM(3) GPIO(52) BIDIR"]) as [board|] eqn:Hp;
    [|vm_compute in Hp; discriminate].
  exists board. split; [reflexivity|].
  assert (Hin : OutputGroup.mk [3] "TIM12" ["PWM"] ∈ BoardData.output_groups board).
  { pose proof Hp as Hq. vm_compute in Hq. injection Hq as <-. left. }
  assert (Hnum : numbered_timer "TIM12" 12).
  { exists "", "", "". split; [reflexivity|]. split; [|split; [reflexivity|]].
    - intros a d b E. destruct a; discriminate E.
    - intros d b E. discriminate E. }
  split; [exact Hin|]. split; [exact Hnum|].
  exact (proj1 (proj2 (group_capabilities ∅ no_float source_orders "board" _ board _
                         Hp Hin)) 12%N Hnum).
Defined.

Example timer_num_ex :
  timer_num "TIM8" = Some 8 ∧ timer_num "TIM12" = Some 12 ∧ timer_num "TIM1" = Some 1
  ∧ timer_num "LPTIM" = None.
Proof. repeat split. Qed.

Lemma concat_Permutation_proper {A} (l l' : list (list A)) :
  l ≡ₚ l' → concat l ≡ₚ concat l'.
Proof.
  induction 1 as [|x l l' _ IH|x y l|l1 l2 l3 _ IH1 _ IH2]; simpl.
  - reflexivity.
  - by rewrite IH.
  - rewrite !app_assoc. apply Permutation_app_tail, Permutation_app_comm.
  - by rewrite IH1.
Qed.

Lemma concat_fmap_pointwise {A B} (f g : A → list B) l :
  (∀ x, f x ≡ₚ g x) → concat (f <$> l) ≡ₚ concat (g <$> l).
Proof.
  intros Hfg. induction l as [|x l IH]; csimpl; [reflexivity|].
  by rewrite Hfg, IH.
Qed.

Lemma concat_numbers d :
  concat ((λ item : string * list OutputPin.t, OutputPin.number <$> item.2) <$> d)
  = OutputPin.number <$> concat d.*2.
Proof.
  induction d as [|item d IH]; csimpl; [reflexivity|].
  by rewrite fmap_app, IH.
Qed.

Lemma NoDup_fmap_eq {A B} (f : A → B) l x y :
  NoDup (f <$> l) → x ∈ l → y ∈ l → f x = f y → x = y.
Proof.
  induction l as [|a l IH]; csimpl; intros Hnd Hx Hy Hf.
  - by apply elem_of_nil in Hx.
  - apply NoDup_cons in Hnd. destruct Hnd as [Ha Hnd].
    apply elem_of_cons in Hx. apply elem_of_cons in Hy.
    destruct Hx as [->|Hx], Hy as [->|Hy].
    + reflexivity.
    + exfalso. apply Ha. rewrite Hf. by apply list_elem_of_fmap_2.
    + exfalso. apply Ha. rewrite <- Hf. by apply list_elem_of_fmap_2.
    + by apply IH.
Qed.

Lemma output_groups_of_timers outs :
  OutputGroup.timer <$> output_groups_of outs
  = (merge_sort timer_key_le (timer_groups outs)).*1.
Proof. unfold output_groups_of. rewrite <- list_fmap_compose. reflexivity. Qed.

Lemma output_groups_of_concat outs :
  concat (OutputGroup.outputs <$> output_groups_of outs) ≡ₚ OutputPin.number <$> outs.
Proof.
  unfold output_groups_of. rewrite <- list_fmap_compose.
  rewrite (concat_fmap_pointwise _
             (λ item : string * list OutputPin.t, OutputPin.number <$> item.2)).
  - rewrite (concat_Permutation_proper _
               ((λ item : string * list OutputPin.t, OutputPin.number <$> item.2)
                  <$> timer_groups outs)).
    + rewrite concat_numbers. by rewrite timer_groups_concat.
    + by rewrite merge_sort_Permutation.
  - intros item. simpl. by rewrite merge_sort_Permutation.
Qed.

Lemma output_groups_of_NoDup outs : NoDup (OutputGroup.timer <$> output_groups_of outs).
Proof.
  rewrite output_groups_of_timers. rewrite merge_sort_Permutation.
  apply timer_groups_NoDup.
Qed.

Lemma output_groups_of_sorted outs :
  StronglySorted String.le (OutputGroup.timer <$> output_groups_of outs).
Proof.
  rewrite output_groups_of_timers.
  apply (StronglySorted_fmap fst timer_key_le); [by intros x y|].
  apply StronglySorted_merge_sort; apply _.
Qed.

Lemma make_group_outputs k vs :
  OutputGroup.outputs (make_group (k, vs)) ≡ₚ OutputPin.number <$> vs
  ∧ Sorted Z.le (OutputGroup.outputs (make_group (k, vs))).
Proof.
  unfold make_group. simpl. split.
  - by rewrite merge_sort_Permutation.
  - apply (Sorted_fmap OutputPin.number number_le); [by intros x y|].
    apply Sorted_merge_sort; apply _.
Qed.

(** C2, as the code has it: the groups of a board partition its pin list by
    timer name.  The output lists of the groups, put together, are a
    rearrangement of the output numbers of the pins; no two groups have the
    same timer; a group holds exactly the numbers of the pins on its timer,
    in ascending order; each pin's timer has a group; the groups come in
    ascending order of timer name.  When the output numbers of the pins are
    pairwise distinct, no number is listed twice and each pin's number is
    in exactly one group. *)
Theorem output_groups_partition board_ids float_ok orders folder lines board :
  parse_board board_ids float_ok orders folder lines = Some board →
  let groups := BoardData.output_groups board in
  let pins := BoardData.pwm_outputs board in
  concat (OutputGroup.outputs <$> groups) ≡ₚ OutputPin.number <$> pins ∧
  NoDup (OutputGroup.timer <$> groups) ∧
  (∀ g, g ∈ groups →
     OutputGroup.outputs g ≡ₚ OutputPin.number <$> pins_of (OutputGroup.timer g) pins ∧
     Sorted Z.le (OutputGroup.outputs g)) ∧
  (∀ o, o ∈ pins → ∃ g, g ∈ groups ∧ OutputGroup.timer g = OutputPin.timer o) ∧
  StronglySorted String.le (OutputGroup.timer <$> groups) ∧
  (NoDup (OutputPin.number <$> pins) →
     NoDup (concat (OutputGroup.outputs <$> groups)) ∧
     ∀ o, o ∈ pins →
       ∃ g, g ∈ groups ∧ OutputPin.number o ∈ OutputGroup.outputs g ∧
            ∀ g', g' ∈ groups → OutputPin.number o ∈ OutputGroup.outputs g' → g' = g).
Proof.
  intros Hparse. cbv zeta.
  rewrite (parse_board_output_groups _ _ _ _ _ _ Hparse).
  set (pins := BoardData.pwm_outputs board).
  assert (Hmem : ∀ g, g ∈ output_groups_of pins →
     OutputGroup.outputs g ≡ₚ OutputPin.number <$> pins_of (OutputGroup.timer g) pins ∧
     Sorted Z.le (OutputGroup.outputs g)).
  { intros g Hg. apply output_groups_of_elem in Hg. destruct Hg as (k & _ & ->).
    apply make_group_outputs. }
  assert (Hgrp : ∀ o, o ∈ pins →
     ∃ g, g ∈ output_groups_of pins ∧ OutputGroup.timer g = OutputPin.timer o).
  { intros o Ho. exists (make_group (OutputPin.timer o, pins_of (OutputPin.timer o) pins)).
    split; [|reflexivity]. apply output_groups_of_elem.
    exists (OutputPin.timer o). split; [|reflexivity].
    intros He. assert (Hin : o ∈ pins_of (OutputPin.timer o) pins).
    { unfold pins_of. apply list_elem_of_filter. by split. }
    rewrite He in Hin. by apply elem_of_nil in Hin. }
  split; [apply output_groups_of_concat|].
  split; [apply output_groups_of_NoDup|].
  split; [exact Hmem|]. split; [exact Hgrp|].
  split; [apply output_groups_of_sorted|].
  intros Hnd. split; [by rewrite output_groups_of_concat|].
  intros o Ho. destruct (Hgrp o Ho) as (g & Hg & Ht). exists g.
  split; [exact Hg|]. split.
  - destruct (Hmem g Hg) as [Hp _]. rewrite Hp, Ht.
    apply list_elem_of_fmap_2. unfold pins_of. apply list_elem_of_filter. by split.
  - intros g' Hg' Hin. destruct (Hmem g' Hg') as [Hp _]. rewrite Hp in Hin.
    apply list_elem_of_fmap in Hin. destruct Hin as (o' & Hn & Ho').
    unfold pins_of in Ho'. apply list_elem_of_filter in Ho'. destruct Ho' as [Ht' Ho'].
    assert (o = o') by (eapply NoDup_fmap_eq; eauto). subst o'.
    eapply NoDup_fmap_eq; [apply output_groups_of_NoDup | exact Hg' | exact Hg |].
    congruence.
Qed.

Lemma output_groups_partition_witness :
  ∃ board,
    parse_board ∅ no_float source_orders "board"
      ["PA0 TIM2_CH1 TIM2 PWM(2) GPIO(51)"; "PE5 TIM12_CH1 TIM12 PWM(3) GPIO(52)";
       "PA1 TIM2_CH2 TIM2 PWM(1) GPIO(50)"] = Some board ∧
    NoDup (OutputPin.number <$> BoardData.pwm_outputs board) ∧
    NoDup (concat (OutputGroup.outputs <$> BoardData.output_groups board)).
Proof.
  destruct (parse_board ∅ no_float source_orders "board"
      ["PA0 TIM2_CH1 TIM2 PWM(2) GPIO(51)"; "PE5 TIM12_CH1 TIM12 PWM(3) GPIO(52)";
       "PA1 TIM2_CH2 TIM2 PWM(1) GPIO(50)"]) as [board|] eqn:Hp;
    [|vm_compute in Hp; discriminate].
  exists board. split; [reflexivity|].
  assert (Hnd : NoDup (OutputPin.number <$> BoardData.pwm_outputs board)).
  { assert (Hnum : OutputPin.number <$> BoardData.pwm_outputs board = [2; 3; 1]).
    { pose proof Hp as Hq. vm_compute in Hq. injection Hq as <-. reflexivity. }
    rewrite Hnum.
    repeat (apply NoDup_cons; split; [rewrite ?elem_of_cons, elem_of_nil; lia|]).
    apply NoDup_nil_2. }
  split; [exact Hnd|].
  destruct (output_groups_partition ∅ no_float source_orders "board" _ board Hp)
    as (_ & _ & _ & _ & _ & H).
  exact (proj1 (H Hnd)).
Defined.

(** Two pins with the same output number on different timers: the number
    is listed by two groups. *)
Lemma output_number_in_two_groups :
  BoardData.output_groups <$>
    parse_board ∅ no_float source_orders "board"
      ["PA0 TIM2_CH1 TIM2 PWM(1) GPIO(50)"; "PB0 TIM3_CH3 TIM3 PWM(1) GPIO(50)"]
  = Some [OutputGroup.mk [1] "TIM2" ["PWM"; "DShot"];
          OutputGroup.mk [1] "TIM3" ["PWM"; "DShot"]]
  ∧ ¬ NoDup (concat (OutputGroup.outputs <$>
               [OutputGroup.mk [1] "TIM2" ["PWM"; "DShot"];
                OutputGroup.mk [1] "TIM3" ["PWM"; "DShot"]])).
Proof.
  split; [vm_compute; reflexivity|].
  simpl. intros H. apply NoDup_cons in H. destruct H as [H _]. apply H. left.
Qed.

(** ** RC input *)

Lemma rc_scan_cons line rest :
  rc_scan (line :: rest)
  = match rc_classify line with Some rc => Some rc | None => rc_scan rest end.
Proof.
  unfold rc_classify. simpl.
  destruct (is_skipped line); [reflexivity|].
  destruct (PyStr.contains "RCIN" line && PyStr.contains "TIM" line
            && (3 <=? length (PyStr.split line))%nat); [reflexivity|].
  destruct (PyStr.contains "RCIN" line
            && (PyStr.contains "USART" line || PyStr.contains "UART" line)); reflexivity.
Qed.

Lemma rc_scan_skip pre : ∀ rest,
  (∀ l, l ∈ pre → rc_classify l = None) → rc_scan (pre ++ rest) = rc_scan rest.
Proof.
  induction pre as [|l pre IH]; intros rest H; [reflexivity|].
  change ((l :: pre) ++ rest) with (l :: (pre ++ rest)).
  rewrite rc_scan_cons, (H l) by left. apply IH. intros l' Hl'. apply H. by right.
Qed.

Lemma serial_input_enabled_spec b :
  serial_input_enabled b
  = bool_decide (BoardData.defines b !! "HAL_SERIAL_INPUT_ENABLED" = Some "1").
Proof.
  unfold serial_input_enabled. rewrite string_eqb_decide.
  destruct (BoardData.defines b !! "HAL_SERIAL_INPUT_ENABLED") as [v|]; simpl.
  - apply bool_decide_ext. split; congruence.
  - reflexivity.
Qed.

Lemma parse_board_rc_input board_ids float_ok orders folder lines board :
  parse_board board_ids float_ok orders folder lines = Some board →
  BoardData.rc_input board
  = let rc := default RcInput.default (rc_scan lines) in
    if bool_decide (BoardData.defines board !! "HAL_SERIAL_INPUT_ENABLED" = Some "1")
    then RcInput.set_input_type "uart" rc else rc.
Proof.
  intros Hparse. apply parse_board_inv in Hparse.
  destruct Hparse as (b0 & undefs & Hloop & ->).
  rewrite post_process_rc_input, post_process_defines.
  apply process_lines_frame in Hloop. destruct Hloop as (_ & Hrc & _). simpl in Hrc.
  unfold detect_rc_input. rewrite <- serial_input_enabled_spec.
  destruct (rc_scan lines) as [rc|]; simpl.
  - change (serial_input_enabled (BoardData.set_rc_input rc b0))
      with (serial_input_enabled b0).
    destruct (serial_input_enabled b0); reflexivity.
  - rewrite <- Hrc. destruct (serial_input_enabled b0); reflexivity.
Qed.

(** C5, as the code has it: when the raw-directive table of the board
    holds [HAL_SERIAL_INPUT_ENABLED] with value [1], the RC-input type is
    [uart] whether or not a heuristic line exists, and the pin and timer
    that the first heuristic line recorded stay in place; otherwise the RC
    input is the one classified from the first heuristic line, or unset
    when there is none. *)
Theorem rc_input_override board_ids float_ok orders folder lines board :
  parse_board board_ids float_ok orders folder lines = Some board →
  let forced :=
    bool_decide (BoardData.defines board !! "HAL_SERIAL_INPUT_ENABLED" = Some "1") in
  (forced = true → RcInput.input_type (BoardData.rc_input board) = "uart") ∧
  (∀ pre line post rc,
     lines = pre ++ line :: post →
     (∀ l, l ∈ pre → rc_classify l = None) → rc_classify line = Some rc →
     BoardData.rc_input board
     = if forced then RcInput.set_input_type "uart" rc else rc) ∧
  ((∀ l, l ∈ lines → rc_classify l = None) →
     BoardData.rc_input board
     = if forced then RcInput.set_input_type "uart" RcInput.default
       else RcInput.default).
Proof.
  intros Hparse. cbv zeta.
  rewrite (parse_board_rc_input _ _ _ _ _ _ Hparse). cbv zeta.
  split; [intros ->; reflexivity|]. split.
  - intros pre line post rc -> Hpre Hline.
    rewrite (rc_scan_skip pre _ Hpre), rc_scan_cons, Hline. reflexivity.
  - intros Hnone.
    rewrite <- (app_nil_r lines), (rc_scan_skip lines [] Hnone). reflexivity.
Qed.

Lemma rc_input_override_witness :
  ∃ board,
    parse_board ∅ no_float source_orders "board"
      ["SERIAL_ORDER OTG1 USART1"; "PB15 TIM12_CH2 TIM12 RCININT PULLDOWN LOW"]
      = Some board ∧
    rc_classify "PB15 TIM12_CH2 TIM12 RCININT PULLDOWN LOW"
      = Some (RcInput.mk "timer" None "PB15" "TIM12") ∧
    BoardData.rc_input board = RcInput.mk "timer" None "PB15" "TIM12".
Proof.
  destruct (parse_board ∅ no_float source_orders "board"
      ["SERIAL_ORDER OTG1 USART1"; "PB15 TIM12_CH2 TIM12 RCININT PULLDOWN LOW"])
    as [board|] eqn:Hp; [|vm_compute in Hp; discriminate].
  exists board. split; [reflexivity|]. split; [reflexivity|].
  destruct (rc_input_override ∅ no_float source_orders "board" _ board Hp)
    as (_ & H & _).
  rewrite (H ["SERIAL_ORDER OTG1 USART1"] "PB15 TIM12_CH2 TIM12 RCININT PULLDOWN LOW" []
             (RcInput.mk "timer" None "PB15" "TIM12") eq_refl).
  - assert (Hd : BoardData.defines board !! "HAL_SERIAL_INPUT_ENABLED" = None).
    { pose proof Hp as Hq. vm_compute in Hq. injection Hq as <-. reflexivity. }
    rewrite Hd. reflexivity.
  - intros l Hl. apply list_elem_of_singleton in Hl. subst l. reflexivity.
  - reflexivity.
Defined.

(** A timer-based RC input line followed by the define: the type is
    overridden although the heuristic line exists. *)
Lemma rc_override_ignores_heuristic :
  BoardData.rc_input <$>
    parse_board ∅ no_float source_orders "board"
      ["PB15 TIM12_CH2 TIM12 RCININT PULLDOWN LOW"; "define HAL_SERIAL_INPUT_ENABLED 1"]
  = Some (RcInput.mk "uart" None "PB15" "TIM12")
  ∧ rc_scan ["PB15 TIM12_CH2 TIM12 RCININT PULLDOWN LOW"; "define HAL_SERIAL_INPUT_ENABLED 1"]
    = Some (RcInput.mk "timer" None "PB15" "TIM12").
Proof. split; vm_compute; reflexivity. Qed.

(** ** UART details *)

(** C6 at a failing input: [LPUART1] stands on a line that contains
    [NODMA], yet the scan for such lines only keeps words that start with
    [USART] or [UART] (the pin scan just above it also has [LPUART]), so
    [LPUART1] is not in the negative set and its channel ends with
    [rx_dma] true; [USART2], on a line of the same shape, ends with
    [rx_dma] false. *)
Theorem nodma_scan_misses_lpuart board_ids float_ok orders :
  let lines := ["SERIAL_ORDER OTG1 LPUART1 USART2";
                "PA9 LPUART1_RX LPUART1 NODMA";
                "PA3 USART2_RX USART2 NODMA"] in
  (λ b, (λ u, (UartDef.uart_name u, UartDef.tx_dma u, UartDef.rx_dma u))
          <$> BoardData.uarts b)
    <$> parse_board board_ids float_ok orders "board" lines
  = Some [("OTG1", false, false); ("LPUART1", true, true); ("USART2", true, false)]
  ∧ PyStr.contains "NODMA" "PA9 LPUART1_RX LPUART1 NODMA" = true
  ∧ "LPUART1" ∈ PyStr.split "PA9 LPUART1_RX LPUART1 NODMA"
  ∧ ("LPUART1" ∉ nodma_uarts_of lines)
  ∧ ("USART2" ∈ nodma_uarts_of lines).
Proof.
  cbv zeta. split; [vm_compute; reflexivity|]. split; [reflexivity|].
  split; [change (PyStr.split "PA9 LPUART1_RX LPUART1 NODMA")
            with ["PA9"; "LPUART1_RX"; "LPUART1"; "NODMA"]; do 2 right; left|].
  assert (Hset : nodma_uarts_of ["SERIAL_ORDER OTG1 LPUART1 USART2";
                "PA9 LPUART1_RX LPUART1 NODMA"; "PA3 USART2_RX USART2 NODMA"]
                 = {[ "USART2" ]} ∪ ({[ "USART2_RX" ]} ∪ ∅)).
  { reflexivity. }
  rewrite Hset. split.
  - rewrite !elem_of_union, !elem_of_singleton, elem_of_empty.
    intros [H|[H|H]]; [discriminate..|exact H].
  - apply elem_of_union. left. by apply elem_of_singleton.
Qed.

Lemma token_nonempty parts i :
  Forall (λ t, t ≠ "") parts → (i < length parts)%nat → token parts i ≠ "".
Proof.
  intros Hall Hi. unfold token.
  destruct (nth_lookup_or_length parts i "") as [H|H]; [|lia].
  eapply Forall_lookup_1 in Hall; eauto.
Qed.

Lemma uart_pin_step_other m line name :
  uart_pin_line line ≠ Some name → uart_pin_step m line !! name = m !! name.
Proof.
  unfold uart_pin_line, uart_pin_step. intros H.
  destruct (is_skipped line); [reflexivity|].
  destruct (length (PyStr.split line) <? 2)%nat; [reflexivity|].
  destruct (is_uart_func (token (PyStr.split line) 1)); [|reflexivity].
  apply lookup_insert_ne. congruence.
Qed.

Lemma uart_pin_step_same m line name :
  uart_pin_line line = Some name →
  ∃ pin, pin ≠ "" ∧
    uart_pin_step m line !! name
    = Some (if records_tx line then (pin, (default ("", "") (m !! name)).2)
            else if records_rx line then ((default ("", "") (m !! name)).1, pin)
            else default ("", "") (m !! name)).
Proof.
  unfold uart_pin_line, uart_pin_step, records_tx, records_rx. intros H.
  destruct (is_skipped line); [discriminate|].
  destruct (length (PyStr.split line) <? 2)%nat eqn:Hlen; [discriminate|].
  destruct (is_uart_func (token (PyStr.split line) 1)); [|discriminate].
  injection H as <-. exists (token (PyStr.split line) 0). split.
  - apply token_nonempty; [apply split_nonempty|].
    apply Nat.ltb_ge in Hlen. lia.
  - rewrite lookup_insert_eq.
    destruct (PyStr.contains "_TX" (token (PyStr.split line) 1)); simpl; reflexivity.
Qed.

Lemma uart_pins_of_snoc lines line :
  uart_pins_of (lines ++ [line]) = uart_pin_step (uart_pins_of lines) line.
Proof. unfold uart_pins_of. by rewrite fold_left_app. Qed.

Lemma uart_pins_of_inv lines name :
  uart_pins_inv lines name (uart_pins_of lines !! name).
Proof.
  induction lines as [|line lines IH] using rev_ind.
  - unfold uart_pins_of. simpl. rewrite lookup_empty.
    intros l Hl. by apply elem_of_nil in Hl.
  - rewrite uart_pins_of_snoc.
    destruct (decide (uart_pin_line line = Some name)) as [Hline|Hline].
    + destruct (uart_pin_step_same (uart_pins_of lines) line name Hline)
        as (pin & Hpin & ->).
      assert (Hex : ∃ l, l ∈ lines ++ [line] ∧ uart_pin_line l = Some name).
      { exists line. split; [|exact Hline]. apply elem_of_app. right. left. }
      assert (Hold : ∀ (P : string → bool),
         (∀ l, l ∈ lines → uart_pin_line l = Some name → P l = false) →
         P line = false →
         ∀ l, l ∈ lines ++ [line] → uart_pin_line l = Some name → P l = false).
      { intros P HP Hl l Hin Hn. apply elem_of_app in Hin.
        destruct Hin as [Hin|Hin]; [by apply HP|].
        apply list_elem_of_singleton in Hin. by subst. }
      unfold uart_pins_inv in *.
      destruct (uart_pins_of lines !! name) as [[tx rx]|] eqn:Hm; simpl.
      * destruct IH as (_ & Htx & Hrx).
        destruct (records_tx line) eqn:Et; [|destruct (records_rx line) eqn:Er].
        -- split; [exact Hex|]. split; [intros; congruence|].
           intros Hr. apply Hold; [by apply Hrx|].
           unfold records_rx. unfold records_tx in Et. by rewrite Et.
        -- split; [exact Hex|]. split; [|intros; congruence].
           intros Ht. apply Hold; [by apply Htx | exact Et].
        -- split; [exact Hex|]. split; intros He; apply Hold; auto.
      * assert (Hnone : ∀ (P : string → bool) l,
                  l ∈ lines → uart_pin_line l = Some name → P l = false).
        { intros P l Hl Hn. exfalso. by apply (IH l). }
        destruct (records_tx line) eqn:Et; [|destruct (records_rx line) eqn:Er].
        -- split; [exact Hex|]. split; [intros; congruence|].
           intros _. apply Hold; [apply Hnone|].
           unfold records_rx. unfold records_tx in Et. by rewrite Et.
        -- split; [exact Hex|]. split; [|intros; congruence].
           intros _. apply Hold; [apply Hnone | exact Et].
        -- split; [exact Hex|]. split; intros _; apply Hold; auto.
    + rewrite uart_pin_step_other by exact Hline.
      unfold uart_pins_inv in *.
      destruct (uart_pins_of lines !! name) as [[tx rx]|].
      * destruct IH as ((l & Hl & Hn) & Htx & Hrx). split; [|split].
        -- exists l. split; [|exact Hn]. apply elem_of_app. by left.
        -- intros Ht l' Hin Hn'. apply elem_of_app in Hin.
           destruct Hin as [Hin|Hin]; [by apply Htx|].
           apply list_elem_of_singleton in Hin. subst. contradiction.
        -- intros Hr l' Hin Hn'. apply elem_of_app in Hin.
           destruct Hin as [Hin|Hin]; [by apply Hrx|].
           apply list_elem_of_singleton in Hin. subst. contradiction.
      * intros l Hin. apply elem_of_app in Hin.
        destruct Hin as [Hin|Hin]; [by apply IH|].
        apply list_elem_of_singleton in Hin. by subst.
Qed.

Lemma update_uart_flags pins nodma u :
  fresh_uart u →
  UartDef.uart_name (update_uart pins nodma u) = UartDef.uart_name u ∧
  UartDef.has_tx (update_uart pins nodma u)
  = match pins !! UartDef.uart_name u with
    | Some (tx, _) => negb (PyStr.is_empty tx)
    | None => true
    end ∧
  UartDef.has_rx (update_uart pins nodma u)
  = match pins !! UartDef.uart_name u with
    | Some (_, rx) => negb (PyStr.is_empty rx)
    | None => true
    end.
Proof.
  intros (Htx & Hrx & _). unfold update_uart.
  destruct (pins !! UartDef.uart_name u) as [[tx rx]|]; simpl;
    destruct (negb (UartDef.is_usb u) && negb (UartDef.is_empty u)); simpl;
    repeat split; assumption.
Qed.

(** The channels of a parsed board are the channels of the directive loop,
    each still as SERIAL_ORDER made it, updated by the UART pass. *)
Lemma parse_board_uarts board_ids float_ok orders folder lines board u :
  parse_board board_ids float_ok orders folder lines = Some board →
  u ∈ BoardData.uarts board →
  ∃ u0, fresh_uart u0 ∧ u = update_uart (uart_pins_of lines) (nodma_uarts_of lines) u0.
Proof.
  intros Hparse Hu. apply parse_board_inv in Hparse.
  destruct Hparse as (b0 & undefs & Hloop & ->).
  rewrite post_process_uarts in Hu. apply list_elem_of_fmap in Hu.
  destruct Hu as (u0 & -> & Hu0). exists u0. split; [|reflexivity].
  apply process_lines_fresh in Hloop; [|constructor].
  simpl in Hloop. eapply Forall_forall in Hloop; eauto.
Qed.

(** C10: a channel whose hardware name is named by no UART pin line keeps
    [has_tx] and [has_rx] true; [has_tx] (respectively [has_rx]) is false
    only if some UART pin line names the channel's hardware name and none
    of those lines records its TX (respectively RX) pin. *)
Theorem uart_flags_default board_ids float_ok orders folder lines board u :
  parse_board board_ids float_ok orders folder lines = Some board →
  u ∈ BoardData.uarts board →
  ((∀ l, l ∈ lines → uart_pin_line l ≠ Some (UartDef.uart_name u)) →
     UartDef.has_tx u = true ∧ UartDef.has_rx u = true) ∧
  (UartDef.has_tx u = false →
     (∃ l, l ∈ lines ∧ uart_pin_line l = Some (UartDef.uart_name u)) ∧
     ∀ l, l ∈ lines → uart_pin_line l = Some (UartDef.uart_name u) →
          records_tx l = false) ∧
  (UartDef.has_rx u = false →
     (∃ l, l ∈ lines ∧ uart_pin_line l = Some (UartDef.uart_name u)) ∧
     ∀ l, l ∈ lines → uart_pin_line l = Some (UartDef.uart_name u) →
          records_rx l = false).
Proof.
  intros Hparse Hu.
  destruct (parse_board_uarts _ _ _ _ _ _ _ Hparse Hu) as (u0 & Hfresh & ->).
  destruct (update_uart_flags (uart_pins_of lines) (nodma_uarts_of lines) u0 Hfresh)
    as (-> & -> & ->).
  pose proof (uart_pins_of_inv lines (UartDef.uart_name u0)) as Hinv.
  unfold uart_pins_inv in Hinv.
  destruct (uart_pins_of lines !! UartDef.uart_name u0) as [[tx rx]|].
  - destruct Hinv as (Hex & Htx & Hrx). split; [|split].
    + intros Hnone. destruct Hex as (l & Hl & Hn). exfalso. exact (Hnone l Hl Hn).
    + intros He. split; [exact Hex|]. apply Htx.
      apply negb_false_iff in He. by apply is_empty_true.
    + intros He. split; [exact Hex|]. apply Hrx.
      apply negb_false_iff in He. by apply is_empty_true.
  - split; [|split]; [intros _; split; reflexivity | discriminate | discriminate].
Qed.

Lemma uart_flags_default_witness :
  ∃ board u,
    parse_board ∅ no_float source_orders "board"
      ["SERIAL_ORDER OTG1 USART1 EMPTY USART3"; "PA9 USART1_TX USART1"] = Some board ∧
    u ∈ BoardData.uarts board ∧ UartDef.uart_name u = "USART3" ∧
    UartDef.has_tx u = true ∧ UartDef.has_rx u = true.
Proof.
  destruct (parse_board ∅ no_float source_orders "board"
      ["SERIAL_ORDER OTG1 USART1 EMPTY USART3"; "PA9 USART1_TX USART1"])
    as [board|] eqn:Hp; [|vm_compute in Hp; discriminate].
  assert (Hu : ∃ u, u ∈ BoardData.uarts board ∧ UartDef.uart_name u = "USART3").
  { pose proof Hp as Hq. vm_compute in Hq. injection Hq as <-.
    eexists. split; [do 3 right; left|reflexivity]. }
  destruct Hu as (u & Hu & Hname).
  exists board, u. split; [reflexivity|]. split; [exact Hu|]. split; [exact Hname|].
  apply (proj1 (uart_flags_default ∅ no_float source_orders "board" _ board u Hp Hu)).
  rewrite Hname. intros l Hl.
  apply elem_of_cons in Hl. destruct Hl as [->|Hl]; [vm_compute; discriminate|].
  apply list_elem_of_singleton in Hl. subst l. vm_compute. discriminate.
Defined.

Example uart_flags_ex :
  (λ b, (λ u, (UartDef.uart_name u, UartDef.has_tx u, UartDef.has_rx u))
          <$> BoardData.uarts b)
    <$> parse_board ∅ no_float source_orders "board"
      ["SERIAL_ORDER OTG1 USART1 EMPTY USART3"; "PA9 USART1_TX USART1"]
  = Some [("OTG1", true, true); ("USART1", true, false); ("EMPTY", true, true);
          ("USART3", true, true)].
Proof. vm_compute. reflexivity. Qed.

(** ** Sensors *)

Lemma absorb_NoDup lst m : NoDup lst → NoDup (absorb lst m).
Proof.
  intros Hnd. unfold absorb. destruct m as [chip|]; [|exact Hnd].
  case_bool_decide as Hin; [exact Hnd|].
  apply NoDup_app. split; [exact Hnd|]. split; [|apply NoDup_singleton].
  intros x Hx Hx'. apply list_elem_of_singleton in Hx'. by subst.
Qed.

(** A category list only ever takes the upper-cased name of a chip that is
    a substring of the device name. *)
Lemma absorb_elem lst order name x :
  x ∈ absorb lst (first_chip order name) →
  x ∈ lst ∨ ∃ chip, chip ∈ order ∧ PyStr.contains chip name = true ∧ x = PyStr.upper chip.
Proof.
  unfold absorb, first_chip.
  destruct (List.find (λ chip, PyStr.contains chip name) order) as [chip|] eqn:Hf;
    [|by left].
  apply find_some in Hf. destruct Hf as [Hin Hc]. apply list_elem_of_In in Hin.
  case_bool_decide; [by left|].
  intros Hx. apply elem_of_app in Hx. destruct Hx as [Hx|Hx]; [by left|].
  apply list_elem_of_singleton in Hx. right. eauto.
Qed.

Lemma detect_device_NoDup orders s dev :
  sensors_NoDup s → sensors_NoDup (detect_device orders s dev).
Proof.
  intros (Hi & Hb & Hc). unfold detect_device, sensors_NoDup. cbv zeta.
  destruct (PyStr.contains "sdcard" (PyStr.lower (SpiDevice.name dev))
            || PyStr.contains "sd_card" (PyStr.lower (SpiDevice.name dev)));
    simpl; repeat split; by apply absorb_NoDup.
Qed.

Lemma detect_device_imu orders s dev :
  BuiltinSensors.imu (detect_device orders s dev)
  = absorb (BuiltinSensors.imu s)
      (first_chip (imu_order orders) (PyStr.lower (SpiDevice.name dev))).
Proof.
  unfold detect_device. cbv zeta.
  destruct (PyStr.contains "sdcard" (PyStr.lower (SpiDevice.name dev))
            || PyStr.contains "sd_card" (PyStr.lower (SpiDevice.name dev)));
    reflexivity.
Qed.

Lemma detect_sensors_NoDup orders devs : ∀ s,
  sensors_NoDup s → sensors_NoDup (fold_left (detect_device orders) devs s).
Proof.
  induction devs as [|dev devs IH]; intros s Hs; simpl; [exact Hs|].
  apply IH. by apply detect_device_NoDup.
Qed.

Lemma detect_sensors_imu_elem orders devs : ∀ s x,
  x ∈ BuiltinSensors.imu (fold_left (detect_device orders) devs s) →
  x ∈ BuiltinSensors.imu s ∨
  ∃ chip dev, chip ∈ imu_order orders ∧ dev ∈ devs ∧
    PyStr.contains chip (PyStr.lower (SpiDevice.name dev)) = true ∧
    x = PyStr.upper chip.
Proof.
  induction devs as [|dev devs IH]; intros s x Hx; simpl in Hx; [by left|].
  apply IH in Hx. destruct Hx as [Hx|(chip & d & Hc & Hd & Hs & ->)].
  - rewrite detect_device_imu in Hx. apply absorb_elem in Hx.
    destruct Hx as [Hx|(chip & Hc & Hs & ->)]; [by left|].
    right. exists chip, dev. repeat split; try assumption. left.
  - right. exists chip, d. repeat split; try assumption. by right.
Qed.

(** A loop with [break] over a list stops at a given element when it is in
    the list and is the only one that passes the test. *)
Lemma find_unique {A} (p : A → bool) (l : list A) x :
  x ∈ l → p x = true → (∀ y, y ∈ l → p y = true → y = x) →
  List.find p l = Some x.
Proof.
  induction l as [|a l IH]; intros Hin Hp Huniq.
  - by apply elem_of_nil in Hin.
  - simpl. destruct (p a) eqn:Ha.
    + f_equal. apply Huniq; [left | exact Ha].
    + apply IH; [| exact Hp |].
      * apply elem_of_cons in Hin. destruct Hin as [->|Hin]; [congruence | exact Hin].
      * intros y Hy. apply Huniq. by right.
Qed.

Lemma first_chip_icm42688 order :
  order ≡ₚ KNOWN_IMU_CHIPS → first_chip order "icm42688" = Some "icm42688".
Proof.
  intros Hperm. unfold first_chip. apply find_unique.
  - rewrite Hperm. unfold KNOWN_IMU_CHIPS. do 10 right. left.
  - reflexivity.
  - intros y Hy Hc. rewrite Hperm in Hy.
    assert (Hall : forallb (λ chip, negb (PyStr.contains chip "icm42688")
                                    || String.eqb chip "icm42688")
                     KNOWN_IMU_CHIPS = true) by (vm_compute; reflexivity).
    rewrite forallb_forall in Hall. apply list_elem_of_In in Hy.
    specialize (Hall y Hy). rewrite Hc in Hall. simpl in Hall.
    by apply String.eqb_eq.
Qed.

Lemma spidev_of_other line :
  head (PyStr.split line) ≠ Some "SPIDEV" → spidev_of line = None.
Proof.
  intros Hkw. unfold spidev_of.
  destruct (is_skipped line); [reflexivity|].
  destruct (PyStr.startswith "undef " line); [reflexivity|].
  unfold is_spidev_directive, token.
  destruct (PyStr.split line) as [|kw rest]; [reflexivity|].
  simpl in *. destruct (String.eqb kw "SPIDEV") eqn:E; [|reflexivity].
  apply String.eqb_eq in E. congruence.
Qed.

Lemma omap_spidev_of_other lines :
  (∀ l, l ∈ lines → head (PyStr.split l) ≠ Some "SPIDEV") →
  omap spidev_of lines = [].
Proof.
  induction lines as [|l lines IH]; intros H; [reflexivity|].
  simpl. rewrite spidev_of_other by (apply H; left).
  apply IH. intros l' Hl'. apply H. by right.
Qed.

Lemma post_process_spi_devices board_ids orders b lines :
  BoardData.spi_devices (post_process board_ids orders b lines) = BoardData.spi_devices b.
Proof.
  unfold post_process. cbv zeta.
  destruct (resolve_board_id_frame board_ids
    (parse_uart_details (detect_rc_input (detect_sensors orders (compute_output_groups b)) lines) lines))
    as (_ & _ & _ & _ & _ & -> & _).
  simpl. destruct (detect_rc_input_frame (detect_sensors orders (compute_output_groups b)) lines)
    as (_ & _ & _ & _ & _ & ->). reflexivity.
Qed.

(** *** Matching without regard to case *)

Lemma N_of_ascii_inj x y : N_of_ascii x = N_of_ascii y → x = y.
Proof. intros H. by rewrite <- (ascii_N_embedding x), H, ascii_N_embedding. Qed.

Lemma lower_char_N c :
  N_of_ascii (PyStr.lower_char c)
  = (if (65 <=? N_of_ascii c)%N && (N_of_ascii c <=? 90)%N
     then N_of_ascii c + 32 else N_of_ascii c)%N.
Proof. destruct c as [[] [] [] [] [] [] [] []]; reflexivity. Qed.

Lemma same_letter_lower x y :
  same_letter x y ↔ PyStr.lower_char x = PyStr.lower_char y.
Proof.
  unfold same_letter. cbv zeta. split.
  - intros H. apply N_of_ascii_inj. rewrite !lower_char_N.
    destruct (N.leb_spec 65 (N_of_ascii x)), (N.leb_spec (N_of_ascii x) 90),
      (N.leb_spec 65 (N_of_ascii y)), (N.leb_spec (N_of_ascii y) 90); simpl; lia.
  - intros H. apply (f_equal N_of_ascii) in H. rewrite !lower_char_N in H.
    destruct (N.leb_spec 65 (N_of_ascii x)), (N.leb_spec (N_of_ascii x) 90),
      (N.leb_spec 65 (N_of_ascii y)), (N.leb_spec (N_of_ascii y) 90); simpl in H; lia.
Qed.

Lemma caseless_lower u : ∀ v, caseless u v ↔ PyStr.lower u = PyStr.lower v.
Proof.
  unfold caseless. induction u as [|x u IH]; intros [|y v]; simpl.
  - split; [reflexivity|constructor].
  - split; [intros H; inversion H|discriminate].
  - split; [intros H; inversion H|discriminate].
  - split.
    + intros H. apply Forall2_cons in H. destruct H as [Hxy Huv].
      apply same_letter_lower in Hxy. apply IH in Huv.
      unfold PyStr.lower in *. simpl. by rewrite Hxy, Huv.
    + intros H. unfold PyStr.lower in H. simpl in H. injection H as Hxy Huv.
      constructor; [by apply same_letter_lower|by apply IH].
Qed.

Lemma lower_app a b : PyStr.lower (a +:+ b) = PyStr.lower a +:+ PyStr.lower b.
Proof.
  unfold PyStr.lower. induction a as [|c a IH]; [reflexivity|].
  rewrite app_cons. simpl. by rewrite IH, app_cons.
Qed.

Lemma lower_app_inv s : ∀ x y,
  PyStr.lower s = x +:+ y →
  ∃ s1 s2, s = s1 +:+ s2 ∧ PyStr.lower s1 = x ∧ PyStr.lower s2 = y.
Proof.
  unfold PyStr.lower. induction s as [|c s IH]; intros x y H.
  - exists "", "". destruct x; [|discriminate]. destruct y; [|discriminate]. done.
  - destruct x as [|d x].
    + exists "", (String c s). done.
    + rewrite app_cons in H. simpl in H. injection H as Hd Hs.
      destruct (IH _ _ Hs) as (s1 & s2 & -> & H1 & H2).
      exists (String c s1), s2. rewrite app_cons. simpl. by rewrite Hd, H1, H2.
Qed.

Lemma lower_idem s : PyStr.lower (PyStr.lower s) = PyStr.lower s.
Proof.
  unfold PyStr.lower. induction s as [|c s IH]; [reflexivity|].
  simpl. rewrite IH. f_equal.
  destruct c as [[] [] [] [] [] [] [] []]; reflexivity.
Qed.

Lemma contains_spec sub s :
  PyStr.contains sub s = true ↔ ∃ a b, s = a +:+ sub +:+ b.
Proof.
  split.
  - induction s as [|c s IH]; cbn [PyStr.contains]; intros H.
    + rewrite orb_false_r in H. apply prefix_app in H. destruct H as [r Hr].
      by exists "", r.
    + apply orb_true_iff in H. destruct H as [H|H].
      * apply prefix_app in H. destruct H as [r Hr]. by exists "", r.
      * destruct (IH H) as (a & b & ->). exists (String c a), b. by rewrite app_cons.
  - intros (a & b & ->). induction a as [|c a IH].
    + change ("" +:+ sub +:+ b) with (sub +:+ b).
      pose proof (app_prefix sub b) as Hp.
      destruct (sub +:+ b); cbn [PyStr.contains]; by rewrite Hp.
    + rewrite app_cons. cbn [PyStr.contains]. rewrite IH. apply orb_true_r.
Qed.

(** For an identifier in lower case, the test [chip in name.lower()] of
    the source is occurrence without regard to case. *)
Lemma contains_lower chip name :
  PyStr.lower chip = chip →
  PyStr.contains chip (PyStr.lower name) = true ↔ occurs_in chip name.
Proof.
  intros Hchip. rewrite contains_spec. split.
  - intros (a' & b' & H).
    apply lower_app_inv in H. destruct H as (a & s2 & -> & _ & H).
    apply lower_app_inv in H. destruct H as (v & b & -> & Hv & _).
    exists a, v, b. split; [reflexivity|]. apply caseless_lower. congruence.
  - intros (a & v & b & -> & Hc). apply caseless_lower in Hc.
    exists (PyStr.lower a), (PyStr.lower b).
    rewrite !lower_app. congruence.
Qed.

(** A loop that stops at the first match stops at [x] exactly when [x]
    passes the test and nothing before it does. *)
Lemma find_first {A} (p : A → bool) (l : list A) x :
  List.find p l = Some x ↔
  ∃ pre post, l = pre ++ x :: post ∧ p x = true ∧ ∀ y, y ∈ pre → p y = false.
Proof.
  split.
  - induction l as [|a l IH]; simpl; [discriminate|].
    destruct (p a) eqn:Ha.
    + intros [= ->]. exists [], l. split; [reflexivity|]. split; [exact Ha|].
      intros y Hy. by apply elem_of_nil in Hy.
    + intros H. destruct (IH H) as (pre & post & -> & Hx & Hpre).
      exists (a :: pre), post. split; [reflexivity|]. split; [exact Hx|].
      intros y Hy. apply elem_of_cons in Hy. destruct Hy as [->|Hy]; auto.
  - intros (pre & post & -> & Hx & Hpre). induction pre as [|a pre IH]; simpl.
    + by rewrite Hx.
    + rewrite (Hpre a) by left. apply IH. intros y Hy. apply Hpre. by right.
Qed.

Lemma first_chip_first_match order name chip :
  (∀ c, c ∈ order → PyStr.lower c = c) →
  first_chip order (PyStr.lower name) = Some chip ↔ first_match order name chip.
Proof.
  intros Hlow. unfold first_chip, first_match. rewrite find_first.
  split; intros (pre & post & -> & Hx & Hpre); exists pre, post;
    (split; [reflexivity|]).
  - split.
    + apply contains_lower; [|exact Hx]. apply Hlow, elem_of_app. right. left.
    + intros c Hc Hocc. apply contains_lower in Hocc.
      * by rewrite (Hpre c Hc) in Hocc.
      * apply Hlow, elem_of_app. by left.
  - split.
    + apply contains_lower; [|exact Hx]. apply Hlow, elem_of_app. right. left.
    + intros c Hc. destruct (PyStr.contains c (PyStr.lower name)) eqn:E; [|reflexivity].
      exfalso. apply (Hpre c Hc). apply contains_lower; [|exact E].
      apply Hlow, elem_of_app. by left.
Qed.

Lemma known_chips_lower order known :
  order ≡ₚ known → forallb (λ c, String.eqb (PyStr.lower c) c) known = true →
  ∀ c, c ∈ order → PyStr.lower c = c.
Proof.
  intros Hperm Hall c Hc. rewrite Hperm in Hc.
  rewrite forallb_forall in Hall. apply String.eqb_eq, Hall.
  by apply list_elem_of_In.
Qed.

(** *** What a category list ends up with *)

Lemma absorb_elem_iff lst m x :
  x ∈ absorb lst m ↔ x ∈ lst ∨ ∃ chip, m = Some chip ∧ x = PyStr.upper chip.
Proof.
  unfold absorb. destruct m as [chip|].
  - case_bool_decide as Hin.
    + split; [by left|]. intros [H|(c & [= <-] & ->)]; assumption.
    + rewrite elem_of_app, list_elem_of_singleton. split.
      * intros [H| ->]; [by left|right; eauto].
      * intros [H|(c & [= <-] & ->)]; [by left|by right].
  - split; [by left|]. by intros [H|(c & [=] & _)].
Qed.

Lemma detect_device_barometer orders s dev :
  BuiltinSensors.barometer (detect_device orders s dev)
  = absorb (BuiltinSensors.barometer s)
      (first_chip (baro_order orders) (PyStr.lower (SpiDevice.name dev))).
Proof.
  unfold detect_device. cbv zeta.
  destruct (PyStr.contains "sdcard" (PyStr.lower (SpiDevice.name dev))
            || PyStr.contains "sd_card" (PyStr.lower (SpiDevice.name dev)));
    reflexivity.
Qed.

Lemma detect_device_compass orders s dev :
  BuiltinSensors.compass (detect_device orders s dev)
  = absorb (BuiltinSensors.compass s)
      (first_chip (compass_order orders) (PyStr.lower (SpiDevice.name dev))).
Proof.
  unfold detect_device. cbv zeta.
  destruct (PyStr.contains "sdcard" (PyStr.lower (SpiDevice.name dev))
            || PyStr.contains "sd_card" (PyStr.lower (SpiDevice.name dev)));
    reflexivity.
Qed.

(** A category list filled by [absorb] holds, besides what it held, the
    upper-cased first match of every device, and nothing else. *)
Lemma fold_absorb_elem orders (get : BuiltinSensors.t → list string) order devs :
  (∀ s dev, get (detect_device orders s dev)
            = absorb (get s) (first_chip order (PyStr.lower (SpiDevice.name dev)))) →
  ∀ s x,
    x ∈ get (fold_left (detect_device orders) devs s) ↔
    x ∈ get s ∨
    ∃ dev chip, dev ∈ devs ∧
      first_chip order (PyStr.lower (SpiDevice.name dev)) = Some chip ∧
      x = PyStr.upper chip.
Proof.
  intros Hget. induction devs as [|dev devs IH]; intros s x; simpl.
  - split; [by left|]. intros [H|(d & c & Hd & _)]; [exact H|].
    by apply elem_of_nil in Hd.
  - rewrite IH, Hget, absorb_elem_iff. split.
    + intros [[H|(chip & Hc & ->)]|(d & chip & Hd & Hc & ->)].
      * by left.
      * right. exists dev, chip. split; [left|by split].
      * right. exists d, chip. split; [by right|by split].
    + intros [H|(d & chip & Hd & Hc & ->)]; [by left; left|].
      apply elem_of_cons in Hd. destruct Hd as [->|Hd].
      * left. right. eauto.
      * right. eauto.
Qed.

(** The devices of a board are those of its SPIDEV lines. *)
Lemma spidev_of_line line dev :
  spidev_of line = Some dev →
  ∃ name, spidev_line line name ∧ SpiDevice.name dev = PyStr.lower name.
Proof.
  unfold spidev_of, spidev_line.
  destruct (is_skipped line); [discriminate|].
  destruct (PyStr.startswith "undef " line); [discriminate|].
  destruct (is_spidev_directive (PyStr.split line) line) eqn:Hd; [|discriminate].
  intros [= <-]. unfold is_spidev_directive in Hd.
  apply andb_true_iff in Hd. destruct Hd as [Hd Hpwm].
  apply andb_true_iff in Hd. destruct Hd as [Hkw Hlen].
  apply String.eqb_eq in Hkw. apply Nat.leb_le in Hlen.
  apply negb_true_iff in Hpwm.
  destruct (PyStr.split line) as [|kw [|name [|bus [|devid rest]]]];
    simpl in Hlen; try lia.
  unfold token in *. simpl in *. subst kw.
  exists name. split; [|reflexivity]. by exists bus, devid, rest.
Qed.

Lemma spidev_line_of line name :
  spidev_line line name →
  ∃ dev, spidev_of line = Some dev ∧ SpiDevice.name dev = PyStr.lower name.
Proof.
  intros (bus & devid & rest & Hs & Hpwm).
  destruct (keyword_line line "SPIDEV" _ Hs) as [Hskip Hundef];
    [reflexivity|discriminate|].
  unfold spidev_of, is_spidev_directive. rewrite Hskip, Hundef, Hs, Hpwm.
  eexists. split; reflexivity.
Qed.

Lemma spi_devices_lines (lines : list string) (dev : SpiDevice.t) :
  dev ∈ omap spidev_of lines ↔ ∃ l, l ∈ lines ∧ spidev_of l = Some dev.
Proof. apply list_elem_of_omap. Qed.

(** A category list filled from an empty one holds exactly the detected
    names. *)
Lemma detected_fold orders (get : BuiltinSensors.t → list string) order known lines s :
  (∀ s dev, get (detect_device orders s dev)
            = absorb (get s) (first_chip order (PyStr.lower (SpiDevice.name dev)))) →
  order ≡ₚ known → forallb (λ c, String.eqb (PyStr.lower c) c) known = true →
  get s = [] →
  ∀ x, x ∈ get (fold_left (detect_device orders) (omap spidev_of lines) s)
       ↔ detected order lines x.
Proof.
  intros Hget Hperm Hknown Hnil x.
  pose proof (known_chips_lower _ _ Hperm Hknown) as Hlow.
  rewrite (fold_absorb_elem orders get order _ Hget), Hnil. unfold detected. split.
  - intros [H|(dev & chip & Hd & Hc & ->)]; [by apply elem_of_nil in H|].
    apply spi_devices_lines in Hd. destruct Hd as (l & Hl & Hdev).
    apply spidev_of_line in Hdev. destruct Hdev as (name & Hline & Hname).
    exists l, name, chip. repeat split; try assumption.
    apply first_chip_first_match; [exact Hlow|].
    by rewrite Hname, lower_idem in Hc.
  - intros (l & name & chip & Hl & Hline & Hfm & ->). right.
    apply spidev_line_of in Hline. destruct Hline as (dev & Hdev & Hname).
    exists dev, chip. split; [apply spi_devices_lines; eauto|]. split; [|reflexivity].
    rewrite Hname, lower_idem. by apply first_chip_first_match.
Qed.

(** C8: a category list of the detected sensors has no duplicates,
    whatever the devices.  When the interpreter visits each chip set in
    some order of its elements, the IMU, barometer and compass lists hold
    exactly the upper-cased names of the chips detected on the SPIDEV
    lines: for each such line, the first identifier, in the order of the
    visit, that is a substring of the device name without regard to case.
    A board whose only SPIDEV line is
    [SPIDEV icm42688 SPI1 DEVID1 IMU_CS] has the IMU list [ICM42688],
    in whatever order the interpreter visits the chip set. *)
Theorem sensor_detection board_ids float_ok orders folder lines board :
  parse_board board_ids float_ok orders folder lines = Some board →
  NoDup (BuiltinSensors.imu (BoardData.sensors board)) ∧
  NoDup (BuiltinSensors.barometer (BoardData.sensors board)) ∧
  NoDup (BuiltinSensors.compass (BoardData.sensors board)) ∧
  (orders_ok orders →
   (∀ x, x ∈ BuiltinSensors.imu (BoardData.sensors board)
         ↔ detected (imu_order orders) lines x) ∧
   (∀ x, x ∈ BuiltinSensors.barometer (BoardData.sensors board)
         ↔ detected (baro_order orders) lines x) ∧
   (∀ x, x ∈ BuiltinSensors.compass (BoardData.sensors board)
         ↔ detected (compass_order orders) lines x)) ∧
  (imu_order orders ≡ₚ KNOWN_IMU_CHIPS →
   ∀ pre post,
     lines = pre ++ "SPIDEV icm42688 SPI1 DEVID1 IMU_CS" :: post →
     (∀ l, l ∈ pre ++ post → head (PyStr.split l) ≠ Some "SPIDEV") →
     BuiltinSensors.imu (BoardData.sensors board) = ["ICM42688"]).
Proof.
  intros Hparse. apply parse_board_inv in Hparse.
  destruct Hparse as (b0 & undefs & Hloop & ->).
  rewrite post_process_sensors.
  pose proof (process_lines_frame _ _ _ _ _ Hloop) as (_ & _ & _ & Hi & Hb & Hc).
  pose proof (process_lines_spi_devices _ _ _ _ _ Hloop) as Hspi.
  simpl in Hi, Hb, Hc, Hspi.
  assert (Hnd : sensors_NoDup (fold_left (detect_device orders)
                  (BoardData.spi_devices b0) (BoardData.sensors b0))).
  { apply detect_sensors_NoDup. unfold sensors_NoDup. rewrite Hi, Hb, Hc.
    repeat split; constructor. }
  destruct Hnd as (H1 & H2 & H3).
  split; [exact H1|]. split; [exact H2|]. split; [exact H3|]. split.
  - intros (Himu & Hbaro & Hcomp & _). rewrite Hspi. split; [|split].
    + apply (detected_fold orders BuiltinSensors.imu _ KNOWN_IMU_CHIPS);
        [apply detect_device_imu | exact Himu | reflexivity | exact Hi].
    + apply (detected_fold orders BuiltinSensors.barometer _ KNOWN_BARO_CHIPS);
        [apply detect_device_barometer | exact Hbaro | reflexivity | exact Hb].
    + apply (detected_fold orders BuiltinSensors.compass _ KNOWN_COMPASS_CHIPS);
        [apply detect_device_compass | exact Hcomp | reflexivity | exact Hc].
  - intros Hperm pre post -> Hother. rewrite Hspi.
    change (pre ++ "SPIDEV icm42688 SPI1 DEVID1 IMU_CS" :: post)
      with (pre ++ ["SPIDEV icm42688 SPI1 DEVID1 IMU_CS"] ++ post).
    rewrite !omap_app, (omap_spidev_of_other pre), (omap_spidev_of_other post).
    + change (omap spidev_of ["SPIDEV icm42688 SPI1 DEVID1 IMU_CS"])
        with [SpiDevice.mk "icm42688" "SPI1" "DEVID1" "IMU_CS"].
      cbn [app fold_left]. rewrite detect_device_imu, Hi.
      change (SpiDevice.name (SpiDevice.mk "icm42688" "SPI1" "DEVID1" "IMU_CS"))
        with "icm42688".
      change (PyStr.lower "icm42688") with "icm42688".
      rewrite (first_chip_icm42688 _ Hperm). reflexivity.
    + intros l Hl. apply Hother. apply elem_of_app. by right.
    + intros l Hl. apply Hother. apply elem_of_app. by left.
Qed.

Lemma sensor_detection_witness :
  ∃ board,
    parse_board ∅ no_float source_orders "board"
      ["SERIAL_ORDER OTG1"; "SPIDEV ICM42688 SPI1 DEVID1 IMU_CS";
       "SPIDEV bmi270 SPI4 DEVID2 BMI_CS"] = Some board ∧
    orders_ok source_orders ∧
    "ICM42688" ∈ BuiltinSensors.imu (BoardData.sensors board) ∧
    "BMI270" ∈ BuiltinSensors.imu (BoardData.sensors board).
Proof.
  destruct (parse_board ∅ no_float source_orders "board"
      ["SERIAL_ORDER OTG1"; "SPIDEV ICM42688 SPI1 DEVID1 IMU_CS";
       "SPIDEV bmi270 SPI4 DEVID2 BMI_CS"])
    as [board|] eqn:Hp; [|vm_compute in Hp; discriminate].
  assert (Hok : orders_ok source_orders) by (repeat split; reflexivity).
  assert (Hlow : ∀ c, c ∈ KNOWN_IMU_CHIPS → PyStr.lower c = c).
  { by apply (known_chips_lower _ KNOWN_IMU_CHIPS). }
  exists board. split; [reflexivity|]. split; [exact Hok|].
  destruct (sensor_detection ∅ no_float source_orders "board" _ board Hp)
    as (_ & _ & _ & H & _).
  destruct (H Hok) as (Himu & _). split; apply Himu.
  - exists "SPIDEV ICM42688 SPI1 DEVID1 IMU_CS", "ICM42688", "icm42688".
    split; [right; left|]. split; [by exists "SPI1", "DEVID1", ["IMU_CS"]|].
    split; [|reflexivity]. by apply first_chip_first_match.
  - exists "SPIDEV bmi270 SPI4 DEVID2 BMI_CS", "bmi270", "bmi270".
    split; [do 2 right; left|]. split; [by exists "SPI4", "DEVID2", ["BMI_CS"]|].
    split; [|reflexivity]. by apply first_chip_first_match.
Defined.

(** ** Include resolution *)

Section IncludeFacts.

Variable fs : string → FileState.
Variable resolve_path : string → string → string.

Lemma resolve_body_total recurse filepath raw_lines : ∀ cache lines,
  (∀ c p, is_Some (recurse c p)) →
  is_Some (resolve_body resolve_path recurse filepath cache raw_lines lines).
Proof.
  induction raw_lines as [|raw rest IH]; intros cache lines Hrec; simpl; [eauto|].
  destruct (PyStr.is_empty (PyStr.strip raw) || PyStr.startswith "#" (PyStr.strip raw));
    [by apply IH|].
  destruct (PyStr.startswith "include" (PyStr.strip raw)); [|by apply IH].
  destruct (PyStr.split_max1 (PyStr.strip raw)) as [|w [|arg [|x xs]]]; try by apply IH.
  destruct (Hrec cache (resolve_path filepath (PyStr.strip arg))) as [r Hr].
  rewrite Hr. simpl. by apply IH.
Qed.

Lemma resolve_body_ext recurse1 recurse2 filepath raw_lines : ∀ cache lines,
  (∀ c p, recurse1 c p = recurse2 c p) →
  resolve_body resolve_path recurse1 filepath cache raw_lines lines
  = resolve_body resolve_path recurse2 filepath cache raw_lines lines.
Proof.
  induction raw_lines as [|raw rest IH]; intros cache lines Hrec; simpl; [reflexivity|].
  destruct (PyStr.is_empty (PyStr.strip raw) || PyStr.startswith "#" (PyStr.strip raw));
    [by apply IH|].
  destruct (PyStr.startswith "include" (PyStr.strip raw)); [|by apply IH].
  destruct (PyStr.split_max1 (PyStr.strip raw)) as [|w [|arg [|x xs]]]; try by apply IH.
  rewrite Hrec. destruct (recurse2 cache (resolve_path filepath (PyStr.strip arg)));
    simpl; [by apply IH | reflexivity].
Qed.

Lemma resolve_body_grows recurse filepath raw_lines : ∀ cache lines r,
  resolve_body resolve_path recurse filepath cache raw_lines lines = Some r →
  (length lines ≤ length r.2)%nat ∧
  ((∃ l, l ∈ raw_lines ∧ is_kept l = true) → (length lines < length r.2)%nat).
Proof.
  induction raw_lines as [|raw rest IH]; intros cache lines r H; simpl in H.
  - simplify_eq. simpl. split; [lia|]. intros (l & Hl & _). by apply elem_of_nil in Hl.
  - assert (Hkeep : ∀ c, 
      resolve_body resolve_path recurse filepath c rest (lines ++ [PyStr.strip raw]) = Some r →
      (length lines < length r.2)%nat).
    { intros c Hc. apply IH in Hc. destruct Hc as [Hc _].
      rewrite length_app in Hc. simpl in Hc. lia. }
    unfold is_kept.
    destruct (PyStr.is_empty (PyStr.strip raw) || PyStr.startswith "#" (PyStr.strip raw))
      eqn:E1.
    { apply Hkeep in H. split; [lia | intros _; exact H]. }
    destruct (PyStr.startswith "include" (PyStr.strip raw)) eqn:E2.
    2:{ apply Hkeep in H. split; [lia | intros _; exact H]. }
    assert (Hrest : ∀ c acc,
      (length lines ≤ length acc)%nat →
      resolve_body resolve_path recurse filepath c rest acc = Some r →
      (length lines ≤ length r.2)%nat ∧
      ((∃ l, l ∈ raw :: rest ∧ is_kept l = true) → (length lines < length r.2)%nat)).
    { intros c acc Hacc Hc. apply IH in Hc. destruct Hc as [Hle Hlt]. split; [lia|].
      intros (l & Hl & Hk). apply elem_of_cons in Hl. destruct Hl as [->|Hl].
      - unfold is_kept in Hk. rewrite E1, E2 in Hk. discriminate.
      - assert (length acc < length r.2)%nat by (apply Hlt; eauto). lia. }
    destruct (PyStr.split_max1 (PyStr.strip raw)) as [|w [|arg [|x xs]]];
      try (by eapply Hrest; [|exact H]).
    destruct (recurse cache (resolve_path filepath (PyStr.strip arg))) as [r'|];
      [|discriminate]. simpl in H.
    eapply Hrest; [|exact H]. rewrite length_app. lia.
Qed.

Lemma resolve_lines_fuel_total fuel : ∀ cache filepath depth,
  (11 - depth < fuel)%nat →
  is_Some (resolve_lines_fuel fs resolve_path fuel cache filepath depth).
Proof.
  induction fuel as [|fuel IH]; intros cache filepath depth Hfuel; [lia|].
  simpl. destruct (10 <? depth)%nat eqn:Hd; [eauto|].
  apply Nat.ltb_ge in Hd.
  destruct (cache !! filepath); [eauto|].
  destruct (fs filepath) as [| |raw]; [eauto..|].
  destruct (resolve_body_total
              (λ c p, resolve_lines_fuel fs resolve_path fuel c p (S depth))
              filepath raw cache []) as [r Hr].
  - intros c p. apply IH. lia.
  - rewrite Hr. simpl. eauto.
Qed.

Lemma resolve_lines_fuel_irrel fuel1 : ∀ fuel2 cache filepath depth,
  (11 - depth < fuel1)%nat → (11 - depth < fuel2)%nat →
  resolve_lines_fuel fs resolve_path fuel1 cache filepath depth
  = resolve_lines_fuel fs resolve_path fuel2 cache filepath depth.
Proof.
  induction fuel1 as [|fuel1 IH]; intros fuel2 cache filepath depth H1 H2; [lia|].
  destruct fuel2 as [|fuel2]; [lia|].
  simpl. destruct (10 <? depth)%nat eqn:Hd; [reflexivity|].
  apply Nat.ltb_ge in Hd.
  destruct (cache !! filepath); [reflexivity|].
  destruct (fs filepath) as [| |raw]; [reflexivity..|].
  rewrite (resolve_body_ext _
             (λ c p, resolve_lines_fuel fs resolve_path fuel2 c p (S depth))).
  - reflexivity.
  - intros c p. apply IH; lia.
Qed.

End IncludeFacts.

(** C7: include resolution returns for every file system, path, cache and
    depth, so also for a file that includes itself, and the result does not
    depend on the fuel of the model; a call beyond the cap of 10 returns no
    lines and leaves the cache alone, with no exception; a file with a line
    that is not an include directive resolves to a non-empty sequence; and
    the board file whose [sub.dat] includes itself, as well as a chain of
    twelve files, resolve to the lines of the first eleven levels only. *)
Theorem resolve_lines_terminates fs resolve_path cache filepath depth :
  (∃ r, resolve_lines fs resolve_path cache filepath depth = Some r ∧
        ∀ fuel, (11 - depth < fuel)%nat →
          resolve_lines_fuel fs resolve_path fuel cache filepath depth = Some r) ∧
  ((10 < depth)%nat →
     resolve_lines fs resolve_path cache filepath depth = Some (cache, [])) ∧
  (∀ raw_lines l,
     (depth ≤ 10)%nat → cache !! filepath = None →
     fs filepath = Content raw_lines → l ∈ raw_lines → is_kept l = true →
     ∃ r, resolve_lines fs resolve_path cache filepath depth = Some r ∧ r.2 ≠ []) ∧
  snd <$> resolve_lines cycle_fs flat_paths ∅ "hwdef.dat" 0
    = Some ("MCU STM32F4xx STM32F405xx" :: replicate 10 "define DEPTH 1") ∧
  snd <$> resolve_lines chain_fs flat_paths ∅ "f0" 0
    = Some ["L0"; "L1"; "L2"; "L3"; "L4"; "L5"; "L6"; "L7"; "L8"; "L9"; "L10"; "T10"].
Proof.
  assert (Htot : ∃ r, resolve_lines fs resolve_path cache filepath depth = Some r).
  { apply (resolve_lines_fuel_total fs resolve_path). lia. }
  destruct Htot as [r Hr].
  split; [|split; [|split; [|split]]].
  - exists r. split; [exact Hr|]. intros fuel Hfuel. rewrite <- Hr.
    apply resolve_lines_fuel_irrel; [exact Hfuel | lia].
  - intros Hd. unfold resolve_lines. simpl.
    apply Nat.ltb_lt in Hd. rewrite Hd. reflexivity.
  - intros raw_lines l Hd Hcache Hfs Hl Hk. exists r. split; [exact Hr|].
    unfold resolve_lines in Hr. simpl in Hr.
    apply Nat.ltb_ge in Hd. rewrite Hd, Hcache, Hfs in Hr.
    destruct (resolve_body resolve_path _ filepath cache raw_lines []) as [r'|] eqn:Hb;
      [|discriminate].
    simpl in Hr. injection Hr as <-. simpl.
    apply resolve_body_grows in Hb. destruct Hb as [_ Hb].
    assert (Hlt : (length (@nil string) < length r'.2)%nat) by (apply Hb; eauto).
    intros He. rewrite He in Hlt. simpl in Hlt. lia.
  - vm_compute. reflexivity.
  - vm_compute. reflexivity.
Qed.

Lemma resolve_lines_terminates_witness :
  ∃ r, resolve_lines cycle_fs flat_paths ∅ "sub.dat" 3 = Some r ∧ r.2 ≠ [].
Proof.
  refine (proj1 (proj2 (proj2 (resolve_lines_terminates cycle_fs flat_paths ∅ "sub.dat" 3)))
            ["define DEPTH 1"; "include sub.dat"] "define DEPTH 1" _ _ _ _ _).
  - lia.
  - reflexivity.
  - reflexivity.
  - left.
  - reflexivity.
Defined.

(** ** The undef set *)

Section UndefFacts.

Variable board_ids : gmap string Z.
Variable float_ok : string → bool.
Variable orders : ChipOrders.

Lemma undef_line_not_skipped u : PyStr.startswith "undef " u = true → is_skipped u = false.
Proof.
  intros H. apply prefix_app in H. destruct H as [r ->]. reflexivity.
Qed.

Lemma process_step_undef st u name :
  PyStr.startswith "undef " u = true → undef_name u = Some name →
  process_step board_ids float_ok st u = Some (st.1, {[name]} ∪ st.2).
Proof.
  intros Hu Hname. unfold process_step.
  rewrite (undef_line_not_skipped u Hu), Hu, Hname. reflexivity.
Qed.

(** With one more name in the undef set the loop builds the same record,
    as long as no CAN keyword line has that name as its first word. *)
Lemma process_lines_undefs name post : ∀ b undefs,
  (∀ l, l ∈ post → is_can_keyword (token (PyStr.split l) 0) = true →
        token (PyStr.split l) 0 ≠ name) →
  fst <$> process_lines board_ids float_ok (b, {[name]} ∪ undefs) post
  = fst <$> process_lines board_ids float_ok (b, undefs) post.
Proof.
  induction post as [|l post IH]; intros b undefs Hpost; [reflexivity|].
  assert (Hrest : ∀ l', l' ∈ post →
            is_can_keyword (token (PyStr.split l') 0) = true →
            token (PyStr.split l') 0 ≠ name).
  { intros l' Hl'. apply Hpost. by right. }
  simpl. unfold process_step. simpl.
  destruct (is_skipped l); simpl; [by apply IH|].
  destruct (PyStr.startswith "undef " l); simpl.
  - destruct (undef_name l) as [n'|]; simpl; [|reflexivity].
    replace ({[n']} ∪ ({[name]} ∪ undefs)) with ({[name]} ∪ ({[n']} ∪ undefs))
      by (rewrite !assoc_L by apply _; f_equal; apply comm_L; apply _).
    by apply IH.
  - destruct (PyStr.split l) as [|kw rest] eqn:Hs; simpl; [by apply IH|].
    rewrite process_line_undefs; [by apply IH|].
    destruct (is_can_keyword (token (kw :: rest) 0)) eqn:Hcan; [|by left].
    right. specialize (Hpost l). rewrite Hs in Hpost. apply Hpost; [left | exact Hcan].
Qed.

Lemma header_lines_stop pre rest :
  (∃ l, l ∈ pre ∧ is_skipped l = false) →
  header_lines (pre ++ rest) = header_lines pre.
Proof.
  induction pre as [|a pre IH]; intros (l & Hl & Hs).
  - by apply elem_of_nil in Hl.
  - simpl. unfold is_skipped in Hs.
    destruct (PyStr.startswith "#" a) eqn:Ha.
    + f_equal. apply IH. exists l. split; [|exact Hs].
      apply elem_of_cons in Hl. destruct Hl as [->|Hl]; [|exact Hl].
      rewrite Ha, orb_true_r in Hs. discriminate.
    + destruct (PyStr.is_empty a) eqn:He; simpl; [|reflexivity].
      apply IH. exists l. split; [|exact Hs].
      apply elem_of_cons in Hl. destruct Hl as [->|Hl]; [|exact Hl].
      rewrite He in Hs. discriminate.
Qed.

Lemma rc_scan_insert pre u post :
  rc_classify u = None → rc_scan (pre ++ u :: post) = rc_scan (pre ++ post).
Proof.
  intros Hu. induction pre as [|l pre IH].
  - simpl app. by rewrite rc_scan_cons, Hu.
  - change ((l :: pre) ++ u :: post) with (l :: (pre ++ u :: post)).
    change ((l :: pre) ++ post) with (l :: (pre ++ post)).
    by rewrite !rc_scan_cons, IH.
Qed.

Lemma uart_pin_step_inert m u : uart_pin_line u = None → uart_pin_step m u = m.
Proof.
  unfold uart_pin_line, uart_pin_step. intros H.
  destruct (is_skipped u); [reflexivity|].
  destruct (length (PyStr.split u) <? 2)%nat; [reflexivity|].
  destruct (is_uart_func (token (PyStr.split u) 1)); [discriminate | reflexivity].
Qed.

Lemma uart_pins_of_insert pre u post :
  uart_pin_line u = None → uart_pins_of (pre ++ u :: post) = uart_pins_of (pre ++ post).
Proof.
  intros Hu. unfold uart_pins_of. rewrite !fold_left_app. simpl.
  by rewrite uart_pin_step_inert.
Qed.

Lemma nodma_uarts_of_insert pre u post :
  PyStr.contains "NODMA" u = false →
  nodma_uarts_of (pre ++ u :: post) = nodma_uarts_of (pre ++ post).
Proof.
  intros Hu. unfold nodma_uarts_of. rewrite !fold_left_app. simpl.
  f_equal. unfold nodma_step. rewrite Hu. by destruct (is_skipped u).
Qed.

Lemma post_process_ext b lines1 lines2 :
  rc_scan lines1 = rc_scan lines2 →
  uart_pins_of lines1 = uart_pins_of lines2 →
  nodma_uarts_of lines1 = nodma_uarts_of lines2 →
  post_process board_ids orders b lines1 = post_process board_ids orders b lines2.
Proof.
  intros H1 H2 H3. unfold post_process, detect_rc_input, parse_uart_details.
  rewrite H1, H2, H3. reflexivity.
Qed.

End UndefFacts.

(** C9, as the code has it: the undef set is read only by the CAN-keyword
    rule, so an inserted [undef] line whose name is not the first word of a
    later CAN keyword line leaves the parsed board unchanged, provided the
    line itself is not picked up by the passes that scan the raw lines: it
    comes after the first directive line (so the header comment is already
    closed), it is not an RC-input heuristic line, its second word is not a
    UART TX/RX function name, and it does not contain [NODMA]. *)
Theorem undef_noninterference board_ids float_ok orders folder pre post u name :
  PyStr.startswith "undef " u = true →
  undef_name u = Some name →
  (∀ l, l ∈ post → is_can_keyword (token (PyStr.split l) 0) = true →
        token (PyStr.split l) 0 ≠ name) →
  (∃ l, l ∈ pre ∧ is_skipped l = false) →
  rc_classify u = None →
  uart_pin_line u = None →
  PyStr.contains "NODMA" u = false →
  parse_board board_ids float_ok orders folder (pre ++ u :: post)
  = parse_board board_ids float_ok orders folder (pre ++ post).
Proof.
  intros Hu Hname Hcan Hhead Hrc Huart Hnodma.
  unfold parse_board, directive_pass.
  assert (Hinit : initial_board folder (pre ++ u :: post) = initial_board folder (pre ++ post)).
  { unfold initial_board, header_of. by rewrite !header_lines_stop. }
  rewrite Hinit.
  assert (Hloop :
    fst <$> process_lines board_ids float_ok (initial_board folder (pre ++ post), ∅)
              (pre ++ u :: post)
    = fst <$> process_lines board_ids float_ok (initial_board folder (pre ++ post), ∅)
              (pre ++ post)).
  { rewrite !process_lines_app.
    destruct (process_lines board_ids float_ok (initial_board folder (pre ++ post), ∅) pre)
      as [[b1 undefs1]|]; simpl; [|reflexivity].
    rewrite (process_step_undef board_ids float_ok (b1, undefs1) u name Hu Hname). simpl.
    by apply process_lines_undefs. }
  rewrite Hloop.
  destruct (fst <$> process_lines board_ids float_ok
              (initial_board folder (pre ++ post), ∅) (pre ++ post)) as [b|];
    simpl; [|reflexivity].
  f_equal. apply post_process_ext;
    [by apply rc_scan_insert | by apply uart_pins_of_insert
    | by apply nodma_uarts_of_insert].
Qed.

Lemma undef_noninterference_witness :
  parse_board ∅ no_float source_orders "board"
    ["# demo board"; "MCU STM32F4xx STM32F405xx"; "undef PA0";
     "SERIAL_ORDER OTG1 USART1"; "PA0 TIM2_CH1 TIM2 PWM(1) GPIO(50)"]
  = parse_board ∅ no_float source_orders "board"
    ["# demo board"; "MCU STM32F4xx STM32F405xx";
     "SERIAL_ORDER OTG1 USART1"; "PA0 TIM2_CH1 TIM2 PWM(1) GPIO(50)"].
Proof.
  apply (undef_noninterference ∅ no_float source_orders "board"
           ["# demo board"; "MCU STM32F4xx STM32F405xx"]
           ["SERIAL_ORDER OTG1 USART1"; "PA0 TIM2_CH1 TIM2 PWM(1) GPIO(50)"]
           "undef PA0" "PA0").
  - reflexivity.
  - reflexivity.
  - intros l Hl Hc. apply elem_of_cons in Hl. destruct Hl as [->|Hl].
    + vm_compute in Hc. discriminate.
    + apply list_elem_of_singleton in Hl. subst l. vm_compute in Hc. discriminate.
  - exists "MCU STM32F4xx STM32F405xx". split; [right; left | reflexivity].
  - reflexivity.
  - reflexivity.
  - reflexivity.
Defined.

(** An inserted [undef] line is read by the UART pass, which takes its
    name for a function word, and by the header extraction, which it
    closes. *)
Lemma undef_line_interferes :
  (λ b, (λ u, (UartDef.uart_name u, UartDef.has_tx u, UartDef.has_rx u))
          <$> BoardData.uarts b)
    <$> parse_board ∅ no_float source_orders "board"
          ["SERIAL_ORDER USART1"; "undef USART1_TX"]
    = Some [("USART1", true, false)]
  ∧ (λ b, (λ u, (UartDef.uart_name u, UartDef.has_tx u, UartDef.has_rx u))
          <$> BoardData.uarts b)
    <$> parse_board ∅ no_float source_orders "board" ["SERIAL_ORDER USART1"]
    = Some [("USART1", true, true)]
  ∧ parse_board ∅ no_float source_orders "board" ["SERIAL_ORDER USART1"; "undef USART1_TX"]
    ≠ parse_board ∅ no_float source_orders "board" ["SERIAL_ORDER USART1"]
  ∧ BoardData.header_comments
    <$> parse_board ∅ no_float source_orders "board"
          ["undef HAL_X"; "# demo board"; "SERIAL_ORDER USART1"]
    = Some ""
  ∧ BoardData.header_comments
    <$> parse_board ∅ no_float source_orders "board"
          ["# demo board"; "SERIAL_ORDER USART1"]
    = Some "demo board".
Proof.
  split; [vm_compute; reflexivity|]. split; [vm_compute; reflexivity|].
  split; [|split; vm_compute; reflexivity].
  intros H.
  assert (H' : BoardData.uarts <$> parse_board ∅ no_float source_orders "board"
                  ["SERIAL_ORDER USART1"; "undef USART1_TX"]
             = BoardData.uarts <$> parse_board ∅ no_float source_orders "board"
                  ["SERIAL_ORDER USART1"]) by (rewrite H; reflexivity).
  vm_compute in H'. discriminate.
Qed.

(** ** The parser returns on resolved lines *)

Lemma lstrip_empty_rstrip p r :
  PyStr.lstrip_by p r = "" → PyStr.rstrip_by p r = "".
Proof.
  induction r as [|c r IH]; intros H; [reflexivity|].
  simpl in *. destruct (p c); [|discriminate].
  rewrite (IH H). reflexivity.
Qed.

Lemma rstrip_idem p s :
  PyStr.rstrip_by p (PyStr.rstrip_by p s) = PyStr.rstrip_by p s.
Proof.
  induction s as [|c s IH]; [reflexivity|].
  simpl. destruct (p c && PyStr.is_empty (PyStr.rstrip_by p s)) eqn:E; [reflexivity|].
  simpl. rewrite IH, E. reflexivity.
Qed.

Lemma lstrip_head p s :
  PyStr.lstrip_by p s = "" ∨ ∃ c t, PyStr.lstrip_by p s = String c t ∧ p c = false.
Proof.
  induction s as [|c s IH]; [by left|].
  simpl. destruct (p c) eqn:E; [exact IH|]. right. eauto.
Qed.

Lemma strip_idem s : PyStr.strip (PyStr.strip s) = PyStr.strip s.
Proof.
  unfold PyStr.strip, PyStr.strip_by.
  destruct (lstrip_head PyStr.is_space s) as [->|(c & t & -> & Hc)]; [reflexivity|].
  simpl. rewrite Hc. simpl. rewrite Hc. simpl. rewrite Hc. simpl.
  by rewrite rstrip_idem.
Qed.

Lemma undef_name_stripped line :
  stripped line → PyStr.startswith "undef " line = true → is_Some (undef_name line).
Proof.
  intros Hs Hu. apply prefix_app in Hu. destruct Hu as [r ->].
  change ("undef " +:+ r)
    with (String "u" (String "n" (String "d" (String "e" (String "f" (String " " r))))))
    in *.
  unfold undef_name, PyStr.split_max1. simpl.
  destruct (PyStr.lstrip_by PyStr.is_space r) as [|c t] eqn:Hr; simpl; [|eauto].
  exfalso. apply lstrip_empty_rstrip in Hr.
  unfold stripped, PyStr.strip, PyStr.strip_by in Hs. simpl in Hs.
  rewrite Hr in Hs. simpl in Hs. discriminate.
Qed.

Lemma process_lines_total board_ids float_ok lines : ∀ st,
  Forall stripped lines → is_Some (process_lines board_ids float_ok st lines).
Proof.
  induction lines as [|l lines IH]; intros st Hall; simpl; [eauto|].
  apply Forall_cons in Hall. destruct Hall as [Hl Hall].
  assert (Hstep : is_Some (process_step board_ids float_ok st l)).
  { unfold process_step. destruct (is_skipped l); [eauto|].
    destruct (PyStr.startswith "undef " l) eqn:Hu.
    - destruct (undef_name_stripped l Hl Hu) as [n ->]. simpl. eauto.
    - destruct (PyStr.split l); eauto. }
  destruct Hstep as [st' ->]. simpl. by apply IH.
Qed.

(** On lines without blanks at either end the directive loop raises no
    exception: a board is returned. *)
Lemma parse_board_total board_ids float_ok orders folder lines :
  Forall stripped lines →
  is_Some (parse_board board_ids float_ok orders folder lines).
Proof.
  intros Hall. unfold parse_board, directive_pass.
  destruct (process_lines_total board_ids float_ok lines
              (initial_board folder lines, ∅) Hall) as [st ->].
  simpl. eauto.
Qed.

Section ResolvedLines.

Variable fs : string → FileState.
Variable resolve_path : string → string → string.

Lemma resolve_body_stripped recurse filepath raw_lines : ∀ cache lines r,
  (∀ c p r', cache_stripped c → recurse c p = Some r' →
             cache_stripped r'.1 ∧ Forall stripped r'.2) →
  cache_stripped cache → Forall stripped lines →
  resolve_body resolve_path recurse filepath cache raw_lines lines = Some r →
  cache_stripped r.1 ∧ Forall stripped r.2.
Proof.
  induction raw_lines as [|raw rest IH]; intros cache lines r Hrec Hc Hl H; simpl in H.
  - by simplify_eq.
  - assert (Hsnoc : Forall stripped (lines ++ [PyStr.strip raw])).
    { apply Forall_app. split; [exact Hl|]. constructor; [apply strip_idem|constructor]. }
    destruct (PyStr.is_empty (PyStr.strip raw) || PyStr.startswith "#" (PyStr.strip raw));
      [exact (IH _ _ _ Hrec Hc Hsnoc H)|].
    destruct (PyStr.startswith "include" (PyStr.strip raw)); [|exact (IH _ _ _ Hrec Hc Hsnoc H)].
    destruct (PyStr.split_max1 (PyStr.strip raw)) as [|w [|arg [|x xs]]];
      try exact (IH _ _ _ Hrec Hc Hl H).
    destruct (recurse cache (resolve_path filepath (PyStr.strip arg))) as [r'|] eqn:Hr;
      [|discriminate]. simpl in H.
    destruct (Hrec _ _ _ Hc Hr) as [Hc' Hl'].
    eapply IH; [exact Hrec | exact Hc' | | exact H].
    apply Forall_app. by split.
Qed.

Lemma resolve_lines_fuel_stripped fuel : ∀ cache filepath depth r,
  cache_stripped cache →
  resolve_lines_fuel fs resolve_path fuel cache filepath depth = Some r →
  cache_stripped r.1 ∧ Forall stripped r.2.
Proof.
  induction fuel as [|fuel IH]; intros cache filepath depth r Hc H; [discriminate|].
  simpl in H. destruct (10 <? depth)%nat; [simplify_eq; split; [exact Hc|constructor]|].
  destruct (cache !! filepath) as [ls|] eqn:Hk.
  { simplify_eq. split; [exact Hc|]. by eapply Hc. }
  destruct (fs filepath) as [| |raw];
    [simplify_eq; split; [exact Hc|constructor]..|].
  destruct (resolve_body resolve_path _ filepath cache raw []) as [r'|] eqn:Hb;
    [|discriminate]. simpl in H. simplify_eq. simpl.
  apply resolve_body_stripped in Hb; [| |exact Hc|constructor].
  - destruct Hb as [Hc' Hl']. split; [|exact Hl'].
    intros k ls Hk'. destruct (decide (filepath = k)) as [->|Hne].
    + rewrite lookup_insert_eq in Hk'. by simplify_eq.
    + rewrite lookup_insert_ne in Hk' by exact Hne. by eapply Hc'.
  - intros c p r'' Hc'' Hr''. by eapply IH.
Qed.

(** Whatever the files, the lines that include resolution hands to the
    directive loop make it return a board. *)
Lemma parse_resolved_total board_ids float_ok orders folder filepath r :
  resolve_lines fs resolve_path ∅ filepath 0 = Some r →
  is_Some (parse_board board_ids float_ok orders folder r.2).
Proof.
  intros H. apply parse_board_total.
  apply resolve_lines_fuel_stripped in H; [by destruct H|].
  intros k ls Hk. by rewrite lookup_empty in Hk.
Qed.

End ResolvedLines.

(** * Further properties of the parser *)

(** ** The complementary-output flag *)

Lemma split_on_nonempty sep s : PyStr.split_on sep s ≠ [].
Proof.
  destruct s as [|c s]; simpl; [discriminate|].
  destruct (Ascii.eqb c sep); [discriminate|].
  destruct (PyStr.split_on sep s); discriminate.
Qed.

Lemma split_on_single sep s x : PyStr.split_on sep s = [x] → x = s.
Proof.
  revert x. induction s as [|c s IH]; intros x H; simpl in H.
  - congruence.
  - destruct (Ascii.eqb c sep).
    + injection H as _ H. by apply split_on_nonempty in H.
    + destruct (PyStr.split_on sep s) as [|y ys] eqn:E;
        [by apply split_on_nonempty in E|].
      injection H as <- ->. f_equal. by apply IH.
Qed.

Lemma last_char_contains c s :
  PyStr.last_char_is c s = true → PyStr.contains (String c "") s = true.
Proof.
  induction s as [|a s IH]; intros H; [discriminate|].
  simpl in H. destruct s as [|b s].
  - apply Ascii.eqb_eq in H. subst a.
    change (PyStr.contains (String c "") (String c ""))
      with (String.prefix (String c "") (String c "") || PyStr.contains (String c "") "").
    rewrite prefix_cons, Ascii.eqb_refl. reflexivity.
  - change (PyStr.contains (String c "") (String a (String b s)))
      with (String.prefix (String c "") (String a (String b s))
            || PyStr.contains (String c "") (String b s)).
    rewrite (IH H). apply orb_true_r.
Qed.

Lemma last_segment_last_char c sep s :
  c ≠ sep →
  PyStr.last_char_is c (List.last (PyStr.split_on sep s) "") = PyStr.last_char_is c s.
Proof.
  intros Hne. induction s as [|a s IH]; [reflexivity|].
  simpl PyStr.split_on. destruct (Ascii.eqb a sep) eqn:Ea.
  - apply Ascii.eqb_eq in Ea. subst a.
    destruct (PyStr.split_on sep s) as [|y ys] eqn:E; [by apply split_on_nonempty in E|].
    change (List.last ("" :: y :: ys) "") with (List.last (y :: ys) "").
    rewrite IH. destruct s as [|b s]; simpl.
    + symmetry. apply Ascii.eqb_neq. congruence.
    + reflexivity.
  - destruct (PyStr.split_on sep s) as [|y ys] eqn:E; [by apply split_on_nonempty in E|].
    destruct ys as [|z zs].
    + apply split_on_single in E. subst y. reflexivity.
    + change (List.last (String a y :: z :: zs) "") with (List.last (y :: z :: zs) "").
      rewrite IH. destruct s as [|b s]; [discriminate E|]. reflexivity.
Qed.

(** X1: the complementary flag of an output pin, computed on the last
    [_]-separated part of the timer channel, is true exactly when the
    timer channel itself ends with [N]. *)
Theorem complementary_ends_with_N timer_ch :
  is_complementary timer_ch = PyStr.last_char_is "N" timer_ch.
Proof.
  unfold is_complementary. cbv zeta.
  rewrite last_segment_last_char by discriminate.
  destruct (PyStr.last_char_is "N" timer_ch) eqn:E; [|apply andb_false_r].
  rewrite andb_true_r. apply last_char_contains.
  by rewrite last_segment_last_char by discriminate.
Qed.

(** ** Words and the stored value of a define *)

Lemma no_space_snoc s c :
  no_space s = true → PyStr.is_space c = false → no_space (s +:+ String c "") = true.
Proof.
  induction s as [|a s IH]; intros Hs Hc.
  - simpl. by rewrite Hc.
  - rewrite app_cons. simpl in *. apply andb_true_iff in Hs. destruct Hs as [Ha Hs].
    rewrite Ha. simpl. by apply IH.
Qed.

Lemma split_go_words s : ∀ cur,
  no_space cur = true → Forall is_word (PyStr.split_go cur s).
Proof.
  induction s as [|c s IH]; intros cur Hcur; simpl.
  - destruct (PyStr.is_empty cur) eqn:E; constructor; [|constructor].
    split; [by apply is_empty_false|exact Hcur].
  - destruct (PyStr.is_space c) eqn:Hc.
    + destruct (PyStr.is_empty cur) eqn:E; [by apply IH|].
      constructor; [|by apply IH]. split; [by apply is_empty_false|exact Hcur].
    + apply IH. by apply no_space_snoc.
Qed.

Lemma split_words line : Forall is_word (PyStr.split line).
Proof. by apply split_go_words. Qed.

Lemma split_go_word w : ∀ cur rest,
  no_space w = true →
  PyStr.split_go cur (w +:+ rest) = PyStr.split_go (cur +:+ w) rest.
Proof.
  induction w as [|c w IH]; intros cur rest Hw.
  - by rewrite app_empty_r.
  - simpl in Hw. apply andb_true_iff in Hw. destruct Hw as [Hc Hw].
    apply negb_true_iff in Hc. rewrite app_cons. simpl. rewrite Hc.
    rewrite IH by exact Hw. by rewrite app_snoc_cons.
Qed.

Lemma join_cons2 sep t t' ts :
  PyStr.join sep (t :: t' :: ts) = t +:+ sep +:+ PyStr.join sep (t' :: ts).
Proof. reflexivity. Qed.

Lemma split_join toks :
  Forall is_word toks → PyStr.split (PyStr.join " " toks) = toks.
Proof.
  intros Hall. destruct toks as [|t ts]; [reflexivity|].
  revert t Hall. induction ts as [|t' ts IH]; intros t Hall.
  - apply Forall_cons in Hall. destruct Hall as [[Hne Hns] _].
    change (PyStr.join " " [t]) with t. unfold PyStr.split.
    rewrite <- (app_empty_r t) at 1. rewrite split_go_word by exact Hns.
    change ("" +:+ t) with t.
    simpl. apply is_empty_false in Hne. by rewrite Hne.
  - apply Forall_cons in Hall. destruct Hall as [[Hne Hns] Hall].
    rewrite join_cons2. unfold PyStr.split.
    rewrite split_go_word by exact Hns. change ("" +:+ t) with t.
    change (" " +:+ PyStr.join " " (t' :: ts))
      with (String " " (PyStr.join " " (t' :: ts))).
    simpl PyStr.split_go.
    apply is_empty_false in Hne. rewrite Hne. f_equal. by apply IH.
Qed.

(** X2: the value a [define] stores under its name splits back into
    exactly the value words of the line: nothing but the blanks between
    the words is lost. *)
Theorem define_value_words float_ok board line :
  ∃ value,
    BoardData.defines (process_define float_ok board (PyStr.split line))
      !! token (PyStr.split line) 1 = Some value ∧
    PyStr.split value = drop 2 (PyStr.split line).
Proof.
  exists (PyStr.join " " (drop 2 (PyStr.split line))). split.
  - rewrite process_define_defines. apply lookup_insert_eq.
  - apply split_join. apply Forall_drop. apply split_words.
Qed.

(** ** Serial channels *)

Lemma process_line_serial board_ids float_ok b parts line undefs :
  let b' := process_line board_ids float_ok b parts line undefs in
  (BoardData.uarts b' = BoardData.uarts b
   ∧ BoardData.serial_order b' = BoardData.serial_order b)
  ∨ (BoardData.uarts b' = imap make_uart (drop 1 parts)
     ∧ BoardData.serial_order b' = drop 1 parts).
Proof.
  cbv zeta. unfold process_line.
  branch_cases; try (left; split; reflexivity); try (right; split; reflexivity).
  left. unfold process_define. cbv zeta.
  pose proof (define_effects_frame float_ok (token parts 1) (PyStr.join " " (drop 2 parts))
           (BoardData.set_defines
             (<[token parts 1 := PyStr.join " " (drop 2 parts)]> (BoardData.defines b)) b)) as H.
  unfold define_frame in H. destruct_and!. split; assumption.
Qed.

Lemma process_lines_in_step board_ids float_ok lines : ∀ st st',
  process_lines board_ids float_ok st lines = Some st' →
  in_step st.1 → in_step st'.1.
Proof.
  induction lines as [|line rest IH]; intros st st' H Hin; simpl in H.
  - by simplify_eq.
  - destruct (process_step board_ids float_ok st line) as [st1|] eqn:Hstep;
      [|discriminate]. simpl in H.
    eapply IH; [exact H|]. clear H IH.
    unfold process_step in Hstep.
    destruct (is_skipped line); [by simplify_eq|].
    destruct (PyStr.startswith "undef " line).
    + destruct (undef_name line); by simplify_eq/=.
    + destruct (PyStr.split line) as [|kw ws] eqn:Hs; simplify_eq/=; [done|].
      unfold in_step in *.
      destruct (process_line_serial board_ids float_ok st.1 (kw :: ws) line st.2)
        as [[-> ->]|[-> ->]]; [exact Hin | reflexivity].
Qed.

Lemma post_process_serial_order board_ids orders b lines :
  BoardData.serial_order (post_process board_ids orders b lines)
  = BoardData.serial_order b.
Proof.
  unfold post_process, resolve_board_id, detect_rc_input. cbv zeta.
  branch_cases; reflexivity.
Qed.

Lemma update_uart_identity pins nodma u :
  UartDef.uart_name (update_uart pins nodma u) = UartDef.uart_name u ∧
  UartDef.serial_index (update_uart pins nodma u) = UartDef.serial_index u ∧
  UartDef.is_usb (update_uart pins nodma u) = UartDef.is_usb u ∧
  UartDef.is_empty (update_uart pins nodma u) = UartDef.is_empty u.
Proof.
  unfold update_uart.
  destruct (pins !! UartDef.uart_name u) as [[tx rx]|]; simpl;
    destruct (negb (UartDef.is_usb u) && negb (UartDef.is_empty u)); simpl;
    repeat split.
Qed.

(** X3: on every parsed board the serial channels are in step with the
    serial order: the hardware names of the channels, in order, are the
    serial-order tokens (those of the last SERIAL_ORDER directive), and the
    channel at position [i] has serial index [i] and the USB and empty
    flags of its name. *)
Theorem serial_channels_in_step board_ids float_ok orders folder lines board :
  parse_board board_ids float_ok orders folder lines = Some board →
  UartDef.uart_name <$> BoardData.uarts board = BoardData.serial_order board ∧
  ∀ i u, BoardData.uarts board !! i = Some u →
    UartDef.serial_index u = Z.of_nat i ∧
    UartDef.is_usb u
      = (PyStr.startswith "OTG" (UartDef.uart_name u)
         || String.eqb (UartDef.uart_name u) "USB") ∧
    UartDef.is_empty u = String.eqb (UartDef.uart_name u) "EMPTY".
Proof.
  intros Hparse. apply parse_board_inv in Hparse.
  destruct Hparse as (b0 & undefs & Hloop & ->).
  rewrite post_process_uarts, post_process_serial_order.
  apply process_lines_in_step in Hloop; [|reflexivity].
  simpl in Hloop. unfold in_step in Hloop. rewrite Hloop.
  split.
  - rewrite <- list_fmap_compose.
    apply list_eq. intros i. rewrite list_lookup_fmap, list_lookup_imap.
    destruct (BoardData.serial_order b0 !! i) as [tok|]; [|reflexivity].
    simpl. f_equal.
    by destruct (update_uart_identity (uart_pins_of lines) (nodma_uarts_of lines)
                   (make_uart i tok)) as (-> & _).
  - intros i u Hu. rewrite list_lookup_fmap, list_lookup_imap in Hu.
    destruct (BoardData.serial_order b0 !! i) as [tok|]; [|discriminate].
    simpl in Hu. injection Hu as <-.
    destruct (update_uart_identity (uart_pins_of lines) (nodma_uarts_of lines)
                (make_uart i tok)) as (Hn & Hi & Hu & He).
    rewrite Hn, Hi, Hu, He. repeat split.
Qed.

Lemma serial_channels_in_step_witness :
  ∃ board,
    parse_board ∅ no_float source_orders "board"
      ["SERIAL_ORDER OTG1 USART1"; "PA9 USART1_TX USART1"; "SERIAL_ORDER OTG1 EMPTY UART4"]
      = Some board ∧
    UartDef.uart_name <$> BoardData.uarts board = ["OTG1"; "EMPTY"; "UART4"].
Proof.
  destruct (parse_board ∅ no_float source_orders "board"
      ["SERIAL_ORDER OTG1 USART1"; "PA9 USART1_TX USART1"; "SERIAL_ORDER OTG1 EMPTY UART4"])
    as [board|] eqn:Hp; [|vm_compute in Hp; discriminate].
  exists board. split; [reflexivity|].
  rewrite (proj1 (serial_channels_in_step ∅ no_float source_orders "board" _ board Hp)).
  pose proof Hp as Hq. vm_compute in Hq. injection Hq as <-. reflexivity.
Defined.

(** ** DMA flags *)

Lemma nodma_words_fold parts : ∀ (acc : gset string) x,
  x ∈ fold_left (λ acc p,
         fold_left (λ acc uart_prefix,
             if PyStr.startswith uart_prefix p then {[p]} ∪ acc else acc)
           ["USART"; "UART"] acc) parts acc
  ↔ x ∈ acc ∨ (x ∈ parts ∧
       (PyStr.startswith "USART" x = true ∨ PyStr.startswith "UART" x = true)).
Proof.
  induction parts as [|p parts IH]; intros acc x; simpl.
  - split; [by left|]. intros [H|[H _]]; [exact H|by apply elem_of_nil in H].
  - rewrite IH. rewrite elem_of_cons.
    destruct (PyStr.startswith "USART" p) eqn:E1;
      destruct (PyStr.startswith "UART" p) eqn:E2;
      rewrite ?elem_of_union, ?elem_of_singleton; split.
    all: intros H; destruct_or?; destruct_and?; subst; eauto 6.
    all: try (destruct_or?; subst; eauto 6; congruence).
Qed.

Lemma nodma_uarts_of_snoc lines line :
  nodma_uarts_of (lines ++ [line]) = nodma_step (nodma_uarts_of lines) line.
Proof. unfold nodma_uarts_of. by rewrite fold_left_app. Qed.

(** The negative set holds exactly the kept words of the NODMA lines. *)
Lemma nodma_uarts_of_spec lines p :
  p ∈ nodma_uarts_of lines ↔ nodma_word lines p.
Proof.
  induction lines as [|line lines IH] using rev_ind.
  - unfold nodma_uarts_of, nodma_word. simpl. split.
    + intros H. by apply elem_of_empty in H.
    + intros (l & Hl & _). by apply elem_of_nil in Hl.
  - rewrite nodma_uarts_of_snoc. unfold nodma_step.
    assert (Hold : nodma_word lines p → nodma_word (lines ++ [line]) p).
    { intros (l & Hl & H). exists l. split; [|exact H]. apply elem_of_app. by left. }
    assert (Hnew : nodma_word (lines ++ [line]) p →
              nodma_word lines p ∨
              (is_skipped line = false ∧ PyStr.contains "NODMA" line = true ∧
               p ∈ PyStr.split line ∧
               (PyStr.startswith "USART" p = true ∨ PyStr.startswith "UART" p = true))).
    { intros (l & Hl & H). apply elem_of_app in Hl. destruct Hl as [Hl|Hl].
      - left. exists l. by split.
      - apply list_elem_of_singleton in Hl. subst l. by right. }
    destruct (is_skipped line) eqn:Hs.
    { rewrite IH. split; [exact Hold|]. intros H. apply Hnew in H.
      destruct H as [H|(H & _)]; [exact H|discriminate]. }
    destruct (PyStr.contains "NODMA" line) eqn:Hn.
    2:{ rewrite IH. split; [exact Hold|]. intros H. apply Hnew in H.
        destruct H as [H|(_ & H & _)]; [exact H|discriminate]. }
    rewrite nodma_words_fold, IH. split.
    + intros [H|[Hin Hp]]; [by apply Hold|].
      exists line. split; [apply elem_of_app; right; left|]. by repeat split.
    + intros H. apply Hnew in H. destruct H as [H|(_ & _ & Hin & Hp)]; [by left|].
      right. by split.
Qed.

(** X4: on every parsed board, a channel that is USB or empty has both DMA
    flags false; any other channel has TX-DMA true, and RX-DMA true exactly
    when its hardware name is not a word, starting with [USART] or [UART],
    of some line that contains [NODMA]. *)
Theorem uart_dma_flags board_ids float_ok orders folder lines board u :
  parse_board board_ids float_ok orders folder lines = Some board →
  u ∈ BoardData.uarts board →
  (UartDef.is_usb u = true ∨ UartDef.is_empty u = true →
     UartDef.tx_dma u = false ∧ UartDef.rx_dma u = false) ∧
  (UartDef.is_usb u = false → UartDef.is_empty u = false →
     UartDef.tx_dma u = true ∧
     (UartDef.rx_dma u = true ↔ ¬ nodma_word lines (UartDef.uart_name u))).
Proof.
  intros Hparse Hu.
  destruct (parse_board_uarts _ _ _ _ _ _ _ Hparse Hu) as (u0 & Hfresh & ->).
  destruct Hfresh as (_ & _ & Hrx & Htx).
  unfold update_uart.
  destruct (uart_pins_of lines !! UartDef.uart_name u0) as [[tx rx]|]; simpl;
    destruct (UartDef.is_usb u0) eqn:Eu; destruct (UartDef.is_empty u0) eqn:Ee; simpl;
    (split; [intros Hor | intros H1 H2]); try congruence;
    try (destruct Hor; congruence); try (split; assumption).
  all: split; [reflexivity|].
  all: rewrite bool_decide_eq_true, nodma_uarts_of_spec; reflexivity.
Qed.

Lemma uart_dma_flags_witness :
  ∃ board u,
    parse_board ∅ no_float source_orders "board"
      ["SERIAL_ORDER OTG1 USART2"; "PA3 USART2_RX USART2 NODMA"] = Some board ∧
    u ∈ BoardData.uarts board ∧ UartDef.uart_name u = "USART2" ∧
    UartDef.tx_dma u = true ∧ UartDef.rx_dma u = false.
Proof.
  destruct (parse_board ∅ no_float source_orders "board"
      ["SERIAL_ORDER OTG1 USART2"; "PA3 USART2_RX USART2 NODMA"])
    as [board|] eqn:Hp; [|vm_compute in Hp; discriminate].
  assert (Hu : ∃ u, u ∈ BoardData.uarts board ∧ UartDef.uart_name u = "USART2"
                    ∧ UartDef.is_usb u = false ∧ UartDef.is_empty u = false
                    ∧ UartDef.rx_dma u = false).
  { pose proof Hp as Hq. vm_compute in Hq. injection Hq as <-.
    eexists. split; [right; left|]. repeat split. }
  destruct Hu as (u & Hu & Hname & Husb & Hempty & Hrx).
  exists board, u. split; [reflexivity|]. split; [exact Hu|]. split; [exact Hname|].
  split; [|exact Hrx].
  exact (proj1 (proj2 (uart_dma_flags ∅ no_float source_orders "board" _ board u Hp Hu)
                  Husb Hempty)).
Defined.

(** ** What the define side effects can touch *)

(** The side effects of a [define] go through seven setters only, so a
    property kept by each of them is kept by all the side effects. *)
Lemma define_effects_preserve (float_ok : string → bool) (P : BoardData.t → Prop) n v :
  (∀ b, P b → P (BoardData.set_has_buzzer true b)) →
  (∀ b bat, P b → P (BoardData.set_battery bat b)) →
  (∀ b, P b → P (BoardData.set_has_safety_switch true b)) →
  (∀ b k, P b → P (BoardData.set_can_interfaces k b)) →
  (∀ b s, P b → P (BoardData.set_board_name s b)) →
  (∀ b, P b → P (BoardData.set_has_led_strip true b)) →
  (∀ b o, P b →
     P (BoardData.set_sensors (BuiltinSensors.set_osd o (BoardData.sensors b)) b)) →
  (∀ b, P b →
     P (BoardData.set_sensors (BuiltinSensors.set_sdcard true (BoardData.sensors b)) b)) →
  ∀ b, P b →
  P (define_sdcard n v (define_osd n v (define_led_strip n
      (define_board_name n v (define_can n v (define_safety n v
        (define_battery float_ok n v (define_buzzer n b)))))))).
Proof.
  intros H1 H2 H3 H4 H5 H6 H7 H8 b Hb.
  assert (S1 : ∀ b, P b → P (define_buzzer n b)).
  { intros x Hx. unfold define_buzzer. branch_cases; auto. }
  assert (S2 : ∀ b, P b → P (define_battery float_ok n v b)).
  { intros x Hx. unfold define_battery. branch_cases; auto. }
  assert (S3 : ∀ b, P b → P (define_safety n v b)).
  { intros x Hx. unfold define_safety. branch_cases; auto. }
  assert (S4 : ∀ b, P b → P (define_can n v b)).
  { intros x Hx. unfold define_can. branch_cases; auto. }
  assert (S5 : ∀ b, P b → P (define_board_name n v b)).
  { intros x Hx. unfold define_board_name. branch_cases; auto. }
  assert (S6 : ∀ b, P b → P (define_led_strip n b)).
  { intros x Hx. unfold define_led_strip. branch_cases; auto. }
  assert (S7 : ∀ b, P b → P (define_osd n v b)).
  { intros x Hx. unfold define_osd. branch_cases; auto. }
  assert (S8 : ∀ b, P b → P (define_sdcard n v b)).
  { intros x Hx. unfold define_sdcard. branch_cases; auto. }
  auto 10.
Qed.

Lemma process_define_preserve (float_ok : string → bool) (P : BoardData.t → Prop) :
  (∀ b m, P b → P (BoardData.set_defines m b)) →
  (∀ b, P b → P (BoardData.set_has_buzzer true b)) →
  (∀ b bat, P b → P (BoardData.set_battery bat b)) →
  (∀ b, P b → P (BoardData.set_has_safety_switch true b)) →
  (∀ b k, P b → P (BoardData.set_can_interfaces k b)) →
  (∀ b s, P b → P (BoardData.set_board_name s b)) →
  (∀ b, P b → P (BoardData.set_has_led_strip true b)) →
  (∀ b o, P b →
     P (BoardData.set_sensors (BuiltinSensors.set_osd o (BoardData.sensors b)) b)) →
  (∀ b, P b →
     P (BoardData.set_sensors (BuiltinSensors.set_sdcard true (BoardData.sensors b)) b)) →
  ∀ b parts, P b → P (process_define float_ok b parts).
Proof.
  intros H0 H1 H2 H3 H4 H5 H6 H7 H8 b parts Hb.
  unfold process_define. cbv zeta. apply define_effects_preserve; auto.
Qed.

(** ** The board id *)

Section BoardId.

Variable board_ids : gmap string Z.
Variable float_ok : string → bool.
Variable orders : ChipOrders.

Lemma process_line_apj b parts line undefs :
  let b' := process_line board_ids float_ok b parts line undefs in
  if String.eqb (token parts 0) "APJ_BOARD_ID" && (2 <=? length parts)%nat
  then BoardData.apj_board_id_name b' = token parts 1 ∧
       BoardData.apj_board_id b'
       = apj_update board_ids (BoardData.apj_board_id b) (token parts 1)
  else BoardData.apj_board_id_name b' = BoardData.apj_board_id_name b ∧
       BoardData.apj_board_id b' = BoardData.apj_board_id b.
Proof.
  cbv zeta. unfold process_line, apj_update.
  destruct (String.eqb (token parts 0) "APJ_BOARD_ID") eqn:Hkw.
  - apply String.eqb_eq in Hkw. rewrite Hkw. simpl.
    destruct (2 <=? length parts)%nat; simpl.
    + destruct (3 <=? length parts)%nat; simpl;
        destruct (PyStr.int (token parts 1)); [split; reflexivity| |split; reflexivity|];
        destruct (board_ids !! token parts 1); split; reflexivity.
    + destruct (3 <=? length parts)%nat; split; reflexivity.
  - simpl. branch_cases; try (split; reflexivity).
    apply (process_define_preserve float_ok
             (λ x, BoardData.apj_board_id_name x = BoardData.apj_board_id_name b ∧
                   BoardData.apj_board_id x = BoardData.apj_board_id b));
      try (intros; assumption). split; reflexivity.
Qed.

Lemma process_step_apj st line st' :
  process_step board_ids float_ok st line = Some st' →
  match apj_of line with
  | Some tok =>
      BoardData.apj_board_id_name st'.1 = tok ∧
      BoardData.apj_board_id st'.1
      = apj_update board_ids (BoardData.apj_board_id st.1) tok
  | None =>
      BoardData.apj_board_id_name st'.1 = BoardData.apj_board_id_name st.1 ∧
      BoardData.apj_board_id st'.1 = BoardData.apj_board_id st.1
  end.
Proof.
  unfold process_step, apj_of. intros H.
  destruct (is_skipped line); [by simplify_eq|].
  destruct (PyStr.startswith "undef " line).
  - destruct (undef_name line); by simplify_eq/=.
  - destruct (PyStr.split line) as [|kw ws] eqn:Hs; simplify_eq/=; [done|].
    pose proof (process_line_apj st.1 (kw :: ws) line st.2) as Hl. cbv zeta in Hl.
    simpl in Hl. simpl.
    match goal with |- context [if ?c then _ else _] => destruct c end; exact Hl.
Qed.

Lemma process_lines_apj_none lines : ∀ st st',
  (∀ l, l ∈ lines → apj_of l = None) →
  process_lines board_ids float_ok st lines = Some st' →
  BoardData.apj_board_id_name st'.1 = BoardData.apj_board_id_name st.1 ∧
  BoardData.apj_board_id st'.1 = BoardData.apj_board_id st.1.
Proof.
  induction lines as [|line rest IH]; intros st st' Hnone H; simpl in H.
  - by simplify_eq.
  - destruct (process_step board_ids float_ok st line) as [st1|] eqn:Hstep;
      [|discriminate]. simpl in H.
    apply process_step_apj in Hstep. rewrite (Hnone line) in Hstep by left.
    destruct Hstep as [<- <-]. apply IH; [|exact H].
    intros l Hl. apply Hnone. by right.
Qed.

Lemma apj_of_other line :
  head (PyStr.split line) ≠ Some "APJ_BOARD_ID" → apj_of line = None.
Proof.
  intros Hkw. unfold apj_of.
  destruct (is_skipped line); [reflexivity|].
  destruct (PyStr.startswith "undef " line); [reflexivity|].
  unfold token. destruct (PyStr.split line) as [|kw rest]; [reflexivity|].
  simpl in *. destruct (String.eqb kw "APJ_BOARD_ID") eqn:E; [|reflexivity].
  apply String.eqb_eq in E. congruence.
Qed.

Lemma post_process_apj b lines :
  BoardData.apj_board_id_name (post_process board_ids orders b lines)
  = BoardData.apj_board_id_name b ∧
  BoardData.apj_board_id (post_process board_ids orders b lines)
  = BoardData.apj_board_id
      (resolve_board_id board_ids
         (BoardData.set_apj_board_id_name (BoardData.apj_board_id_name b)
            (BoardData.set_apj_board_id (BoardData.apj_board_id b) BoardData.default))).
Proof.
  unfold post_process, resolve_board_id, detect_rc_input. cbv zeta.
  branch_cases; simpl in *; split; congruence.
Qed.

(** X5: on a board with a single APJ_BOARD_ID directive, of token [t], the
    symbolic name of the parsed board is [t] and its numeric id is the
    integer [t] reads as or, when [t] is not an integer, the entry of [t]
    in the board-id table (unset when there is none): an integer token is
    never looked up in the table. *)
Theorem board_id_resolution folder pre line post t rest board :
  parse_board board_ids float_ok orders folder (pre ++ line :: post) = Some board →
  PyStr.split line = "APJ_BOARD_ID" :: t :: rest →
  (∀ l, l ∈ pre ++ post → head (PyStr.split l) ≠ Some "APJ_BOARD_ID") →
  BoardData.apj_board_id_name board = t ∧
  BoardData.apj_board_id board
  = match PyStr.int t with
    | Some n => Some n
    | None => board_ids !! t
    end.
Proof.
  intros Hparse Hsplit Hother. apply parse_board_inv in Hparse.
  destruct Hparse as (b0 & undefs & Hloop & ->).
  rewrite process_lines_app in Hloop.
  destruct (process_lines board_ids float_ok
              (initial_board folder (pre ++ line :: post), ∅) pre) as [st1|] eqn:Hpre;
    [|discriminate]. simpl in Hloop.
  destruct (process_step board_ids float_ok st1 line) as [st2|] eqn:Hstep;
    [|discriminate]. simpl in Hloop.
  apply process_lines_apj_none in Hpre.
  2:{ intros l Hl. apply apj_of_other, Hother, elem_of_app. by left. }
  apply process_lines_apj_none in Hloop.
  2:{ intros l Hl. apply apj_of_other, Hother, elem_of_app. by right. }
  apply process_step_apj in Hstep.
  assert (Hapj : apj_of line = Some t).
  { unfold apj_of.
    destruct (keyword_line line "APJ_BOARD_ID" (t :: rest) Hsplit) as [-> ->];
      [reflexivity | discriminate |]. by rewrite Hsplit. }
  rewrite Hapj in Hstep. simpl in Hpre, Hloop.
  destruct Hpre as [_ Hid1], Hloop as [Hn Hid], Hstep as [Hn2 Hid2].
  destruct (post_process_apj b0 (pre ++ line :: post)) as [-> ->].
  cbn [fst]. rewrite Hn, Hn2. split; [reflexivity|].
  rewrite Hid, Hid2, Hid1. simpl.
  unfold resolve_board_id, apj_update. simpl.
  assert (Ht : PyStr.is_empty t = false).
  { apply is_empty_false. pose proof (split_nonempty line) as Hw. rewrite Hsplit in Hw.
    apply Forall_cons in Hw. destruct Hw as [_ Hw]. apply Forall_cons in Hw. tauto. }
  destruct (PyStr.int t) as [n|] eqn:Hint; simpl; [reflexivity|].
  destruct (board_ids !! t) as [n|] eqn:Htab; simpl; [reflexivity|].
  rewrite Ht. reflexivity.
Qed.

End BoardId.

Lemma board_id_resolution_witness :
  ∃ board,
    parse_board {[ "AP_HW_MATEKH743" := 1013 ]} no_float source_orders "MatekH743"
      (["MCU STM32H7xx STM32H743xx"] ++ "APJ_BOARD_ID AP_HW_MATEKH743" :: ["SERIAL_ORDER OTG1"])
      = Some board ∧
    BoardData.apj_board_id board = Some 1013.
Proof.
  destruct (parse_board {[ "AP_HW_MATEKH743" := 1013 ]} no_float source_orders "MatekH743"
      (["MCU STM32H7xx STM32H743xx"] ++ "APJ_BOARD_ID AP_HW_MATEKH743" :: ["SERIAL_ORDER OTG1"]))
    as [board|] eqn:Hp; [|vm_compute in Hp; discriminate].
  exists board. split; [reflexivity|].
  refine (proj2 (board_id_resolution {[ "AP_HW_MATEKH743" := 1013 ]} no_float source_orders
            "MatekH743" ["MCU STM32H7xx STM32H743xx"] "APJ_BOARD_ID AP_HW_MATEKH743"
            ["SERIAL_ORDER OTG1"] "AP_HW_MATEKH743" [] board Hp eq_refl _)).
  intros l Hl. apply elem_of_cons in Hl. destruct Hl as [->|Hl]; [vm_compute; discriminate|].
  apply list_elem_of_singleton in Hl. subst l. vm_compute. discriminate.
Defined.

(** ** The SD-card flag *)

Section SdCard.

Variable board_ids : gmap string Z.
Variable float_ok : string → bool.
Variable orders : ChipOrders.

Lemma process_line_sdcard_mono b parts line undefs :
  BuiltinSensors.sdcard (BoardData.sensors b) = true →
  BuiltinSensors.sdcard
    (BoardData.sensors (process_line board_ids float_ok b parts line undefs)) = true.
Proof.
  intros Hb. unfold process_line. branch_cases; try exact Hb; try reflexivity.
  apply (process_define_preserve float_ok
           (λ x, BuiltinSensors.sdcard (BoardData.sensors x) = true));
    try (intros; assumption); try (intros; reflexivity).
Qed.

Lemma process_line_sdio b parts line undefs :
  token parts 0 = "SDIO" ∨ token parts 0 = "SDMMC" →
  (4 <=? length parts)%nat && PyStr.contains "PWM(" line = false →
  BuiltinSensors.sdcard
    (BoardData.sensors (process_line board_ids float_ok b parts line undefs)) = true.
Proof.
  intros Hkw Hpwm. unfold process_line. rewrite Hpwm.
  destruct Hkw as [-> | ->]; reflexivity.
Qed.

Lemma process_lines_sdcard_mono lines : ∀ st st',
  process_lines board_ids float_ok st lines = Some st' →
  BuiltinSensors.sdcard (BoardData.sensors st.1) = true →
  BuiltinSensors.sdcard (BoardData.sensors st'.1) = true.
Proof.
  induction lines as [|line rest IH]; intros st st' H Hb; simpl in H.
  - by simplify_eq.
  - destruct (process_step board_ids float_ok st line) as [st1|] eqn:Hstep;
      [|discriminate]. simpl in H.
    eapply IH; [exact H|]. unfold process_step in Hstep.
    destruct (is_skipped line); [by simplify_eq|].
    destruct (PyStr.startswith "undef " line).
    + destruct (undef_name line); by simplify_eq/=.
    + destruct (PyStr.split line) as [|kw ws]; simplify_eq/=; [done|].
      by apply process_line_sdcard_mono.
Qed.

Lemma detect_sensors_sdcard_mono devs : ∀ s,
  BuiltinSensors.sdcard s = true →
  BuiltinSensors.sdcard (fold_left (detect_device orders) devs s) = true.
Proof.
  induction devs as [|dev devs IH]; intros s Hs; simpl; [exact Hs|].
  apply IH. unfold detect_device. cbv zeta.
  destruct (PyStr.contains "sdcard" (PyStr.lower (SpiDevice.name dev))
            || PyStr.contains "sd_card" (PyStr.lower (SpiDevice.name dev)));
    [reflexivity | exact Hs].
Qed.

(** X6: a line whose first word is [SDIO] or [SDMMC], unless the
    PWM-output rule captures it, sets the SD-card flag of the parsed board,
    and nothing that follows, directive or pass, clears it. *)
Theorem sdio_sets_sdcard folder pre line post kw rest board :
  parse_board board_ids float_ok orders folder (pre ++ line :: post) = Some board →
  PyStr.split line = kw :: rest →
  kw = "SDIO" ∨ kw = "SDMMC" →
  (4 <=? length (PyStr.split line))%nat && PyStr.contains "PWM(" line = false →
  BuiltinSensors.sdcard (BoardData.sensors board) = true.
Proof.
  intros Hparse Hsplit Hkw Hpwm. apply parse_board_inv in Hparse.
  destruct Hparse as (b0 & undefs & Hloop & ->).
  rewrite post_process_sensors. apply detect_sensors_sdcard_mono.
  rewrite process_lines_app in Hloop.
  destruct (process_lines board_ids float_ok
              (initial_board folder (pre ++ line :: post), ∅) pre) as [st1|];
    [|discriminate]. simpl in Hloop.
  destruct (process_step board_ids float_ok st1 line) as [st2|] eqn:Hstep;
    [|discriminate]. simpl in Hloop.
  apply process_lines_sdcard_mono in Hloop; [exact Hloop|].
  unfold process_step in Hstep.
  destruct (keyword_line line kw rest Hsplit) as [Hs Hu].
  { destruct Hkw as [-> | ->]; reflexivity. }
  { destruct Hkw as [-> | ->]; discriminate. }
  rewrite Hs, Hu, Hsplit in Hstep. injection Hstep as <-. simpl.
  rewrite Hsplit in Hpwm. apply process_line_sdio; [|exact Hpwm].
  exact Hkw.
Qed.

End SdCard.

Lemma sdio_sets_sdcard_witness :
  ∃ board,
    parse_board ∅ no_float source_orders "board"
      (["SERIAL_ORDER OTG1"] ++ "SDMMC SDMMC1" :: ["define HAL_OS_FATFS_IO 0"])
      = Some board ∧
    BuiltinSensors.sdcard (BoardData.sensors board) = true.
Proof.
  destruct (parse_board ∅ no_float source_orders "board"
      (["SERIAL_ORDER OTG1"] ++ "SDMMC SDMMC1" :: ["define HAL_OS_FATFS_IO 0"]))
    as [board|] eqn:Hp; [|vm_compute in Hp; discriminate].
  exists board. split; [reflexivity|].
  exact (sdio_sets_sdcard ∅ no_float source_orders "board" ["SERIAL_ORDER OTG1"]
           "SDMMC SDMMC1" ["define HAL_OS_FATFS_IO 0"] "SDMMC" ["SDMMC1"] board
           Hp eq_refl (or_intror eq_refl) eq_refl).
Defined.

(** ** The include cache and the place of included lines *)

Section IncludeMore.

Variable fs : string → FileState.
Variable resolve_path : string → string → string.

(** X7: resolving a file a second time, with the cache the first
    resolution left, gives the same lines and leaves the cache as it is;
    a file that was read is served from the cache at every depth within
    the cap. *)
Theorem resolve_lines_again cache filepath depth r :
  resolve_lines fs resolve_path cache filepath depth = Some r →
  resolve_lines fs resolve_path r.1 filepath depth = Some r ∧
  (∀ raw_lines depth',
     (depth ≤ 10)%nat → (depth' ≤ 10)%nat → fs filepath = Content raw_lines →
     resolve_lines fs resolve_path r.1 filepath depth' = Some r).
Proof.
  unfold resolve_lines. simpl. intros H.
  destruct (10 <? depth)%nat eqn:Hd.
  { simplify_eq. simpl. split; [reflexivity|]. intros raw d' Hle. 
    apply Nat.ltb_lt in Hd. lia. }
  destruct (cache !! filepath) as [ls|] eqn:Hk.
  { simplify_eq. simpl. rewrite Hk. split; [reflexivity|].
    intros raw d' _ Hd' _. apply Nat.ltb_ge in Hd'. simpl. by rewrite Hd', ?Hk. }
  destruct (fs filepath) as [| |raw] eqn:Hfs.
  - simplify_eq. simpl. rewrite Hk. split; [reflexivity|]. intros; discriminate.
  - simplify_eq. simpl. rewrite Hk. split; [reflexivity|]. intros; discriminate.
  - destruct (resolve_body resolve_path _ filepath cache raw []) as [r'|];
      [|discriminate]. simpl in H. simplify_eq. simpl.
    rewrite lookup_insert_eq. split; [reflexivity|].
    intros raw' d' _ Hd' _. apply Nat.ltb_ge in Hd'. simpl.
    by rewrite Hd', ?lookup_insert_eq.
Qed.

Lemma resolve_body_app recurse filepath l1 : ∀ l2 cache lines,
  resolve_body resolve_path recurse filepath cache (l1 ++ l2) lines
  = r ← resolve_body resolve_path recurse filepath cache l1 lines;
    resolve_body resolve_path recurse filepath r.1 l2 r.2.
Proof.
  induction l1 as [|raw l1 IH]; intros l2 cache lines; [reflexivity|].
  simpl.
  destruct (PyStr.is_empty (PyStr.strip raw) || PyStr.startswith "#" (PyStr.strip raw));
    [apply IH|].
  destruct (PyStr.startswith "include" (PyStr.strip raw)); [|apply IH].
  destruct (PyStr.split_max1 (PyStr.strip raw)) as [|w [|arg [|x xs]]]; try apply IH.
  destruct (recurse cache (resolve_path filepath (PyStr.strip arg))); simpl;
    [apply IH | reflexivity].
Qed.

(** Lines that are not include directives are copied, stripped, in order. *)
Lemma resolve_body_kept recurse filepath raw_lines : ∀ cache lines,
  (∀ l, l ∈ raw_lines → is_kept l = true) →
  resolve_body resolve_path recurse filepath cache raw_lines lines
  = Some (cache, lines ++ (PyStr.strip <$> raw_lines)).
Proof.
  induction raw_lines as [|raw rest IH]; intros cache lines Hall.
  - simpl. by rewrite app_nil_r.
  - assert (Hk : is_kept raw = true) by (apply Hall; left).
    assert (Hrest : ∀ l, l ∈ rest → is_kept l = true) by (intros l Hl; apply Hall; by right).
    unfold is_kept in Hk. cbv zeta in Hk. simpl.
    destruct (PyStr.is_empty (PyStr.strip raw) || PyStr.startswith "#" (PyStr.strip raw)).
    + rewrite IH by exact Hrest. by rewrite <- app_assoc.
    + simpl in Hk. apply negb_true_iff in Hk. rewrite Hk.
      rewrite IH by exact Hrest. by rewrite <- app_assoc.
Qed.

(** X8: a file made of plain lines, one include directive and more plain
    lines resolves to the first lines, stripped, then the resolved lines of
    the included file, then the last lines, stripped: the included lines
    stand where the include directive stood.  The result is cached under
    the path of the file. *)
Theorem include_in_place cache filepath depth pre inc post w arg :
  (depth ≤ 10)%nat →
  cache !! filepath = None →
  fs filepath = Content (pre ++ inc :: post) →
  (∀ l, l ∈ pre ++ post → is_kept l = true) →
  is_kept inc = false →
  PyStr.split_max1 (PyStr.strip inc) = [w; arg] →
  ∃ included,
    resolve_lines fs resolve_path cache
      (resolve_path filepath (PyStr.strip arg)) (S depth) = Some included ∧
    let lines := (PyStr.strip <$> pre) ++ included.2 ++ (PyStr.strip <$> post) in
    resolve_lines fs resolve_path cache filepath depth
    = Some (<[filepath := lines]> included.1, lines).
Proof.
  intros Hd Hk Hfs Hkept Hinc Hsplit.
  destruct (resolve_lines_fuel_total fs resolve_path (S (11 - S depth)) cache
              (resolve_path filepath (PyStr.strip arg)) (S depth)) as [included Hincl];
    [lia|].
  exists included. split; [exact Hincl|]. cbv zeta.
  unfold resolve_lines. simpl resolve_lines_fuel.
  apply Nat.ltb_ge in Hd. rewrite Hd, Hk, Hfs. apply Nat.ltb_ge in Hd.
  rewrite resolve_body_app, resolve_body_kept.
  2:{ intros l Hl. apply Hkept, elem_of_app. by left. }
  simpl.
  unfold is_kept in Hinc. cbv zeta in Hinc.
  destruct (PyStr.is_empty (PyStr.strip inc) || PyStr.startswith "#" (PyStr.strip inc));
    [discriminate|].
  simpl in Hinc. apply negb_false_iff in Hinc. rewrite Hinc, Hsplit.
  rewrite (resolve_lines_fuel_irrel fs resolve_path (11 - depth) (S (11 - S depth)))
    by lia.
  unfold resolve_lines in Hincl. rewrite Hincl. simpl.
  rewrite resolve_body_kept.
  2:{ intros l Hl. apply Hkept, elem_of_app. by right. }
  simpl. by rewrite <- app_assoc.
Qed.

End IncludeMore.

Lemma resolve_lines_again_witness :
  ∃ r, resolve_lines chain_fs flat_paths ∅ "f9" 0 = Some r ∧
       resolve_lines chain_fs flat_paths r.1 "f9" 5 = Some r.
Proof.
  destruct (resolve_lines chain_fs flat_paths ∅ "f9" 0) as [r|] eqn:Hr;
    [|vm_compute in Hr; discriminate].
  exists r. split; [reflexivity|].
  refine (proj2 (resolve_lines_again chain_fs flat_paths ∅ "f9" 0 r Hr)
            ["L9"; "include f10"] 5%nat _ _ eq_refl); lia.
Defined.

Lemma include_in_place_witness :
  ∃ included,
    resolve_lines chain_fs flat_paths ∅ "f11" 1 = Some included ∧
    resolve_lines chain_fs flat_paths ∅ "f10" 0
    = Some (<["f10" := ["L10"] ++ included.2 ++ ["T10"]]> included.1,
            ["L10"] ++ included.2 ++ ["T10"]).
Proof.
  refine (include_in_place chain_fs flat_paths ∅ "f10" 0 ["L10"] "include f11" ["T10"]
            "include" "f11" _ _ eq_refl _ eq_refl eq_refl).
  - lia.
  - reflexivity.
  - intros l Hl. apply elem_of_cons in Hl. destruct Hl as [->|Hl]; [reflexivity|].
    apply list_elem_of_singleton in Hl. subst l. reflexivity.
Defined.

(** ** The board-id table *)

Lemma board_types_step_spec result raw_line :
  board_types_step result raw_line
  = match board_type_of raw_line with
    | Some (name, value) => <[name := value]> result
    | None => result
    end.
Proof.
  unfold board_types_step, board_type_of. cbv zeta.
  destruct (is_skipped (PyStr.strip raw_line)); [reflexivity|].
  destruct (2 <=? length (PyStr.split (PyStr.strip raw_line)))%nat; [|reflexivity].
  destruct (PyStr.int (token (PyStr.split (PyStr.strip raw_line)) 1)); reflexivity.
Qed.

Lemma board_types_fold_other raw : ∀ (m : gmap string Z) name,
  (∀ l v, l ∈ raw → board_type_of l ≠ Some (name, v)) →
  fold_left board_types_step raw m !! name = m !! name.
Proof.
  induction raw as [|l raw IH]; intros m name H; simpl; [reflexivity|].
  rewrite IH by (intros l' v Hl'; apply H; by right).
  rewrite board_types_step_spec.
  destruct (board_type_of l) as [[n v]|] eqn:E; [|reflexivity].
  apply lookup_insert_ne. intros ->. eapply H; [left | exact E].
Qed.

Lemma board_types_fold_elem raw : ∀ (m : gmap string Z) name v,
  fold_left board_types_step raw m !! name = Some v →
  m !! name = Some v ∨ ∃ l, l ∈ raw ∧ board_type_of l = Some (name, v).
Proof.
  induction raw as [|l raw IH]; intros m name v H; simpl in H; [by left|].
  apply IH in H. destruct H as [H|(l' & Hl' & H)].
  - rewrite board_types_step_spec in H.
    destruct (board_type_of l) as [[n v']|] eqn:E; [|by left].
    destruct (decide (n = name)) as [->|Hne].
    + rewrite lookup_insert_eq in H. injection H as ->. right. exists l. split; [left|exact E].
    + rewrite lookup_insert_ne in H by exact Hne. by left.
  - right. exists l'. split; [by right | exact H].
Qed.

(** X9: every entry of the board-id table comes from a line of the file
    that reads as a name and an integer, and the entry of a name is the
    integer of the last such line for it; a file that does not exist gives
    the empty table. *)
Theorem board_types_lookup raw_lines table :
  parse_board_types (Content raw_lines) = Some table →
  (∀ name v, table !! name = Some v →
     ∃ l, l ∈ raw_lines ∧ board_type_of l = Some (name, v)) ∧
  (∀ pre l post name v,
     raw_lines = pre ++ l :: post →
     board_type_of l = Some (name, v) →
     (∀ l' v', l' ∈ post → board_type_of l' ≠ Some (name, v')) →
     table !! name = Some v) ∧
  parse_board_types Missing = Some ∅.
Proof.
  intros H. simpl in H. injection H as <-. split; [|split; [|reflexivity]].
  - intros name v Hv. apply board_types_fold_elem in Hv.
    destruct Hv as [Hv|Hv]; [by rewrite lookup_empty in Hv | exact Hv].
  - intros pre l post name v -> Hl Hlast.
    rewrite fold_left_app. simpl.
    rewrite board_types_fold_other by exact Hlast.
    rewrite board_types_step_spec, Hl. apply lookup_insert_eq.
Qed.

Lemma board_types_lookup_witness :
  ∃ table,
    parse_board_types
      (Content ["# board types"; "AP_HW_MATEKH743 1013"; ""; "AP_HW_BAD x12";
                "AP_HW_MATEKH743   1014  # moved"; "AP_HW_CUBEORANGE 140"])
      = Some table ∧
    table !! "AP_HW_MATEKH743" = Some 1014.
Proof.
  eexists. split; [reflexivity|].
  refine (proj1 (proj2 (board_types_lookup _ _ eq_refl))
            ["# board types"; "AP_HW_MATEKH743 1013"; ""; "AP_HW_BAD x12"]
            "AP_HW_MATEKH743   1014  # moved" ["AP_HW_CUBEORANGE 140"]
            "AP_HW_MATEKH743" 1014 eq_refl eq_refl _).
  intros l' v' Hl'. apply list_elem_of_singleton in Hl'. subst l'.
  vm_compute. discriminate.
Defined.

(** ** The parameter defaults *)

Lemma length_app_str a b :
  String.length (a +:+ b) = (String.length a + String.length b)%nat.
Proof.
  induction a as [|c a IH]; [reflexivity|]. rewrite app_cons. simpl. by rewrite IH.
Qed.

Lemma break_by_spec p s a b :
  break_by p s = (a, b) →
  s = a +:+ b ∧ all_chars (λ c, negb (p c)) a = true ∧
  (b = "" ∨ ∃ c r, b = String c r ∧ p c = true).
Proof.
  revert a b. induction s as [|c s IH]; intros a b H; simpl in H.
  - injection H as <- <-. repeat split. by left.
  - destruct (p c) eqn:Hc.
    + injection H as <- <-. repeat split. right. eauto.
    + destruct (break_by p s) as [a' b'] eqn:E. injection H as <- <-.
      destruct (IH a' b' eq_refl) as (-> & Ha & Hb).
      split; [reflexivity|]. split; [|exact Hb]. simpl. by rewrite Hc, Ha.
Qed.

Lemma lstrip_by_spec p s :
  ∃ seps, s = seps +:+ PyStr.lstrip_by p s ∧ all_chars p seps = true ∧
          PyStr.lstrip_by p (PyStr.lstrip_by p s) = PyStr.lstrip_by p s.
Proof.
  induction s as [|c s IH].
  - exists "". repeat split.
  - simpl. destruct (p c) eqn:Hc.
    + destruct IH as (seps & Hs & Hall & Hid). exists (String c seps).
      rewrite app_cons, <- Hs. simpl. rewrite Hc, Hall. repeat split. exact Hid.
    + exists "". simpl. rewrite Hc. repeat split.
Qed.

(** A line that splits in two reads as key, separators, value. *)
Lemma re_split_sep1_spec line k v :
  re_split_sep1 line = [k; v] →
  ∃ seps, line = k +:+ seps +:+ v ∧ seps ≠ "" ∧ all_chars is_sep seps = true ∧
          all_chars (λ c, negb (is_sep c)) k = true ∧
          PyStr.lstrip_by is_sep v = v.
Proof.
  unfold re_split_sep1. intros H.
  destruct (break_by is_sep line) as [a b] eqn:E.
  apply break_by_spec in E. destruct E as (-> & Ha & Hb).
  destruct (PyStr.is_empty b) eqn:Hemp; [discriminate|].
  injection H as <- <-.
  destruct Hb as [->|(c & r & -> & Hc)]; [discriminate|].
  destruct (lstrip_by_spec is_sep (String c r)) as (seps & Hs & Hall & Hid).
  exists seps. split; [by rewrite <- Hs|]. split; [|by repeat split].
  intros ->. simpl in Hs. rewrite Hc in Hs.
  change ("" +:+ PyStr.lstrip_by is_sep r) with (PyStr.lstrip_by is_sep r) in Hs.
  destruct (lstrip_by_spec is_sep r) as (seps' & Hs' & _ & _).
  assert (Hlen : String.length (String c r)
                 = String.length (PyStr.lstrip_by is_sep r)) by (by rewrite <- Hs).
  rewrite Hs' in Hlen at 1. simpl in Hlen. rewrite length_app_str in Hlen. lia.
Qed.

Lemma defaults_fold_elem raw : ∀ (m : gmap string string) k v,
  fold_left defaults_step raw m !! k = Some v →
  m !! k = Some v ∨
  ∃ l, l ∈ raw ∧ is_skipped (PyStr.strip l) = false ∧
       re_split_sep1 (PyStr.strip l) = [k; v].
Proof.
  induction raw as [|l raw IH]; intros m k v H; simpl in H; [by left|].
  apply IH in H. destruct H as [H|(l' & Hl' & H)].
  - unfold defaults_step in H. cbv zeta in H.
    destruct (is_skipped (PyStr.strip l)) eqn:Hs; [by left|].
    destruct (re_split_sep1 (PyStr.strip l)) as [|k' [|v' [|x xs]]] eqn:E;
      try (by left).
    destruct (decide (k' = k)) as [->|Hne].
    + rewrite lookup_insert_eq in H. injection H as ->.
      right. exists l. split; [left|]. by split.
    + rewrite lookup_insert_ne in H by exact Hne. by left.
  - right. exists l'. split; [by right | exact H].
Qed.

(** X10: every parameter read from [defaults.parm] comes from a line that,
    stripped, reads as the key, a non-empty run of blanks and commas, and
    the value; the key holds no blank or comma and the value does not
    start with one. *)
Theorem defaults_entries raw_lines k v :
  parse_defaults (Content raw_lines) !! k = Some v →
  ∃ l seps,
    l ∈ raw_lines ∧ PyStr.strip l = k +:+ seps +:+ v ∧
    seps ≠ "" ∧ all_chars is_sep seps = true ∧
    all_chars (λ c, negb (is_sep c)) k = true ∧
    PyStr.lstrip_by is_sep v = v.
Proof.
  intros H. simpl in H. apply defaults_fold_elem in H.
  destruct H as [H|(l & Hl & _ & Hsplit)]; [by rewrite lookup_empty in H|].
  apply re_split_sep1_spec in Hsplit. destruct Hsplit as (seps & H).
  exists l, seps. split; [exact Hl | exact H].
Qed.

Lemma defaults_entries_witness :
  parse_defaults (Content ["# defaults"; "SERIAL1_BAUD , 115"; "BATT_MONITOR 4"])
    !! "SERIAL1_BAUD" = Some "115" ∧
  ∃ l seps,
    l ∈ ["# defaults"; "SERIAL1_BAUD , 115"; "BATT_MONITOR 4"] ∧
    PyStr.strip l = "SERIAL1_BAUD" +:+ seps +:+ "115" ∧ seps ≠ "".
Proof.
  split; [reflexivity|].
  destruct (defaults_entries ["# defaults"; "SERIAL1_BAUD , 115"; "BATT_MONITOR 4"]
              "SERIAL1_BAUD" "115" eq_refl) as (l & seps & Hl & Hs & Hne & _).
  exists l, seps. repeat split; assumption.
Defined.

(** ** TypeScript names *)

Example to_ts_id_ex :
  to_ts_id "MatekF405-Wing" = "matekf405Wing" ∧ to_ts_id "CubeOrange+" = "cubeorangeplus"
  ∧ to_ts_id "3DR_control-zero" = "board3drControlZero" ∧ to_ts_id "--" = "boardUnknown"
  ∧ to_ts_id "fmuv3 (old)" = "fmuv3old".
Proof. repeat split. Qed.

Lemma all_chars_impl (p q : ascii → bool) s :
  (∀ c, p c = true → q c = true) → all_chars p s = true → all_chars q s = true.
Proof.
  intros Hpq. induction s as [|c s IH]; [done|]. simpl.
  intros H. apply andb_true_iff in H. destruct H as [Hc Hs].
  by rewrite (Hpq c Hc), IH.
Qed.

Lemma keep_chars_all p s : all_chars p (keep_chars p s) = true.
Proof.
  induction s as [|c s IH]; [reflexivity|]. simpl.
  destruct (p c) eqn:Hc; [|exact IH]. simpl. by rewrite Hc, IH.
Qed.

(** The parts between separators keep the characters of the string, the
    separators apart. *)
Lemma split_by_all p q s :
  all_chars q s = true →
  Forall (λ part, all_chars (λ c, q c && negb (p c)) part = true) (split_by p s).
Proof.
  induction s as [|c s IH]; intros H; simpl.
  - constructor; [reflexivity|constructor].
  - simpl in H. apply andb_true_iff in H. destruct H as [Hc Hs].
    specialize (IH Hs). destruct (p c) eqn:Hp.
    + constructor; [reflexivity|exact IH].
    + destruct (split_by p s) as [|x xs]; [constructor; [|constructor]|].
      * simpl. by rewrite Hc, Hp.
      * apply Forall_cons in IH. destruct IH as [Hx Hxs].
        constructor; [|exact Hxs]. simpl. by rewrite Hc, Hp, Hx.
Qed.

Lemma alnum_of_ident c :
  (is_alnum c || is_dash c) && negb (is_dash c) = true → is_alnum c = true.
Proof.
  destruct (is_dash c); [rewrite andb_false_r|rewrite andb_true_r, orb_false_r]; done.
Qed.

Lemma lower_char_alnum c :
  is_alnum c = true →
  is_alnum (PyStr.lower_char c) = true ∧
  (is_lower (PyStr.lower_char c) = true ∨ PyStr.is_digit (PyStr.lower_char c) = true).
Proof.
  destruct c as [[] [] [] [] [] [] [] []]; vm_compute; intros H;
    first [discriminate | split; [reflexivity | first [left; reflexivity | right; reflexivity]]].
Qed.

Lemma upper_char_alnum c : is_alnum c = true → is_alnum (PyStr.upper_char c) = true.
Proof.
  destruct c as [[] [] [] [] [] [] [] []]; vm_compute; intros H;
    first [discriminate | reflexivity].
Qed.

Lemma lower_alnum s : all_chars is_alnum s = true → all_chars is_alnum (PyStr.lower s) = true.
Proof.
  induction s as [|c s IH]; [done|]. simpl. intros H.
  apply andb_true_iff in H. destruct H as [Hc Hs].
  destruct (lower_char_alnum c Hc) as [-> _]. by apply IH.
Qed.

Lemma capitalize_alnum s :
  all_chars is_alnum s = true → all_chars is_alnum (capitalize s) = true.
Proof.
  destruct s as [|c s]; [done|]. simpl. intros H.
  apply andb_true_iff in H. destruct H as [Hc Hs].
  rewrite (upper_char_alnum c Hc). by apply lower_alnum.
Qed.

Lemma concat_alnum parts :
  Forall (λ p, all_chars is_alnum p = true) parts →
  all_chars is_alnum (String.concat "" parts) = true.
Proof.
  induction parts as [|p parts IH]; intros H; [reflexivity|].
  apply Forall_cons in H. destruct H as [Hp Hps].
  destruct parts as [|p' parts]; [exact Hp|].
  change (String.concat "" (p :: p' :: parts))
    with (p +:+ "" +:+ String.concat "" (p' :: parts)).
  rewrite !all_chars_app, Hp. simpl. by apply IH.
Qed.

(** X11: the TypeScript identifier made from a folder name is never
    empty, holds nothing but ASCII letters and digits, and starts with a
    lower-case letter. *)
Theorem to_ts_id_identifier folder_name :
  all_chars is_alnum (to_ts_id folder_name) = true ∧
  ∃ c rest, to_ts_id folder_name = String c rest ∧ is_lower c = true.
Proof.
  unfold to_ts_id. cbv zeta.
  set (cleaned := keep_chars (λ c, is_alnum c || is_dash c)
                    (replace_char "+" "Plus" folder_name)).
  pose proof (split_by_all is_dash _ cleaned (keep_chars_all _ _)) as Hparts.
  assert (Halnum : Forall (λ p, p ≠ "" ∧ all_chars is_alnum p = true)
            (List.filter (λ p, negb (PyStr.is_empty p)) (split_by is_dash cleaned))).
  { apply Forall_forall. intros p Hp. apply list_elem_of_In, filter_In in Hp.
    destruct Hp as [Hin Hne]. split.
    - apply is_empty_false. by apply negb_true_iff.
    - apply list_elem_of_In in Hin. eapply Forall_forall in Hparts; [|exact Hin].
      eapply all_chars_impl; [|exact Hparts]. apply alnum_of_ident. }
  destruct (List.filter (λ p, negb (PyStr.is_empty p)) (split_by is_dash cleaned))
    as [|first others].
  { split; [reflexivity|]. exists "b"%char, "oardUnknown". by split. }
  apply Forall_cons in Halnum. destruct Halnum as [[Hne Hfirst] Hothers].
  assert (Hres : all_chars is_alnum
            (PyStr.lower first +:+ String.concat "" (capitalize <$> others)) = true).
  { rewrite all_chars_app, lower_alnum by exact Hfirst. simpl.
    apply concat_alnum. apply Forall_fmap. eapply Forall_impl; [exact Hothers|].
    intros p [_ Hp]. by apply capitalize_alnum. }
  destruct first as [|c first]; [done|].
  change (PyStr.lower (String c first))
    with (String (PyStr.lower_char c) (PyStr.lower first)) in *.
  rewrite app_cons in *. simpl starts_with_digit.
  simpl in Hfirst. apply andb_true_iff in Hfirst. destruct Hfirst as [Hc _].
  destruct (lower_char_alnum c Hc) as [_ Hlow].
  destruct (PyStr.is_digit (PyStr.lower_char c)) eqn:Hdig.
  - split; [exact Hres|]. eexists _, _. by split.
  - split; [exact Hres|]. eexists _, _. split; [reflexivity|].
    destruct Hlow as [Hlow|Hlow]; [exact Hlow | discriminate].
Qed.

(** ** TypeScript literals *)

Lemma replace_char_app c by_ a b :
  replace_char c by_ (a +:+ b) = replace_char c by_ a +:+ replace_char c by_ b.
Proof.
  induction a as [|x a IH]; [reflexivity|].
  rewrite app_cons. simpl. destruct (Ascii.eqb x c).
  - by rewrite IH, str_app_assoc.
  - by rewrite IH, app_cons.
Qed.

Lemma escape_ts_string_cons c s :
  escape_ts_string (String c s)
  = (if Ascii.eqb c "\" then "\\"
     else if Ascii.eqb c "'" then "\'" else String c "")
    +:+ escape_ts_string s.
Proof.
  unfold escape_ts_string. simpl replace_char at 2.
  destruct (Ascii.eqb c "\") eqn:Eb.
  - by rewrite replace_char_app.
  - simpl. destruct (Ascii.eqb c "'"); reflexivity.
Qed.

(** X12: the escaped form of a text is the body of a well-formed
    single-quoted literal (plain characters and the escapes of backslash
    and quote only) exactly when the text holds no line feed and no
    carriage return: quotes and backslashes are always escaped, a line
    break is passed through as it is. *)
Theorem escape_ts_string_safe s :
  literal_body_ok false (escape_ts_string s)
  = all_chars (λ c, negb (is_line_break c)) s.
Proof.
  induction s as [|c s IH]; [reflexivity|].
  rewrite escape_ts_string_cons. cbn [all_chars].
  destruct (Ascii.eqb c "\") eqn:Eb.
  { apply Ascii.eqb_eq in Eb. subst c.
    change ("\\" +:+ escape_ts_string s)
      with (String "\" (String "\" (escape_ts_string s))).
    cbn. exact IH. }
  destruct (Ascii.eqb c "'") eqn:Eq.
  { apply Ascii.eqb_eq in Eq. subst c.
    change ("\'" +:+ escape_ts_string s)
      with (String "\" (String "'" (escape_ts_string s))).
    cbn. exact IH. }
  change (String c "" +:+ escape_ts_string s) with (String c (escape_ts_string s)).
  cbn [literal_body_ok]. rewrite Eb, Eq. cbn [orb].
  destruct (is_line_break c); [reflexivity|exact IH].
Qed.

(** X13: reading the escaped form back gives the text that was escaped,
    so two different texts never get the same escaped form. *)
Theorem escape_ts_string_roundtrip s : ts_unescape false (escape_ts_string s) = s.
Proof.
  induction s as [|c s IH]; [reflexivity|].
  rewrite escape_ts_string_cons.
  destruct (Ascii.eqb c "\") eqn:Eb.
  { apply Ascii.eqb_eq in Eb. subst c.
    change ("\\" +:+ escape_ts_string s)
      with (String "\" (String "\" (escape_ts_string s))).
    simpl. by rewrite IH. }
  destruct (Ascii.eqb c "'") eqn:Eq.
  { apply Ascii.eqb_eq in Eq. subst c.
    change ("\'" +:+ escape_ts_string s)
      with (String "\" (String "'" (escape_ts_string s))).
    simpl. by rewrite IH. }
  change (String c "" +:+ escape_ts_string s) with (String c (escape_ts_string s)).
  simpl. by rewrite Eb, IH.
Qed.

Example escape_ts_string_ex :
  escape_ts_string "Pete's \ board" = "Pete\'s \\ board" ∧
  literal_body_ok false (escape_ts_string "Pete's \ board") = true ∧
  literal_body_ok false (escape_ts_string (String "010" "x")) = false.
Proof. repeat split. Qed.

(** ** The batch *)

Lemma insert_sorted_Permutation {A} (leb : A → A → bool) x l :
  insert_sorted leb x l ≡ₚ x :: l.
Proof.
  induction l as [|y l IH]; simpl; [reflexivity|].
  destruct (leb x y); [reflexivity|]. rewrite IH. apply perm_swap.
Qed.

Lemma stable_sort_Permutation {A} (leb : A → A → bool) l : stable_sort leb l ≡ₚ l.
Proof.
  induction l as [|x l IH]; simpl; [reflexivity|].
  rewrite insert_sorted_Permutation. by rewrite IH.
Qed.

Lemma insert_sorted_Sorted {A} (leb : A → A → bool) x l :
  (∀ a b, leb a b = false → leb b a = true) →
  Sorted (λ a b, leb a b = true) l →
  Sorted (λ a b, leb a b = true) (insert_sorted leb x l).
Proof.
  intros Htot. induction 1 as [|y l Hs IH Hhd]; simpl.
  - repeat constructor.
  - destruct (leb x y) eqn:E.
    + constructor; [by constructor|]. by constructor.
    + constructor; [exact IH|].
      destruct l as [|z l]; simpl.
      * constructor. by apply Htot.
      * destruct (leb x z); constructor; [by apply Htot|].
        by apply HdRel_inv in Hhd.
Qed.

Lemma stable_sort_Sorted {A} (leb : A → A → bool) l :
  (∀ a b, leb a b = false → leb b a = true) →
  Sorted (λ a b, leb a b = true) (stable_sort leb l).
Proof.
  intros Htot. induction l as [|x l IH]; simpl; [constructor|].
  by apply insert_sorted_Sorted.
Qed.

Lemma string_leb_total a b : String.leb a b = false → String.leb b a = true.
Proof.
  intros H. destruct (String.leb_total a b) as [H'|H']; congruence.
Qed.

Lemma string_leb_trans a b c :
  String.leb a b = true → String.leb b c = true → String.leb a c = true.
Proof.
  intros H1 H2. apply Is_true_true. 
  apply (transitivity (R := String.le) (y := b)); by apply Is_true_true.
Qed.

Lemma key_leb_total k1 k2 : key_leb k1 k2 = false → key_leb k2 k1 = true.
Proof.
  destruct k1 as [[] s1], k2 as [[] s2]; unfold key_leb; simpl;
    first [apply string_leb_total | done].
Qed.

Lemma key_leb_trans k1 k2 k3 :
  key_leb k1 k2 = true → key_leb k2 k3 = true → key_leb k1 k3 = true.
Proof.
  destruct k1 as [[] s1], k2 as [[] s2], k3 as [[] s3]; unfold key_leb; simpl;
    first [apply string_leb_trans | done].
Qed.

#[global] Instance result_le_trans : Transitive result_le.
Proof. intros a b c. unfold result_le. apply key_leb_trans. Qed.

Lemma StronglySorted_lookup_lt {A} (R : relation A) l : ∀ i j a b,
  StronglySorted R l → (i < j)%nat → l !! i = Some a → l !! j = Some b → R a b.
Proof.
  induction l as [|x l IH]; intros i j a b Hs Hij Ha Hb; [discriminate|].
  apply StronglySorted_inv in Hs. destruct Hs as [Hs Hall].
  destruct j as [|j]; [lia|]. simpl in Hb. destruct i as [|i].
  - simpl in Ha. injection Ha as <-.
    eapply Forall_forall in Hall; [exact Hall|]. by eapply list_elem_of_lookup_2.
  - simpl in Ha. eapply (IH i j); [exact Hs | lia | exact Ha | exact Hb].
Qed.

Lemma collect_results_elem outcomes b :
  b ∈ collect_results outcomes ↔ Parsed b ∈ outcomes ∧ accepted b = true.
Proof.
  induction outcomes as [|o outcomes IH]; simpl.
  - split; [intros H; by apply elem_of_nil in H|intros [H _]; by apply elem_of_nil in H].
  - destruct o as [| |b'].
    + rewrite IH, elem_of_cons. split; [intros [? ?]; auto|].
      intros [[H|H] ?]; [discriminate|auto].
    + rewrite IH, elem_of_cons. split; [intros [? ?]; auto|].
      intros [[H|H] ?]; [discriminate|auto].
    + destruct (accepted b') eqn:E.
      * rewrite !elem_of_cons, IH. split.
        -- intros [->|[? ?]]; auto.
        -- intros [[H|H] ?]; [left; congruence|auto].
      * rewrite IH, elem_of_cons. split; [intros [? ?]; auto|].
        intros [[H|H] ?]; [|auto]. congruence.
Qed.

(** X14: the results of the batch are exactly the parsed boards that are
    not bootloader definitions and have a serial order, each as often as it
    was parsed; they come sorted by the key (priority boards first, then
    the lower-cased folder names in ascending order), so no board without
    priority stands before a priority board. *)
Theorem main_results_sorted outcomes :
  (∀ b, b ∈ main_results outcomes ↔
        Parsed b ∈ outcomes ∧ BoardData.is_bootloader b = false
        ∧ BoardData.serial_order b ≠ []) ∧
  main_results outcomes ≡ₚ collect_results outcomes ∧
  StronglySorted result_le (main_results outcomes) ∧
  (∀ i j a b, (i < j)%nat →
     main_results outcomes !! i = Some a → main_results outcomes !! j = Some b →
     BoardData.is_priority b = true → BoardData.is_priority a = true).
Proof.
  assert (Hperm : main_results outcomes ≡ₚ collect_results outcomes)
    by apply stable_sort_Permutation.
  assert (Hsorted : StronglySorted result_le (main_results outcomes)).
  { apply Sorted_StronglySorted; [apply _|].
    apply (stable_sort_Sorted (λ a b, key_leb (result_key a) (result_key b))).
    intros a b. apply key_leb_total. }
  split; [|split; [exact Hperm|split; [exact Hsorted|]]].
  - intros b. rewrite Hperm, collect_results_elem. unfold accepted.
    rewrite andb_true_iff, !negb_true_iff, bool_decide_eq_false. tauto.
  - intros i j a b Hij Ha Hb Hprio.
    pose proof (StronglySorted_lookup_lt result_le _ i j a b Hsorted Hij Ha Hb) as Hle.
    clear Hsorted. rename Hle into Hsorted.
    unfold result_le, key_leb, result_key in Hsorted. simpl in Hsorted.
    rewrite Hprio in Hsorted. simpl in Hsorted.
    destruct (BoardData.is_priority a); [reflexivity|]. simpl in Hsorted. discriminate.
Qed.

Lemma main_results_sorted_witness :
  ∃ a b,
    main_results demo_outcomes = [a; b] ∧
    BoardData.folder_name a = "fmuv3" ∧
    BoardData.is_priority b = true ∧ BoardData.is_priority a = true.
Proof.
  eexists _, _. split; [reflexivity|]. split; [reflexivity|]. split; [reflexivity|].
  eapply (proj2 (proj2 (proj2 (main_results_sorted demo_outcomes))) 0%nat 1%nat);
    [lia | reflexivity | reflexivity | reflexivity].
Defined.

(** ** Which boards the batch accepts *)

Section Acceptance.

Variable board_ids : gmap string Z.
Variable float_ok : string → bool.
Variable orders : ChipOrders.

Lemma process_line_identity b parts line undefs :
  same_identity b (process_line board_ids float_ok b parts line undefs).
Proof.
  unfold process_line. branch_cases; try (repeat split; reflexivity).
  apply (process_define_preserve float_ok (same_identity b));
    try (intros; assumption). repeat split.
Qed.

Lemma process_line_serial_order b parts line undefs :
  BoardData.serial_order (process_line board_ids float_ok b parts line undefs)
  = if String.eqb (token parts 0) "SERIAL_ORDER" then drop 1 parts
    else BoardData.serial_order b.
Proof.
  unfold process_line.
  destruct (String.eqb (token parts 0) "SERIAL_ORDER") eqn:Hkw.
  - apply String.eqb_eq in Hkw. rewrite Hkw. simpl. branch_cases; reflexivity.
  - branch_cases; try reflexivity; try congruence.
    apply (process_define_preserve float_ok
             (λ x, BoardData.serial_order x = BoardData.serial_order b));
      try (intros; assumption). reflexivity.
Qed.

Lemma process_lines_identity lines : ∀ st st',
  process_lines board_ids float_ok st lines = Some st' →
  same_identity st.1 st'.1 ∧
  (BoardData.serial_order st'.1 = BoardData.serial_order st.1 ∨
   ∃ l toks, l ∈ lines ∧ PyStr.split l = "SERIAL_ORDER" :: toks ∧
             BoardData.serial_order st'.1 = toks).
Proof.
  induction lines as [|line rest IH]; intros st st' H; simpl in H.
  - simplify_eq. split; [repeat split | by left].
  - destruct (process_step board_ids float_ok st line) as [st1|] eqn:Hstep;
      [|discriminate]. simpl in H.
    destruct (IH _ _ H) as [(Hf & Hb & Hp) Hser]. clear IH H.
    assert (Hlater : (∃ l toks, l ∈ rest ∧ PyStr.split l = "SERIAL_ORDER" :: toks ∧
                                BoardData.serial_order st'.1 = toks) →
                     ∃ l toks, l ∈ line :: rest ∧ PyStr.split l = "SERIAL_ORDER" :: toks ∧
                               BoardData.serial_order st'.1 = toks).
    { intros (l & toks & Hl & Hs). exists l, toks. split; [by right | exact Hs]. }
    unfold process_step in Hstep.
    destruct (is_skipped line).
    { simplify_eq. split; [by repeat split|]. destruct Hser; auto. }
    destruct (PyStr.startswith "undef " line).
    { destruct (undef_name line); simplify_eq/=.
      split; [by repeat split|]. destruct Hser; auto. }
    destruct (PyStr.split line) as [|kw ws] eqn:Hs; simplify_eq/=.
    { split; [by repeat split|]. destruct Hser; auto. }
    destruct (process_line_identity st.1 (kw :: ws) line st.2) as (Hf1 & Hb1 & Hp1).
    split; [repeat split; congruence|].
    destruct Hser as [Hser|Hser]; [|right; by apply Hlater].
    rewrite process_line_serial_order in Hser. simpl in Hser.
    change (token (kw :: ws) 0) with kw in Hser.
    destruct (String.eqb kw "SERIAL_ORDER") eqn:Hkw; [|left; exact Hser].
    apply String.eqb_eq in Hkw. subst kw. right.
    exists line, ws. split; [left|]. by split.
Qed.

Lemma post_process_identity b lines :
  same_identity b (post_process board_ids orders b lines).
Proof.
  unfold post_process, resolve_board_id, detect_rc_input. cbv zeta.
  branch_cases; repeat split.
Qed.

(** X15: a parsed board carries the folder name it was parsed for, is
    marked bootloader exactly when that name ends with [-bl] and priority
    exactly when it is one of the priority boards; and the batch accepts it
    only if the name does not end with [-bl] and some line is a
    SERIAL_ORDER directive with at least one token, whose tokens are the
    board's serial order.  A board without any SERIAL_ORDER directive is
    skipped. *)
Theorem accepted_board folder lines board :
  parse_board board_ids float_ok orders folder lines = Some board →
  BoardData.folder_name board = folder ∧
  BoardData.is_bootloader board = PyStr.endswith "-bl" folder ∧
  BoardData.is_priority board = bool_decide (folder ∈ PRIORITY_BOARDS) ∧
  (accepted board = true →
     PyStr.endswith "-bl" folder = false ∧
     ∃ l tok toks, l ∈ lines ∧ PyStr.split l = "SERIAL_ORDER" :: tok :: toks ∧
                   BoardData.serial_order board = tok :: toks).
Proof.
  intros Hparse. apply parse_board_inv in Hparse.
  destruct Hparse as (b0 & undefs & Hloop & ->).
  apply process_lines_identity in Hloop. simpl in Hloop.
  destruct Hloop as [(Hf & Hb & Hp) Hser].
  change (BoardData.folder_name (initial_board folder lines)) with folder in Hf.
  change (BoardData.is_bootloader (initial_board folder lines))
    with (PyStr.endswith "-bl" folder) in Hb.
  change (BoardData.is_priority (initial_board folder lines))
    with (bool_decide (folder ∈ PRIORITY_BOARDS)) in Hp.
  change (BoardData.serial_order (initial_board folder lines))
    with (@nil string) in Hser.
  destruct (post_process_identity b0 lines) as (Hf' & Hb' & Hp').
  split; [congruence|]. split; [congruence|]. split; [congruence|].
  unfold accepted. rewrite post_process_serial_order, Hb', Hb. simpl.
  intros Hacc. apply andb_true_iff in Hacc. destruct Hacc as [Hbl Hso].
  apply negb_true_iff in Hbl. apply negb_true_iff, bool_decide_eq_false in Hso.
  split; [exact Hbl|].
  destruct Hser as [Hser|(l & toks & Hl & Hs & Hser)]; [contradiction|].
  destruct toks as [|tok toks]; [contradiction|].
  exists l, tok, toks. by repeat split.
Qed.

End Acceptance.

Lemma accepted_board_witness :
  ∃ board,
    parse_board ∅ no_float source_orders "fmuv3"
      ["MCU STM32F4xx STM32F427xx"; "SERIAL_ORDER OTG1 USART2"] = Some board ∧
    accepted board = true ∧ BoardData.is_priority board = true ∧
    ∃ l tok toks, l ∈ ["MCU STM32F4xx STM32F427xx"; "SERIAL_ORDER OTG1 USART2"] ∧
      PyStr.split l = "SERIAL_ORDER" :: tok :: toks.
Proof.
  destruct (parse_board ∅ no_float source_orders "fmuv3"
      ["MCU STM32F4xx STM32F427xx"; "SERIAL_ORDER OTG1 USART2"]) as [board|] eqn:Hp;
    [|vm_compute in Hp; discriminate].
  assert (Hacc : accepted board = true).
  { pose proof Hp as Hq. vm_compute in Hq. injection Hq as <-. reflexivity. }
  destruct (accepted_board ∅ no_float source_orders "fmuv3" _ board Hp)
    as (_ & _ & Hprio & H).
  destruct (H Hacc) as (_ & l & tok & toks & Hl & Hs & _).
  exists board. split; [reflexivity|]. split; [exact Hacc|]. split.
  - rewrite Hprio. reflexivity.
  - exists l, tok, toks. by split.
Defined.

(** ** The include list *)

Lemma split_go_prefix s : ∀ cur tok toks,
  cur ≠ "" → PyStr.split_go cur s = tok :: toks → ∃ r, cur +:+ s = tok +:+ r.
Proof.
  induction s as [|c s IH]; intros cur tok toks Hcur H; simpl in H.
  - apply is_empty_false in Hcur. rewrite Hcur in H.
    injection H as <- _. by exists "".
  - destruct (PyStr.is_space c).
    + apply is_empty_false in Hcur. rewrite Hcur in H.
      injection H as <- _. by exists (String c s).
    + apply IH in H; [|apply app_not_empty].
      destruct H as [r Hr]. exists r. by rewrite <- Hr, app_snoc_cons.
Qed.

Lemma stripped_head c r : stripped (String c r) → PyStr.is_space c = false.
Proof.
  unfold stripped, PyStr.strip, PyStr.strip_by. intros Hs.
  destruct (PyStr.is_space c) eqn:Hc; [|reflexivity]. exfalso.
  destruct (lstrip_head PyStr.is_space (String c r)) as [E|(c' & t & E & Hc')];
    rewrite E in Hs; simpl in Hs; [discriminate|].
  rewrite Hc' in Hs. simpl in Hs. congruence.
Qed.

(** A stripped line starts with its first word. *)
Lemma stripped_keyword line kw ws :
  stripped line → PyStr.split line = kw :: ws → PyStr.startswith kw line = true.
Proof.
  intros Hs Hsplit. destruct line as [|c r]; [discriminate|].
  pose proof (stripped_head _ _ Hs) as Hc.
  unfold PyStr.split in Hsplit. simpl in Hsplit. rewrite Hc in Hsplit.
  apply split_go_prefix in Hsplit; [|discriminate].
  destruct Hsplit as [r' Hr'].
  change (("" +:+ String c "") +:+ r) with (String c r) in Hr'.
  unfold PyStr.startswith. rewrite Hr'. apply app_prefix.
Qed.

Section IncludeList.

Variable board_ids : gmap string Z.
Variable float_ok : string → bool.
Variable orders : ChipOrders.
Variable fs : string → FileState.
Variable resolve_path : string → string → string.

Lemma process_line_includes b parts line undefs :
  token parts 0 ≠ "include" →
  BoardData.includes (process_line board_ids float_ok b parts line undefs)
  = BoardData.includes b.
Proof.
  intros Hkw. unfold process_line.
  branch_cases; try reflexivity;
    try (exfalso; apply Hkw; by apply String.eqb_eq).
  apply (process_define_preserve float_ok
           (λ x, BoardData.includes x = BoardData.includes b));
    try (intros; assumption). reflexivity.
Qed.

Lemma process_lines_includes lines : ∀ st st',
  Forall emitted lines →
  process_lines board_ids float_ok st lines = Some st' →
  BoardData.includes st'.1 = BoardData.includes st.1.
Proof.
  induction lines as [|line rest IH]; intros st st' Hall H; simpl in H.
  - by simplify_eq.
  - destruct (process_step board_ids float_ok st line) as [st1|] eqn:Hstep;
      [|discriminate]. simpl in H.
    apply Forall_cons in Hall. destruct Hall as [[Hs He] Hall].
    rewrite (IH _ _ Hall H). clear IH H.
    unfold process_step in Hstep.
    destruct (is_skipped line); [by simplify_eq|]. simpl in He.
    destruct (PyStr.startswith "undef " line).
    { by destruct (undef_name line); simplify_eq/=. }
    destruct (PyStr.split line) as [|kw ws] eqn:Hsplit; simplify_eq/=; [reflexivity|].
    apply process_line_includes. change (token (kw :: ws) 0) with kw. intros ->.
    rewrite (stripped_keyword _ _ _ Hs Hsplit) in He. discriminate.
Qed.

Lemma post_process_includes b lines :
  BoardData.includes (post_process board_ids orders b lines) = BoardData.includes b.
Proof.
  unfold post_process, resolve_board_id, detect_rc_input. cbv zeta.
  branch_cases; reflexivity.
Qed.

Lemma resolve_body_emitted recurse filepath raw_lines : ∀ cache lines r,
  (∀ c p r', cache_emitted c → recurse c p = Some r' →
             cache_emitted r'.1 ∧ Forall emitted r'.2) →
  cache_emitted cache → Forall emitted lines →
  resolve_body resolve_path recurse filepath cache raw_lines lines = Some r →
  cache_emitted r.1 ∧ Forall emitted r.2.
Proof.
  induction raw_lines as [|raw rest IH]; intros cache lines r Hrec Hc Hl H; simpl in H.
  - by simplify_eq.
  - assert (Hsnoc : (is_skipped (PyStr.strip raw)
                     || negb (PyStr.startswith "include" (PyStr.strip raw))) = true →
                    Forall emitted (lines ++ [PyStr.strip raw])).
    { intros He. apply Forall_app. split; [exact Hl|].
      constructor; [|constructor]. split; [apply strip_idem|exact He]. }
    unfold is_skipped in Hsnoc.
    destruct (PyStr.is_empty (PyStr.strip raw) || PyStr.startswith "#" (PyStr.strip raw));
      [exact (IH _ _ _ Hrec Hc (Hsnoc eq_refl) H)|].
    destruct (PyStr.startswith "include" (PyStr.strip raw));
      [|exact (IH _ _ _ Hrec Hc (Hsnoc eq_refl) H)].
    destruct (PyStr.split_max1 (PyStr.strip raw)) as [|w [|arg [|x xs]]];
      try exact (IH _ _ _ Hrec Hc Hl H).
    destruct (recurse cache (resolve_path filepath (PyStr.strip arg))) as [r'|] eqn:Hr;
      [|discriminate]. simpl in H.
    destruct (Hrec _ _ _ Hc Hr) as [Hc' Hl'].
    eapply IH; [exact Hrec | exact Hc' | | exact H].
    apply Forall_app. by split.
Qed.

Lemma resolve_lines_fuel_emitted fuel : ∀ cache filepath depth r,
  cache_emitted cache →
  resolve_lines_fuel fs resolve_path fuel cache filepath depth = Some r →
  cache_emitted r.1 ∧ Forall emitted r.2.
Proof.
  induction fuel as [|fuel IH]; intros cache filepath depth r Hc H; [discriminate|].
  simpl in H. destruct (10 <? depth)%nat; [simplify_eq; split; [exact Hc|constructor]|].
  destruct (cache !! filepath) as [ls|] eqn:Hk.
  { simplify_eq. split; [exact Hc|]. by eapply Hc. }
  destruct (fs filepath) as [| |raw];
    [simplify_eq; split; [exact Hc|constructor]..|].
  destruct (resolve_body resolve_path _ filepath cache raw []) as [r'|] eqn:Hb;
    [|discriminate]. simpl in H. simplify_eq. simpl.
  apply resolve_body_emitted in Hb; [| |exact Hc|constructor].
  - destruct Hb as [Hc' Hl']. split; [|exact Hl'].
    intros k ls Hk'. destruct (decide (filepath = k)) as [->|Hne].
    + rewrite lookup_insert_eq in Hk'. by simplify_eq.
    + rewrite lookup_insert_ne in Hk' by exact Hne. by eapply Hc'.
  - intros c p r'' Hc'' Hr''. by eapply IH.
Qed.

(** X16: include resolution never emits a directive line that starts with
    [include] (it expands or drops every such line), and it keeps the
    include cache in that state; so a board parsed from resolved lines has
    an empty include list, whatever the files contain. *)
Theorem resolved_board_has_no_includes cache filepath depth r folder board :
  cache_emitted cache →
  resolve_lines fs resolve_path cache filepath depth = Some r →
  parse_board board_ids float_ok orders folder r.2 = Some board →
  cache_emitted r.1 ∧
  (∀ l kw ws, l ∈ r.2 → PyStr.split l = kw :: ws → kw ≠ "include") ∧
  BoardData.includes board = [].
Proof.
  intros Hc Hr Hparse.
  apply resolve_lines_fuel_emitted in Hr; [|exact Hc]. destruct Hr as [Hc' Hl].
  split; [exact Hc'|]. split.
  - intros l kw ws Hin Hsplit ->.
    rewrite Forall_forall in Hl. destruct (Hl l Hin) as [Hs He].
    pose proof (stripped_keyword _ _ _ Hs Hsplit) as Hp.
    rewrite Hp, orb_false_r in He.
    apply prefix_app in Hp. destruct Hp as [t ->].
    vm_compute in He. discriminate.
  - apply parse_board_inv in Hparse. destruct Hparse as (b0 & undefs & Hloop & ->).
    rewrite post_process_includes.
    apply process_lines_includes in Hloop; [|exact Hl]. exact Hloop.
Qed.

End IncludeList.

Lemma resolved_board_has_no_includes_witness :
  ∃ r board,
    resolve_lines cycle_fs flat_paths ∅ "hwdef.dat" 0 = Some r ∧
    parse_board ∅ no_float source_orders "demo" r.2 = Some board ∧
    BoardData.includes board = [].
Proof.
  destruct (resolve_lines cycle_fs flat_paths ∅ "hwdef.dat" 0) as [r|] eqn:Hr;
    [|vm_compute in Hr; discriminate].
  destruct (parse_resolved_total cycle_fs flat_paths ∅ no_float source_orders
              "demo" "hwdef.dat" r Hr) as [board Hb].
  exists r, board. split; [reflexivity|]. split; [exact Hb|].
  refine (proj2 (proj2 (resolved_board_has_no_includes ∅ no_float source_orders
            cycle_fs flat_paths ∅ "hwdef.dat" 0%nat r "demo" board _ Hr Hb))).
  intros k ls Hk. by rewrite lookup_empty in Hk.
Defined.

(** ** The header comments *)

Lemma header_lines_app pre rest :
  ∃ more, header_lines (pre ++ rest) = header_lines pre ++ more.
Proof.
  induction pre as [|a pre [more IH]]; simpl.
  - by exists (header_lines rest).
  - destruct (PyStr.startswith "#" a).
    + exists more. by rewrite IH.
    + destruct (PyStr.is_empty a); simpl; [by exists more|by exists []].
Qed.

Section HeaderComments.

Variable board_ids : gmap string Z.
Variable float_ok : string → bool.
Variable orders : ChipOrders.

Lemma process_line_header b parts line undefs :
  BoardData.header_comments (process_line board_ids float_ok b parts line undefs)
  = BoardData.header_comments b.
Proof.
  unfold process_line. branch_cases; try reflexivity.
  apply (process_define_preserve float_ok
           (λ x, BoardData.header_comments x = BoardData.header_comments b));
    try (intros; assumption). reflexivity.
Qed.

Lemma process_lines_header lines : ∀ st st',
  process_lines board_ids float_ok st lines = Some st' →
  BoardData.header_comments st'.1 = BoardData.header_comments st.1.
Proof.
  induction lines as [|line rest IH]; intros st st' H; simpl in H.
  - by simplify_eq.
  - destruct (process_step board_ids float_ok st line) as [st1|] eqn:Hstep;
      [|discriminate]. simpl in H.
    rewrite (IH _ _ H). clear IH H. unfold process_step in Hstep.
    destruct (is_skipped line); [by simplify_eq|].
    destruct (PyStr.startswith "undef " line).
    { by destruct (undef_name line); simplify_eq/=. }
    destruct (PyStr.split line) as [|kw ws]; simplify_eq/=; [reflexivity|].
    apply process_line_header.
Qed.

Lemma post_process_header b lines :
  BoardData.header_comments (post_process board_ids orders b lines)
  = BoardData.header_comments b.
Proof.
  unfold post_process, resolve_board_id, detect_rc_input. cbv zeta.
  branch_cases; reflexivity.
Qed.

(** X17: the header comments of a board are fixed by the start of the
    file.  Once a prefix of the lines holds a directive (a line that is
    neither empty nor a comment) or ten leading comment lines, nothing that
    follows, comment or directive, changes the header. *)
Theorem header_comments_prefix folder pre rest board :
  (∃ l, l ∈ pre ∧ is_skipped l = false) ∨ (10 ≤ length (header_lines pre))%nat →
  parse_board board_ids float_ok orders folder (pre ++ rest) = Some board →
  BoardData.header_comments board = header_of pre.
Proof.
  intros Hpre Hparse.
  apply parse_board_inv in Hparse. destruct Hparse as (b0 & undefs & Hloop & ->).
  rewrite post_process_header. apply process_lines_header in Hloop.
  simpl in Hloop. rewrite Hloop. change (header_of (pre ++ rest) = header_of pre).
  unfold header_of. f_equal. destruct Hpre as [Hstop|Hlen].
  - by rewrite header_lines_stop.
  - destruct (header_lines_app pre rest) as [more ->].
    by rewrite take_app_le.
Qed.

End HeaderComments.

Lemma header_comments_prefix_witness :
  ∃ board,
    parse_board ∅ no_float source_orders "demo"
      (["# Board"; ""; "#  rev 2 "; "MCU STM32F4xx STM32F405xx"] ++ ["# not a header"])
    = Some board ∧
    BoardData.header_comments board = "Board" +:+ newline +:+ "rev 2".
Proof.
  destruct (parse_board ∅ no_float source_orders "demo"
      (["# Board"; ""; "#  rev 2 "; "MCU STM32F4xx STM32F405xx"] ++ ["# not a header"]))
    as [board|] eqn:Hp; [|vm_compute in Hp; discriminate].
  exists board. split; [reflexivity|].
  refine (header_comments_prefix ∅ no_float source_orders "demo"
            ["# Board"; ""; "#  rev 2 "; "MCU STM32F4xx STM32F405xx"]
            ["# not a header"] board _ Hp).
  left. exists "MCU STM32F4xx STM32F405xx". split; [|reflexivity].
  do 3 right. left.
Defined.

(** ** The CAN interface count *)

Lemma match_digit_val pre s d :
  PyStr.match_digit pre s = Some d → 0 ≤ PyStr.digits_val 0 d ≤ 9.
Proof.
  unfold PyStr.match_digit. intros H.
  destruct (String.prefix pre s); [|discriminate].
  destruct (PyStr.drop_prefix pre s) as [|c t]; [discriminate|].
  destruct (PyStr.is_digit c) eqn:Hc; [|discriminate]. injection H as <-.
  unfold PyStr.is_digit in Hc. cbv zeta in Hc.
  apply andb_true_iff in Hc. destruct Hc as [H1 H2].
  apply N.leb_le in H1, H2. cbn [PyStr.digits_val]. lia.
Qed.

Lemma re_search_match_digit pre s : ∀ d,
  PyStr.re_search (PyStr.match_digit pre) s = Some d → 0 ≤ PyStr.digits_val 0 d ≤ 9.
Proof.
  induction s as [|c s IH]; intros d H; cbn [PyStr.re_search] in H.
  - destruct (PyStr.match_digit pre "") eqn:E; [|discriminate].
    injection H as <-. by eapply match_digit_val.
  - destruct (PyStr.match_digit pre (String c s)) eqn:E.
    + injection H as <-. by eapply match_digit_val.
    + by apply IH.
Qed.

Section CanCount.

Variable board_ids : gmap string Z.
Variable float_ok : string → bool.
Variable orders : ChipOrders.

Lemma process_define_can_other b parts :
  token parts 1 ≠ "HAL_NUM_CAN_IFACES" →
  BoardData.can_interfaces (process_define float_ok b parts) = BoardData.can_interfaces b.
Proof.
  intros Hne. apply String.eqb_neq in Hne.
  unfold process_define, define_can. cbv zeta. rewrite Hne.
  unfold define_sdcard, define_osd, define_led_strip, define_board_name,
    define_safety, define_battery, define_buzzer.
  branch_cases; reflexivity.
Qed.

Lemma process_line_can_bound b parts line undefs :
  BoardData.defines (process_line board_ids float_ok b parts line undefs)
    !! "HAL_NUM_CAN_IFACES" = None →
  (BoardData.defines b !! "HAL_NUM_CAN_IFACES" = None →
   0 ≤ BoardData.can_interfaces b ≤ 9) →
  0 ≤ BoardData.can_interfaces (process_line board_ids float_ok b parts line undefs) ≤ 9.
Proof.
  intros Hnone Hinv.
  assert (Hb : 0 ≤ BoardData.can_interfaces b ≤ 9).
  { apply Hinv. rewrite process_line_defines in Hnone.
    destruct (is_define_directive parts line); [|exact Hnone].
    destruct (decide (token parts 1 = "HAL_NUM_CAN_IFACES")) as [e|n].
    - rewrite e, lookup_insert_eq in Hnone. discriminate.
    - by rewrite lookup_insert_ne in Hnone. }
  clear Hinv. unfold process_line in *.
  branch_cases; try exact Hb.
  - destruct (decide (token parts 1 = "HAL_NUM_CAN_IFACES")) as [e|n].
    + rewrite process_define_defines, e, lookup_insert_eq in Hnone. discriminate.
    + by rewrite process_define_can_other.
  - match goal with
    | H : PyStr.re_search _ _ = Some _ |- _ => apply re_search_match_digit in H
    end.
    cbn [BoardData.can_interfaces BoardData.set_can_interfaces]. lia.
Qed.

Lemma process_lines_can_bound lines : ∀ st st',
  process_lines board_ids float_ok st lines = Some st' →
  BoardData.defines st'.1 !! "HAL_NUM_CAN_IFACES" = None →
  (BoardData.defines st.1 !! "HAL_NUM_CAN_IFACES" = None →
   0 ≤ BoardData.can_interfaces st.1 ≤ 9) →
  0 ≤ BoardData.can_interfaces st'.1 ≤ 9.
Proof.
  induction lines as [|line rest IH]; intros st st' H Hnone Hinv; simpl in H.
  - simplify_eq. by apply Hinv.
  - destruct (process_step board_ids float_ok st line) as [st1|] eqn:Hstep;
      [|discriminate]. simpl in H.
    apply (IH _ _ H Hnone). clear IH H Hnone. unfold process_step in Hstep.
    destruct (is_skipped line); [by simplify_eq|].
    destruct (PyStr.startswith "undef " line).
    { by destruct (undef_name line); simplify_eq/=. }
    destruct (PyStr.split line) as [|kw ws]; simplify_eq/=; [exact Hinv|].
    intros Hnone. by apply process_line_can_bound.
Qed.

Lemma post_process_can b lines :
  BoardData.can_interfaces (post_process board_ids orders b lines)
  = BoardData.can_interfaces b.
Proof.
  unfold post_process, resolve_board_id, detect_rc_input. cbv zeta.
  branch_cases; reflexivity.
Qed.

(** X18: unless a [define HAL_NUM_CAN_IFACES] line entered the define
    table, the CAN interface count of a parsed board lies between 0 and 9:
    pin lines only ever raise it to a single digit found in the keyword. *)
Theorem can_interfaces_bound folder lines board :
  parse_board board_ids float_ok orders folder lines = Some board →
  BoardData.defines board !! "HAL_NUM_CAN_IFACES" = None →
  0 ≤ BoardData.can_interfaces board ≤ 9.
Proof.
  intros Hparse Hnone.
  apply parse_board_inv in Hparse. destruct Hparse as (b0 & undefs & Hloop & ->).
  rewrite post_process_defines in Hnone. rewrite post_process_can.
  apply (process_lines_can_bound _ _ _ Hloop Hnone).
  intros _. cbn. lia.
Qed.

End CanCount.

Lemma can_interfaces_bound_witness :
  ∃ board,
    parse_board ∅ no_float source_orders "demo"
      ["MCU STM32F4xx STM32F405xx"; "CAN2_RX PB12 CAN2"; "X_TX PA1"] = Some board ∧
    BoardData.defines board !! "HAL_NUM_CAN_IFACES" = None ∧
    0 ≤ BoardData.can_interfaces board ≤ 9.
Proof.
  destruct (parse_board ∅ no_float source_orders "demo"
      ["MCU STM32F4xx STM32F405xx"; "CAN2_RX PB12 CAN2"; "X_TX PA1"])
    as [board|] eqn:Hp; [|vm_compute in Hp; discriminate].
  assert (Hnone : BoardData.defines board !! "HAL_NUM_CAN_IFACES" = None).
  { pose proof Hp as Hq. vm_compute in Hq. injection Hq as <-. reflexivity. }
  exists board. split; [reflexivity|]. split; [exact Hnone|].
  exact (can_interfaces_bound ∅ no_float source_orders "demo" _ board Hp Hnone).
Defined.

(** ** Where the PWM outputs come from *)

Lemma span_digits_all s : all_chars PyStr.is_digit (PyStr.span_digits s).1 = true.
Proof.
  induction s as [|c s IH]; [reflexivity|]. simpl.
  destruct (PyStr.is_digit c) eqn:Hc; [|reflexivity].
  destruct (PyStr.span_digits s) as [a b]. simpl in *. by rewrite Hc, IH.
Qed.

Lemma match_paren_num_digits pre s ds :
  PyStr.match_paren_num pre s = Some ds → all_chars PyStr.is_digit ds = true.
Proof.
  unfold PyStr.match_paren_num. intros H.
  destruct (String.prefix (pre +:+ "(") s); [|discriminate].
  pose proof (span_digits_all (PyStr.drop_prefix (pre +:+ "(") s)) as Hd.
  destruct (PyStr.span_digits (PyStr.drop_prefix (pre +:+ "(") s)) as [a b].
  destruct (negb (PyStr.is_empty a) && String.prefix ")" b); [|discriminate].
  by injection H as <-.
Qed.

Lemma re_search_paren_num_digits pre s : ∀ ds,
  PyStr.re_search (PyStr.match_paren_num pre) s = Some ds →
  all_chars PyStr.is_digit ds = true.
Proof.
  induction s as [|c s IH]; intros ds H; cbn [PyStr.re_search] in H.
  - destruct (PyStr.match_paren_num pre "") eqn:E; [|discriminate].
    injection H as <-. by eapply match_paren_num_digits.
  - destruct (PyStr.match_paren_num pre (String c s)) eqn:E.
    + injection H as <-. by eapply match_paren_num_digits.
    + by apply IH.
Qed.

Lemma digits_val_nonneg ds : ∀ acc,
  all_chars PyStr.is_digit ds = true → 0 ≤ acc → 0 ≤ PyStr.digits_val acc ds.
Proof.
  induction ds as [|c ds IH]; intros acc Hd Hacc; [exact Hacc|].
  simpl in Hd. apply andb_true_iff in Hd. destruct Hd as [Hc Hd].
  cbn [PyStr.digits_val]. apply IH; [exact Hd|].
  unfold PyStr.is_digit in Hc. cbv zeta in Hc.
  apply andb_true_iff in Hc. destruct Hc as [H1 H2]. apply N.leb_le in H1, H2. lia.
Qed.

Section PwmOutputs.

Variable board_ids : gmap string Z.
Variable float_ok : string → bool.
Variable orders : ChipOrders.

Lemma process_line_pwm b line undefs :
  is_skipped line = false →
  BoardData.pwm_outputs (process_line board_ids float_ok b (PyStr.split line) line undefs)
    = BoardData.pwm_outputs b ∨
  ∃ o, BoardData.pwm_outputs
         (process_line board_ids float_ok b (PyStr.split line) line undefs)
       = BoardData.pwm_outputs b ++ [o] ∧ declares_output line o.
Proof.
  intros Hskip. unfold process_line.
  branch_cases; try (left; reflexivity).
  - right. eexists. split; [reflexivity|].
    match goal with
    | H : (_ && _) = true |- _ => apply andb_true_iff in H; destruct H as [Hlen _]
    end.
    apply Nat.leb_le in Hlen.
    repeat split; try assumption; try reflexivity. eauto.
  - left.
    apply (process_define_preserve float_ok
             (λ x, BoardData.pwm_outputs x = BoardData.pwm_outputs b));
      try (intros; assumption). reflexivity.
Qed.

Lemma process_lines_pwm lines : ∀ st st' o,
  process_lines board_ids float_ok st lines = Some st' →
  o ∈ BoardData.pwm_outputs st'.1 →
  o ∈ BoardData.pwm_outputs st.1 ∨ ∃ l, l ∈ lines ∧ declares_output l o.
Proof.
  induction lines as [|line rest IH]; intros st st' o H Ho; simpl in H.
  - simplify_eq. by left.
  - destruct (process_step board_ids float_ok st line) as [st1|] eqn:Hstep;
      [|discriminate]. simpl in H.
    destruct (IH _ _ _ H Ho) as [Hin|(l & Hl & Hd)];
      [|right; exists l; split; [by right|exact Hd]].
    clear IH H Ho. unfold process_step in Hstep.
    destruct (is_skipped line) eqn:Hskip; [simplify_eq; by left|].
    destruct (PyStr.startswith "undef " line).
    { destruct (undef_name line); simplify_eq/=. by left. }
    destruct (PyStr.split line) as [|kw ws] eqn:Hsplit; simplify_eq/=; [by left|].
    rewrite <- Hsplit in Hin.
    destruct (process_line_pwm st.1 line st.2 Hskip) as [Heq|(o' & Heq & Hd)];
      rewrite Heq in Hin; [by left|].
    apply elem_of_app in Hin. destruct Hin as [Hin|Hin]; [by left|].
    apply list_elem_of_singleton in Hin. subst o'.
    right. exists line. split; [left|exact Hd].
Qed.

(** X19: every PWM output of a parsed board was declared by a line of the
    file: a directive line of at least four words whose first
    [PWM(<digits>)] gives the output number, whose first three words are
    the pin, the timer channel and the timer, whose first [GPIO(<digits>)],
    if any, is the GPIO number, and which is bidirectional exactly when it
    contains [BIDIR].  Output and GPIO numbers are never negative. *)
Theorem pwm_outputs_declared folder lines board o :
  parse_board board_ids float_ok orders folder lines = Some board →
  o ∈ BoardData.pwm_outputs board →
  (∃ l, l ∈ lines ∧ declares_output l o) ∧
  0 ≤ OutputPin.number o ∧
  (∀ g, OutputPin.gpio o = Some g → 0 ≤ g).
Proof.
  intros Hparse Ho.
  apply parse_board_inv in Hparse. destruct Hparse as (b0 & undefs & Hloop & ->).
  rewrite post_process_pwm_outputs in Ho.
  destruct (process_lines_pwm _ _ _ _ Hloop Ho) as [Hin|(l & Hl & Hd)].
  { simpl in Hin. by apply elem_of_nil in Hin. }
  split; [by exists l|].
  destruct Hd as (_ & _ & (ds & Hds & Hnum) & Hgpio & _). split.
  - rewrite Hnum. apply digits_val_nonneg; [|lia].
    by eapply re_search_paren_num_digits.
  - intros g Hg. rewrite Hgpio in Hg.
    destruct (PyStr.re_search (PyStr.match_paren_num "GPIO") l) as [gs|] eqn:Hgs;
      [|discriminate]. injection Hg as <-.
    apply digits_val_nonneg; [|lia]. by eapply re_search_paren_num_digits.
Qed.

End PwmOutputs.

Lemma pwm_outputs_declared_witness :
  ∃ board o,
    parse_board ∅ no_float source_orders "demo"
      ["MCU STM32F4xx STM32F405xx"; "PA0 TIM2_CH1 TIM2 PWM(3) GPIO(50) BIDIR"] = Some board ∧
    o ∈ BoardData.pwm_outputs board ∧
    OutputPin.number o = 3 ∧
    ∃ l, l ∈ ["MCU STM32F4xx STM32F405xx"; "PA0 TIM2_CH1 TIM2 PWM(3) GPIO(50) BIDIR"] ∧
         declares_output l o.
Proof.
  destruct (parse_board ∅ no_float source_orders "demo"
      ["MCU STM32F4xx STM32F405xx"; "PA0 TIM2_CH1 TIM2 PWM(3) GPIO(50) BIDIR"])
    as [board|] eqn:Hp; [|vm_compute in Hp; discriminate].
  exists board, (OutputPin.mk 3 "TIM2" "TIM2_CH1" (Some 50) false true "PA0").
  assert (Ho : OutputPin.mk 3 "TIM2" "TIM2_CH1" (Some 50) false true "PA0"
               ∈ BoardData.pwm_outputs board).
  { pose proof Hp as Hq. vm_compute in Hq. injection Hq as <-. left. }
  split; [reflexivity|]. split; [exact Ho|]. split; [reflexivity|].
  exact (proj1 (pwm_outputs_declared ∅ no_float source_orders "demo" _ board _ Hp Ho)).
Defined.
